(** * WaveformCache: the per-channel waveform summary cache of a wave clip

    A shallow embedding of [src/tracks/playabletrack/wavetrack/ui/WaveformCache.cpp]
    and the properties of [WaveClipWaveformCache::GetWaveDisplay],
    [MarkChanged] and [Invalidate].

    Numbers are modelled as the C++ code has them:
    - [double] is IEEE binary64 and [float] is IEEE binary32, both through the
      Standard Library's executable specification of floating point
      ([SpecFloat]), round to nearest even;
    - [size_t] (64 bits) indices and lengths are [nat]; an [int] converted
      to [size_t] is reduced modulo 2^64 ([to_size_t]);
    - [int] and [sampleCount] (a 64 bit count) are [Z]; [int] arithmetic that
      can leave the 32 bit range is written with its two's complement
      wrap-around ([int32]).
    Vectors are lists read with a default and written with stdpp's list insert;
    the code never reads or writes out of range on the entries it builds
    itself (a C++ vector does not check).

    A call of [GetWaveDisplay] returns, or leaves by the exception of
    [std::make_unique<WaveCache>] at line 141, which is thrown when the
    vectors of the new entry cannot be built: their size is the width the
    caller asked for.  It is thrown while the entry pointer of the channel
    is null.  The collaborators are taken as functions that return; of
    those called while the pointer is null, [findCorrection] at line 127 is
    the only one. *)

From Stdlib Require Import ZArith Lia Bool.
From Stdlib Require Import Floats.SpecFloat.
From stdpp Require Import base option list.

(** ** IEEE formats *)

Module Double.
Definition prec : Z := 53.
Definition emax : Z := 1024.
Definition t := spec_float.
Definition zero : t := S754_zero false.
Definition of_Z (z : Z) : t := binary_normalize prec emax z 0 false.
Definition of_nat (n : nat) : t := of_Z (Z.of_nat n).
Definition one : t := Eval cbv in of_Z 1.
Definition add : t -> t -> t := SFadd prec emax.
Definition sub : t -> t -> t := SFsub prec emax.
Definition mul : t -> t -> t := SFmul prec emax.
Definition div : t -> t -> t := SFdiv prec emax.
Definition abs : t -> t := SFabs.
Definition ltb : t -> t -> bool := SFltb.
Definition leb : t -> t -> bool := SFleb.
Definition eqb : t -> t -> bool := SFeqb.
End Double.

Module Float.
Definition prec : Z := 24.
Definition emax : Z := 128.
Definition t := spec_float.
Definition zero : t := S754_zero false.
Definition of_Z (z : Z) : t := binary_normalize prec emax z 0 false.
Definition of_nat (n : nat) : t := of_Z (Z.of_nat n).
Definition add : t -> t -> t := SFadd prec emax.
Definition mul : t -> t -> t := SFmul prec emax.
Definition div : t -> t -> t := SFdiv prec emax.
Definition sqrt : t -> t := SFsqrt prec emax.
Definition ltb : t -> t -> bool := SFltb.
Definition leb : t -> t -> bool := SFleb.
(** [std::max(a, b)] is [(a < b) ? b : a], [std::min(a, b)] is
    [(b < a) ? b : a]. *)
Definition max (a b : t) : t := if ltb a b then b else a.
Definition min (a b : t) : t := if ltb b a then b else a.
End Float.

Abbreviation double := Double.t.
Abbreviation float := Float.t.
Abbreviation sampleCount := Z (only parsing).

(** Conversion to [int]: reduction modulo 2^32 into the signed range. *)
Definition int32 (z : Z) : Z := ((z + 2 ^ 31) mod 2 ^ 32 - 2 ^ 31)%Z.

(** Conversion of an [int] to [size_t]: reduction modulo 2^64. *)
Definition to_size_t (z : Z) : nat := Z.to_nat (z mod 2 ^ 64).

(** ** Vectors *)

(** [v[i]] on a vector of sample counts and of floats. *)
Definition at_Z (v : list Z) (i : nat) : Z := nth i v 0%Z.
Definition at_f (v : list float) (i : nat) : float := nth i v Float.zero.

(** Writing the elements of [src] to [dst[pos]], [dst[pos + 1]], ... *)
Fixpoint blit {A} (dst : list A) (pos : nat) (src : list A) : list A :=
  match src with
  | [] => dst
  | x :: src' => blit (<[pos := x]> dst) (S pos) src'
  end.

(** [memcpy(&dst[dstIdx], &src[srcIdx], n * sizeof(float))]. *)
Definition memcpy {A} (dst : list A) (dstIdx : nat) (src : list A) (srcIdx n : nat)
  : list A :=
  blit dst dstIdx (take n (drop srcIdx src)).

(** ** class WaveCache *)

Module WaveCache.
Record t := Build {
  dirty : Z;                 (* int *)
  len : nat;                 (* const size_t; counts pixels, not samples *)
  start : double;
  pps : double;
  rate : Z;                  (* const int *)
  where_ : list sampleCount;
  min : list float;
  max : list float;
  rms : list float
}.

(** [WaveCache()] *)
Definition empty : t :=
  {| dirty := -1; len := 0; start := Double.of_Z (-1); pps := Double.zero;
     rate := -1; where_ := []; min := []; max := []; rms := [] |}.

(** [WaveCache(len_, pixelsPerSecond, rate_, t0, dirty_)]: the vectors are
    value-initialised.  [rate_] is the clip's [int] rate passed through a
    [double] parameter, which is exact. *)
Definition make (len_ : nat) (pixelsPerSecond : double) (rate_ : Z)
    (t0 : double) (dirty_ : Z) : t :=
  {| dirty := dirty_; len := len_; start := t0; pps := pixelsPerSecond;
     rate := rate_;
     where_ := replicate (1 + len_) 0%Z;
     min := replicate len_ Float.zero;
     max := replicate len_ Float.zero;
     rms := replicate len_ Float.zero |}.

Definition with_where (c : t) (w : list sampleCount) : t :=
  {| dirty := dirty c; len := len c; start := start c; pps := pps c;
     rate := rate c; where_ := w; min := min c; max := max c; rms := rms c |}.

Definition with_arrays (c : t) (mn mx rm : list float) : t :=
  {| dirty := dirty c; len := len c; start := start c; pps := pps c;
     rate := rate c; where_ := where_ c; min := mn; max := mx; rms := rm |}.

(** [SIZE_MAX] *)
Definition SIZE_MAX : Z := 2 ^ 64 - 1.

(** A [std::vector] of [n] elements of [elemSize] bytes each is not built
    when its bytes exceed [SIZE_MAX]: [n] is then above the [max_size()] of
    the vector in every library, and the constructor leaves by
    [std::length_error]. *)
Definition vectorFits (elemSize n : Z) : bool := (n * elemSize <=? SIZE_MAX)%Z.

(** The vectors of [WaveCache(len_, ...)]: [where(1 + len)] of 8 byte sample
    counts, the sum taken in [size_t], and [min(len)], [max(len)],
    [rms(len)] of 4 byte floats. *)
Definition fits (len_ : nat) : bool :=
  vectorFits 8 ((1 + Z.of_nat len_) mod 2 ^ 64) && vectorFits 4 (Z.of_nat len_).
End WaveCache.

(** ** The collaborators of the cache

    The clip, its sequence (the durable sample store), the append buffer
    and the helpers of WaveClipUtilities are declared outside this file of
    the source; they are taken as an interface. *)

Inductive sampleFormat := int16Sample | int24Sample | floatSample.

Definition sampleFormat_eqb (a b : sampleFormat) : bool :=
  match a, b with
  | int16Sample, int16Sample | int24Sample, int24Sample
  | floatSample, floatSample => true
  | _, _ => false
  end.

(** The three output cursors [min], [max], [rms] of the fill loop. *)
Record Arrays := { a_min : list float; a_max : list float; a_rms : list float }.

Class Collaborators := {
  (** the durable sample store of one channel *)
  Sequence : Type;
  GetNumSamples : Sequence -> sampleCount;
  Stored : Sequence -> sampleFormat;
  (** [::GetWaveDisplay(sequence, min, max, rms, len, where)]: what it wrote
      to [min[0..len)], [max[0..len)], [rms[0..len)] and whether it
      succeeded *)
  SequenceGetWaveDisplay : Sequence -> nat -> list sampleCount -> bool * Arrays;
  (** a stored sample of the append buffer *)
  rawSample : Type;
  (** reading the buffer as [const float *] when the stored format is float *)
  asFloat : rawSample -> float;
  (** [SamplesToFloats(src, srcFormat, dst, len)] *)
  SamplesToFloats : sampleFormat -> list rawSample -> nat -> list float;
  (** [findCorrection(oldWhere, oldLen, newLen, t0, rate, samplesPerPixel,
      oldX0, correction)], returning its two results *)
  findCorrection :
    list sampleCount -> nat -> nat -> double -> double -> double -> Z * double;
  (** [fillWhere(where, len, bias, correction, t0, rate, samplesPerPixel)],
      returning the vector it filled *)
  fillWhere :
    list sampleCount -> nat -> double -> double -> double -> double -> double ->
    list sampleCount;
  (** the free store: whether it has the memory for the vectors of an entry
      of the given number of columns ([std::bad_alloc] otherwise) *)
  hasMemory : nat -> bool
}.

(** The clip, as far as the cache reads it. *)
Record WaveClip `{Collaborators} := {
  GetTrimLeft : double;
  GetRate : Z;                              (* int *)
  GetSequence : nat -> Sequence;
  GetAppendBufferLen : nat;
  GetAppendBuffer : nat -> list rawSample
}.

(** ** class WaveDisplay

    The four pointers of a display are null, point into the display's own
    vectors (after [Allocate]), or point into the vectors of the cache entry
    of a channel (after a request answered from the cache). *)

Inductive ptr := nullptr | toOwn | toCache (channel : nat).

Definition ptr_is_null (p : ptr) : bool :=
  match p with nullptr => true | _ => false end.

Definition ptr_is_own (p : ptr) : bool :=
  match p with toOwn => true | _ => false end.

Module WaveDisplay.
Record t := Build {
  width : Z;                   (* int *)
  where_ : ptr;
  min : ptr;
  max : ptr;
  rms : ptr;
  ownWhere : list sampleCount;
  ownMin : list float;
  ownMax : list float;
  ownRms : list float
}.

(** A display of the given width before [Allocate]. *)
Definition fresh (w : Z) : t :=
  Build w nullptr nullptr nullptr nullptr [] [] [] [].
End WaveDisplay.

Arguments WaveDisplay.fresh w%_Z.

(** [const size_t numPixels = (int)display.width;] *)
Definition numPixelsOf (d : WaveDisplay.t) : nat := to_size_t (WaveDisplay.width d).

(** ** class WaveClipWaveformCache *)

Record WaveClipWaveformCache := {
  mWaveCaches : list (option WaveCache.t);   (* vector<unique_ptr<WaveCache>> *)
  mDirty : Z                                 (* int mDirty { 0 } *)
}.

(** What a call of [GetWaveDisplay] that returns leaves behind: its result,
    the cache, the display, and the calls of the durable store's summarizer
    it made, each with its first column and its number of columns. *)
Record Outcome := {
  ok : bool;
  cache : WaveClipWaveformCache;
  display : WaveDisplay.t;
  calls : list (nat * nat)
}.

(** How a call of [GetWaveDisplay] ends: it returns, or it leaves by the
    exception of line 141; the display is then as it was, the durable store
    was not called, and the cache is the one given. *)
Inductive Exit :=
| Returns (o : Outcome)
| Throws (remains : WaveClipWaveformCache).

(** The cache after a call, however it ended, and the outcome of a call
    that returned. *)
Definition cacheAfter (x : Exit) : WaveClipWaveformCache :=
  match x with Returns o => cache o | Throws remains => remains end.

Definition outcomeOf (x : Exit) : option Outcome :=
  match x with Returns o => Some o | Throws _ => None end.

(** ** WaveClipWaveformCache::GetWaveDisplay *)

Section GetWaveDisplay.
Context {env : Collaborators}.

(** *** Lines 170-258: the columns that must be computed *)

(** [for (; a < p1; ++a) if (where[a + 1] > numSamples) break;] *)
Fixpoint scanBeyond (where_ : list sampleCount) (numSamples : sampleCount)
    (steps a : nat) : nat :=
  match steps with
  | O => a
  | S steps' =>
      if (at_Z where_ (a + 1) >? numSamples)%Z then a
      else scanBeyond where_ numSamples steps' (S a)
  end.

Definition firstBeyond (where_ : list sampleCount) (numSamples : sampleCount)
    (p0 p1 : nat) : nat :=
  scanBeyond where_ numSamples (p1 - p0) p0.

(** The clipping of column [i] to the append buffer. *)
Definition clipLeft (where_ : list sampleCount) (numSamples : sampleCount)
    (i : nat) : sampleCount :=
  Z.max 0 (at_Z where_ i - numSamples).

Definition clipRight (where_ : list sampleCount) (numSamples : sampleCount)
    (appendBufferLen : nat) (i : nat) : sampleCount :=
  Z.min (Z.of_nat appendBufferLen) (at_Z where_ (i + 1) - numSamples).

(** The floats [pb[0..len)] read from the append buffer at [sLeft]. *)
Definition appendFloats (seqFormat : sampleFormat) (appendBuffer : list rawSample)
    (sLeft len : nat) : list float :=
  if sampleFormat_eqb seqFormat floatSample
  then asFloat <$> drop sLeft appendBuffer
  else SamplesToFloats seqFormat (drop sLeft appendBuffer) len.

(** One step of [for (j = 1; j < len; j++)] on [(theMax, theMin, sumsq)]. *)
Definition accumulate (pb : list float) (acc : float * float * float) (j : nat)
  : float * float * float :=
  let '(theMax, theMin, sumsq) := acc in
  let val := at_f pb j in
  (Float.max theMax val, Float.min theMin val, Float.add sumsq (Float.mul val val)).

(** The summary [(min[i], max[i], rms[i])] of [pb[0..len)].  The quotient
    [sumsq / len] is a [float] division; the square root of a [float]
    rounded to [float] is the same whether it is taken in [float] or in
    [double], as both are correctly rounded. *)
Definition summarize (pb : list float) (len : nat) : float * float * float :=
  let val := at_f pb 0 in
  let '(theMax, theMin, sumsq) :=
    fold_left (accumulate pb) (seq 1 (len - 1)) (val, val, Float.mul val val) in
  (theMin, theMax, Float.sqrt (Float.div sumsq (Float.of_nat len))).

(** The body of [for (auto i = a; i < p1; i++)], on the cursors and
    [didUpdate]. *)
Definition appendColumn (seqFormat : sampleFormat) (appendBuffer : list rawSample)
    (appendBufferLen : nat) (where_ : list sampleCount) (numSamples : sampleCount)
    (st : Arrays * bool) (i : nat) : Arrays * bool :=
  let left := clipLeft where_ numSamples i in
  let right := clipRight where_ numSamples appendBufferLen i in
  if (right >? left)%Z then
    let sLeft := Z.to_nat left in
    let len := Z.to_nat (right - left) in
    let pb := appendFloats seqFormat appendBuffer sLeft len in
    let '(theMin, theMax, theRms) := summarize pb len in
    ({| a_min := <[i := theMin]> (a_min st.1);
        a_max := <[i := theMax]> (a_max st.1);
        a_rms := <[i := theRms]> (a_rms st.1) |}, true)
  else st.

Definition appendPass (clip : WaveClip) (channel : nat)
    (where_ : list sampleCount) (arrays : Arrays) (a p1 : nat) : Arrays * bool :=
  let sequence := GetSequence clip channel in
  fold_left
    (appendColumn (Stored sequence) (GetAppendBuffer clip channel)
       (GetAppendBufferLen clip) where_ (GetNumSamples sequence))
    (seq a (p1 - a)) (arrays, false).

(** The cursors after the durable store wrote [len] columns at [p0]. *)
Definition store (arrays : Arrays) (p0 len : nat) (out : Arrays) : Arrays :=
  {| a_min := blit (a_min arrays) p0 (take len (a_min out));
     a_max := blit (a_max arrays) p0 (take len (a_max out));
     a_rms := blit (a_rms arrays) p0 (take len (a_rms out)) |}.

(** [if (p1 > p0) { ... }]: the result, the cursors and the calls made. *)
Definition fetch (clip : WaveClip) (channel : nat) (where_ : list sampleCount)
    (arrays : Arrays) (p0 p1 : nat) : bool * Arrays * list (nat * nat) :=
  if p0 <? p1 then
    let sequence := GetSequence clip channel in
    let numSamples := GetNumSamples sequence in
    let a := firstBeyond where_ numSamples p0 p1 in
    let '(arrays, p1) :=
      if a <? p1 then
        let '(arrays', didUpdate) := appendPass clip channel where_ arrays a p1 in
        (arrays', if didUpdate then a else p1)
      else (arrays, p1) in
    if p0 <? p1 then
      let '(good, out) :=
        SequenceGetWaveDisplay sequence (p1 - p0) (drop p0 where_) in
      (good, store arrays p0 (p1 - p0) out, [(p0, p1 - p0)])
    else (true, arrays, [])
  else (true, arrays, []).

(** *** Lines 93-167: consulting the cache *)

(** [ppsMatch]: the accumulated difference of times over the number of
    pixels is less than a sample period. *)
Definition ppsMatch (waveCache : option WaveCache.t) (tstep : double)
    (numPixels : nat) (rate : Z) : bool :=
  match waveCache with
  | Some c =>
      Double.ltb
        (Double.mul
           (Double.abs (Double.sub tstep (Double.div Double.one (WaveCache.pps c))))
           (Double.of_nat numPixels))
        (Double.div Double.one (Double.of_Z rate))
  | None => false
  end.

(** [match] *)
Definition match_ (waveCache : option WaveCache.t) (tstep : double)
    (numPixels : nat) (rate : Z) (mDirty_ : Z) : bool :=
  match waveCache with
  | Some c =>
      ppsMatch waveCache tstep numPixels rate
      && (0 <? WaveCache.len c)
      && (WaveCache.dirty c =? mDirty_)%Z
  | None => false
  end.

(** The condition of [if (match && waveCache->start == t0 &&
    waveCache->len >= numPixels)]. *)
Definition exactHit (waveCache : option WaveCache.t) (tstep : double)
    (numPixels : nat) (rate : Z) (mDirty_ : Z) (t0 : double) : bool :=
  match waveCache with
  | Some c =>
      match_ waveCache tstep numPixels rate mDirty_
      && Double.eqb (WaveCache.start c) t0
      && (numPixels <=? WaveCache.len c)
  | None => false
  end.

(** What is kept of the old entry: [oldCache] after [oldCache.reset(0)],
    [oldX0], [correction], [copyBegin] and [copyEnd]. *)
Record Reuse := {
  oldCache : option WaveCache.t;
  oldX0 : Z;                   (* int *)
  correction : double;
  copyBegin : nat;
  copyEnd : nat
}.

Definition reuse (waveCache : option WaveCache.t) (matched : bool)
    (numPixels : nat) (t0 : double) (rate : Z) (samplesPerPixel : double) : Reuse :=
  let '(x0, corr, cBegin, cEnd) :=
    match waveCache, matched with
    | Some old, true =>
        let '(x0, corr) :=
          findCorrection (WaveCache.where_ old) (WaveCache.len old) numPixels
            t0 (Double.of_Z rate) samplesPerPixel in
        (x0, corr,
         Nat.min numPixels (Z.to_nat (Z.max 0 (int32 (- x0)))),
         Nat.min numPixels
           (Z.to_nat (Z.max 0 (int32 (int32 (Z.of_nat (WaveCache.len old)) - x0)))))
    | _, _ => (0%Z, Double.zero, 0, 0)
    end in
  {| oldCache := if cBegin <? cEnd then waveCache else None;
     oldX0 := x0; correction := corr; copyBegin := cBegin; copyEnd := cEnd |}.

(** The range of pixels we must fetch from the Sequence: [(p0, p1)]. *)
Definition recomputeRange (cBegin cEnd numPixels : nat) : nat * nat :=
  (if 0 <? cBegin then 0 else cEnd,
   if numPixels <=? cEnd then cBegin else numPixels).

(** Copy what we can from the old cache. *)
Definition copyOld (r : Reuse) (arrays : Arrays) : Arrays :=
  match oldCache r with
  | Some old =>
      let length := copyEnd r - copyBegin r in
      let srcIdx := Z.to_nat (int32 (int32 (Z.of_nat (copyBegin r)) + oldX0 r)) in
      {| a_min := memcpy (a_min arrays) (copyBegin r) (WaveCache.min old) srcIdx length;
         a_max := memcpy (a_max arrays) (copyBegin r) (WaveCache.max old) srcIdx length;
         a_rms := memcpy (a_rms arrays) (copyBegin r) (WaveCache.rms old) srcIdx length |}
  | None => arrays
  end.

Definition arraysOf (c : WaveCache.t) : Arrays :=
  {| a_min := WaveCache.min c; a_max := WaveCache.max c; a_rms := WaveCache.rms c |}.

(** The entry made by [std::make_unique<WaveCache>(...)] after [fillWhere]. *)
Definition newEntry (numPixels : nat) (pixelsPerSecond : double) (rate : Z)
    (t0 : double) (mDirty_ : Z) (corr samplesPerPixel : double) : WaveCache.t :=
  let c := WaveCache.make numPixels pixelsPerSecond rate t0 mDirty_ in
  WaveCache.with_where c
    (fillWhere (WaveCache.where_ c) numPixels Double.zero corr t0
       (Double.of_Z rate) samplesPerPixel).

(** [std::unique_ptr<WaveCache> oldCache(std::move(waveCache));]: the entry
    pointer of the channel is null from here on. *)
Definition release (self : WaveClipWaveformCache) (channel : nat)
  : WaveClipWaveformCache :=
  {| mWaveCaches := <[channel := None]> (mWaveCaches self);
     mDirty := mDirty self |}.

(** Whether [std::make_unique<WaveCache>(numPixels, ...)] builds the entry:
    its vectors must fit and the free store must have the memory. *)
Definition constructs (numPixels : nat) : bool :=
  WaveCache.fits numPixels && hasMemory numPixels.

(** [waveCache = std::make_unique<WaveCache>(...)] *)
Definition install (self : WaveClipWaveformCache) (channel : nat)
    (c : WaveCache.t) : WaveClipWaveformCache :=
  {| mWaveCaches := <[channel := Some c]> (mWaveCaches self);
     mDirty := mDirty self |}.

(** Now report the results. *)
Definition report (d : WaveDisplay.t) (channel : nat) : WaveDisplay.t :=
  {| WaveDisplay.width := WaveDisplay.width d;
     WaveDisplay.where_ := toCache channel;
     WaveDisplay.min := toCache channel;
     WaveDisplay.max := toCache channel;
     WaveDisplay.rms := toCache channel;
     WaveDisplay.ownWhere := WaveDisplay.ownWhere d;
     WaveDisplay.ownMin := WaveDisplay.ownMin d;
     WaveDisplay.ownMax := WaveDisplay.ownMax d;
     WaveDisplay.ownRms := WaveDisplay.ownRms d |}.

Definition ownArrays (d : WaveDisplay.t) : Arrays :=
  {| a_min := WaveDisplay.ownMin d; a_max := WaveDisplay.ownMax d;
     a_rms := WaveDisplay.ownRms d |}.

Definition withOwn (d : WaveDisplay.t) (arrays : Arrays) : WaveDisplay.t :=
  {| WaveDisplay.width := WaveDisplay.width d;
     WaveDisplay.where_ := WaveDisplay.where_ d;
     WaveDisplay.min := WaveDisplay.min d;
     WaveDisplay.max := WaveDisplay.max d;
     WaveDisplay.rms := WaveDisplay.rms d;
     WaveDisplay.ownWhere := WaveDisplay.ownWhere d;
     WaveDisplay.ownMin := a_min arrays;
     WaveDisplay.ownMax := a_max arrays;
     WaveDisplay.ownRms := a_rms arrays |}.

(** *** Lines 123-167 and what follows them: the entry is replaced

    What the call does once the old entry [waveCache] was moved out of the
    cache, when the new entry is built.  [t0] is the request time after
    [t0 += clip.GetTrimLeft()]. *)
Definition replaceEntry (self : WaveClipWaveformCache) (clip : WaveClip)
    (channel : nat) (display_ : WaveDisplay.t) (t0 pixelsPerSecond : double)
    (waveCache : option WaveCache.t) : Outcome :=
  let numPixels := numPixelsOf display_ in
  let tstep := Double.div Double.one pixelsPerSecond in
  let rate := GetRate clip in
  let samplesPerPixel := Double.mul (Double.of_Z rate) tstep in
  let matched := match_ waveCache tstep numPixels rate (mDirty self) in
  let r := reuse waveCache matched numPixels t0 rate samplesPerPixel in
  let entry :=
    newEntry numPixels pixelsPerSecond rate t0 (mDirty self) (correction r)
      samplesPerPixel in
  let '(p0, p1) := recomputeRange (copyBegin r) (copyEnd r) numPixels in
  let arrays := copyOld r (arraysOf entry) in
  let '(good, arrays, called) :=
    fetch clip channel (WaveCache.where_ entry) arrays p0 p1 in
  let entry :=
    WaveCache.with_arrays entry (a_min arrays) (a_max arrays) (a_rms arrays) in
  {| ok := good; cache := install self channel entry;
     display := if good then report display_ channel else display_;
     calls := called |}.

(** *** The whole function

    No result ([None]) stands for the two uses the C++ leaves undefined:
    a channel that [mWaveCaches] does not have, and an allocated display
    with a column to fill ([p1 > p0]) whose [min], [max], [rms] do not
    point into its own vectors.  With no column to fill the three pointers
    are not used. *)
Definition GetWaveDisplay (self : WaveClipWaveformCache) (clip : WaveClip)
    (channel : nat) (display_ : WaveDisplay.t) (t0 pixelsPerSecond : double)
  : option Exit :=
  waveCache ← mWaveCaches self !! channel;
  let t0 := Double.add t0 (GetTrimLeft clip) in
  let allocated := negb (ptr_is_null (WaveDisplay.where_ display_)) in
  let numPixels := numPixelsOf display_ in
  if allocated then
    (* assume ownWhere is filled. *)
    if (numPixels =? 0)
       || ptr_is_own (WaveDisplay.min display_)
          && ptr_is_own (WaveDisplay.max display_)
          && ptr_is_own (WaveDisplay.rms display_)
    then
      let '(good, arrays, called) :=
        fetch clip channel (WaveDisplay.ownWhere display_) (ownArrays display_)
          0 numPixels in
      Some (Returns {| ok := good; cache := self;
                       display := withOwn display_ arrays; calls := called |})
    else None
  else
    let tstep := Double.div Double.one pixelsPerSecond in
    let rate := GetRate clip in
    if exactHit waveCache tstep numPixels rate (mDirty self) t0 then
      (* Satisfy the request completely from the cache *)
      Some (Returns {| ok := true; cache := self;
                       display := report display_ channel; calls := [] |})
    else
      let self := release self channel in
      if constructs numPixels then
        Some (Returns (replaceEntry self clip channel display_ t0
                         pixelsPerSecond waveCache))
      else Some (Throws self).

(** ** The other operations *)

(** [WaveClipWaveformCache(nChannels)]; [mDirty] starts at 0. *)
Definition construct (nChannels : nat) : WaveClipWaveformCache :=
  {| mWaveCaches := replicate nChannels (Some WaveCache.empty); mDirty := 0 |}.

(** [++mDirty] *)
Definition MarkChanged (self : WaveClipWaveformCache) : WaveClipWaveformCache :=
  {| mWaveCaches := mWaveCaches self; mDirty := int32 (mDirty self + 1) |}.

(** [for (auto &pCache : mWaveCaches) pCache = std::make_unique<WaveCache>();] *)
Definition Invalidate (self : WaveClipWaveformCache) : WaveClipWaveformCache :=
  {| mWaveCaches := (fun _ => Some WaveCache.empty) <$> mWaveCaches self;
     mDirty := mDirty self |}.
End GetWaveDisplay.

(** ** Reading the model

    Names for what the statements below speak of. *)

Section Views.
Context {env : Collaborators}.

(** Column [i] as the three cursors have it. *)
Definition column (arrays : Arrays) (i : nat)
  : option float * option float * option float :=
  (a_min arrays !! i, a_max arrays !! i, a_rms arrays !! i).

(** Column [i] of an entry of the cache. *)
Definition entryColumn (c : WaveCache.t) (i : nat)
  : option float * option float * option float :=
  column (arraysOf c) i.

(** A column once [(min, max, rms)] was written to it. *)
Definition written (v : float * float * float)
    (col : option float * option float * option float)
  : option float * option float * option float :=
  ((fun _ => v.1.1) <$> col.1.1, (fun _ => v.1.2) <$> col.1.2,
   (fun _ => v.2) <$> col.2).

(** The part of column [i] that lies in the append buffer is not empty:
    [right > left]. *)
Definition clipped (clip : WaveClip) (channel : nat) (where_ : list sampleCount)
    (i : nat) : bool :=
  let numSamples := GetNumSamples (GetSequence clip channel) in
  (clipRight where_ numSamples (GetAppendBufferLen clip) i
   >? clipLeft where_ numSamples i)%Z.

(** The number of samples of column [i] in the append buffer and the
    floats read for it. *)
Definition clippedLen (clip : WaveClip) (channel : nat)
    (where_ : list sampleCount) (i : nat) : nat :=
  let numSamples := GetNumSamples (GetSequence clip channel) in
  Z.to_nat (clipRight where_ numSamples (GetAppendBufferLen clip) i
            - clipLeft where_ numSamples i).

Definition clippedFloats (clip : WaveClip) (channel : nat)
    (where_ : list sampleCount) (i : nat) : list float :=
  let sequence := GetSequence clip channel in
  appendFloats (Stored sequence) (GetAppendBuffer clip channel)
    (Z.to_nat (clipLeft where_ (GetNumSamples sequence) i))
    (clippedLen clip channel where_ i).

(** The samples [pb[0]], ..., [pb[len - 1]] as the summary loop reads them,
    and those it reads for column [i]. *)
Definition readSamples (pb : list float) (len : nat) : list float :=
  at_f pb <$> seq 0 len.

Definition clippedSamples (clip : WaveClip) (channel : nat)
    (where_ : list sampleCount) (i : nat) : list float :=
  readSamples (clippedFloats clip channel where_ i)
    (clippedLen clip channel where_ i).

(** The summary of column [i] computed from the append buffer. *)
Definition appendSummary (clip : WaveClip) (channel : nat)
    (where_ : list sampleCount) (i : nat) : float * float * float :=
  summarize (clippedFloats clip channel where_ i)
    (clippedLen clip channel where_ i).

(** The first column of [p0, p1) that ends beyond the committed count
    ([a]), whether the append-buffer loop wrote a column ([didUpdate]),
    and the end of the range left to the durable store ([p1] after the
    loop). *)
Definition firstAppend (clip : WaveClip) (channel : nat)
    (where_ : list sampleCount) (p0 p1 : nat) : nat :=
  firstBeyond where_ (GetNumSamples (GetSequence clip channel)) p0 p1.

Definition didUpdate (clip : WaveClip) (channel : nat)
    (where_ : list sampleCount) (p0 p1 : nat) : bool :=
  let a := firstAppend clip channel where_ p0 p1 in
  existsb (clipped clip channel where_) (seq a (p1 - a)).

Definition storeEnd (clip : WaveClip) (channel : nat)
    (where_ : list sampleCount) (p0 p1 : nat) : nat :=
  if didUpdate clip channel where_ p0 p1
  then firstAppend clip channel where_ p0 p1 else p1.

(** Column [i] is covered by a call of the durable store's summarizer. *)
Definition covered (called : list (nat * nat)) (i : nat) : Prop :=
  exists p n, (p, n) ∈ called /\ p <= i < p + n.

(** The pointers of a display all point into the entry of [channel]. *)
Definition pointsToCache (d : WaveDisplay.t) (channel : nat) : Prop :=
  WaveDisplay.where_ d = toCache channel /\ WaveDisplay.min d = toCache channel /\
  WaveDisplay.max d = toCache channel /\ WaveDisplay.rms d = toCache channel.

(** The request time after [t0 += clip.GetTrimLeft()], [tstep] and
    [samplesPerPixel]. *)
Definition origin (clip : WaveClip) (t0 : double) : double :=
  Double.add t0 (GetTrimLeft clip).
Definition timePerPixel (pixelsPerSecond : double) : double :=
  Double.div Double.one pixelsPerSecond.
Definition samplesPerPixelOf (clip : WaveClip) (pixelsPerSecond : double) : double :=
  Double.mul (Double.of_Z (GetRate clip)) (timePerPixel pixelsPerSecond).

(** The accumulated drift of the zoom-match test and its threshold. *)
Definition drift (c : WaveCache.t) (pixelsPerSecond : double) (numPixels : nat)
  : double :=
  Double.mul
    (Double.abs (Double.sub (timePerPixel pixelsPerSecond)
                   (Double.div Double.one (WaveCache.pps c))))
    (Double.of_nat numPixels).
Definition samplePeriod (clip : WaveClip) : double :=
  Double.div Double.one (Double.of_Z (GetRate clip)).

(** The exit of a request that drops the entry of the channel: the
    exception when the new entry is not built, and the return of [o]
    when it is. *)
Definition rebuilt (self : WaveClipWaveformCache) (channel : nat)
    (display_ : WaveDisplay.t) (o : Outcome) : Exit :=
  if constructs (numPixelsOf display_) then Returns o
  else Throws (release self channel).

(** A full recompute: the old entry is dropped and, once the new entry is
    built (the call leaves by the exception if it is not), nothing is
    copied and every column of [0, numPixels) is fetched. *)
Definition fullRecompute (self : WaveClipWaveformCache) (clip : WaveClip)
    (channel : nat) (display_ : WaveDisplay.t) (t0 pixelsPerSecond : double)
  : Exit :=
  let numPixels := numPixelsOf display_ in
  let entry :=
    newEntry numPixels pixelsPerSecond (GetRate clip) (origin clip t0)
      (mDirty self) Double.zero (samplesPerPixelOf clip pixelsPerSecond) in
  let '(good, arrays, called) :=
    fetch clip channel (WaveCache.where_ entry) (arraysOf entry) 0 numPixels in
  rebuilt self channel display_
    {| ok := good;
       cache := install self channel
                  (WaveCache.with_arrays entry (a_min arrays) (a_max arrays)
                     (a_rms arrays));
       display := if good then report display_ channel else display_;
       calls := called |}.

(** What a request that replaces the entry [w] works with: what it keeps of
    [w], the [where] vector of the new entry, the value-initialised cursors
    and the recompute range [(p0, p1)]. *)
Definition requestReuse (self : WaveClipWaveformCache) (clip : WaveClip)
    (d : WaveDisplay.t) (t0 pixelsPerSecond : double) (w : option WaveCache.t)
  : Reuse :=
  reuse w
    (match_ w (timePerPixel pixelsPerSecond) (numPixelsOf d) (GetRate clip)
       (mDirty self))
    (numPixelsOf d) (origin clip t0) (GetRate clip)
    (samplesPerPixelOf clip pixelsPerSecond).

Definition requestWhere (self : WaveClipWaveformCache) (clip : WaveClip)
    (d : WaveDisplay.t) (t0 pixelsPerSecond : double) (w : option WaveCache.t)
  : list sampleCount :=
  WaveCache.where_
    (newEntry (numPixelsOf d) pixelsPerSecond (GetRate clip) (origin clip t0)
       (mDirty self) (correction (requestReuse self clip d t0 pixelsPerSecond w))
       (samplesPerPixelOf clip pixelsPerSecond)).

Definition zeroArrays (n : nat) : Arrays :=
  {| a_min := replicate n Float.zero; a_max := replicate n Float.zero;
     a_rms := replicate n Float.zero |}.

Definition requestRange (self : WaveClipWaveformCache) (clip : WaveClip)
    (d : WaveDisplay.t) (t0 pixelsPerSecond : double) (w : option WaveCache.t)
  : nat * nat :=
  let r := requestReuse self clip d t0 pixelsPerSecond w in
  recomputeRange (copyBegin r) (copyEnd r) (numPixelsOf d).

(** The same for any request, with or without caller buffers: the range
    of columns it computes (none on an exact hit), the boundaries it reads
    and, afterwards, a column of the arrays it filled. *)
Definition allocated (d : WaveDisplay.t) : bool :=
  negb (ptr_is_null (WaveDisplay.where_ d)).

Definition computedRange (self : WaveClipWaveformCache) (clip : WaveClip)
    (d : WaveDisplay.t) (t0 pixelsPerSecond : double) (w : option WaveCache.t)
  : nat * nat :=
  if allocated d then (0, numPixelsOf d)
  else if exactHit w (timePerPixel pixelsPerSecond) (numPixelsOf d)
            (GetRate clip) (mDirty self) (origin clip t0)
  then (0, 0)
  else requestRange self clip d t0 pixelsPerSecond w.

Definition computedWhere (self : WaveClipWaveformCache) (clip : WaveClip)
    (d : WaveDisplay.t) (t0 pixelsPerSecond : double) (w : option WaveCache.t)
  : list sampleCount :=
  if allocated d then WaveDisplay.ownWhere d
  else requestWhere self clip d t0 pixelsPerSecond w.

Definition computedColumn (o : Outcome) (d : WaveDisplay.t) (channel i : nat)
  : option float * option float * option float :=
  if allocated d then column (ownArrays (display o)) i
  else match mWaveCaches (cache o) !! channel with
       | Some (Some e) => entryColumn e i
       | _ => (None, None, None)
       end.

(** The caller's buffers hold a column for every pixel of the display. *)
Definition ownSized (d : WaveDisplay.t) : Prop :=
  numPixelsOf d <= length (WaveDisplay.ownMin d)
  /\ numPixelsOf d <= length (WaveDisplay.ownMax d)
  /\ numPixelsOf d <= length (WaveDisplay.ownRms d).

End Views.

(** The caches a manager of [nChannels] channels can hold: the constructed
    one, and what any operation leaves, whatever its arguments, its
    collaborators and the way it ends. *)
Inductive reachable (nChannels : nat) : WaveClipWaveformCache -> Prop :=
| reach_construct : reachable nChannels (construct nChannels)
| reach_MarkChanged self :
    reachable nChannels self -> reachable nChannels (MarkChanged self)
| reach_Invalidate self :
    reachable nChannels self -> reachable nChannels (Invalidate self)
| reach_GetWaveDisplay (env : Collaborators) self clip channel display_ t0
    pixelsPerSecond x :
    reachable nChannels self ->
    GetWaveDisplay self clip channel display_ t0 pixelsPerSecond = Some x ->
    reachable nChannels (cacheAfter x).

(** The same when every call of [GetWaveDisplay] returned. *)
Inductive returned (nChannels : nat) : WaveClipWaveformCache -> Prop :=
| ret_construct : returned nChannels (construct nChannels)
| ret_MarkChanged self :
    returned nChannels self -> returned nChannels (MarkChanged self)
| ret_Invalidate self :
    returned nChannels self -> returned nChannels (Invalidate self)
| ret_GetWaveDisplay (env : Collaborators) self clip channel display_ t0
    pixelsPerSecond o :
    returned nChannels self ->
    GetWaveDisplay self clip channel display_ t0 pixelsPerSecond
    = Some (Returns o) ->
    returned nChannels (cache o).

(** ** What a summary should be *)

Definition notNaN (x : spec_float) : Prop := x <> S754_nan.

Definition isNaN (x : spec_float) : bool :=
  match x with S754_nan => true | _ => false end.

(** The samples that are numbers. *)
Definition numbers (samples : list float) : list float :=
  List.filter (fun x => negb (isNaN x)) samples.

(** [m] is the least, the greatest, of the samples. *)
Definition isMinimum (m : float) (samples : list float) : Prop :=
  m ∈ samples /\ forall x, x ∈ samples -> Float.leb m x = true.

Definition isMaximum (m : float) (samples : list float) : Prop :=
  m ∈ samples /\ forall x, x ∈ samples -> Float.leb x m = true.

(** The sum of the squares of the samples, added from the first on, in
    single precision. *)
Definition sumOfSquares (samples : list float) : float :=
  match samples with
  | [] => Float.zero
  | x :: rest =>
      fold_left (fun s v => Float.add s (Float.mul v v)) rest (Float.mul x x)
  end.

(** [sqrt(sum of squares / count)] *)
Definition rootMeanSquare (samples : list float) : float :=
  Float.sqrt (Float.div (sumOfSquares samples) (Float.of_nat (length samples))).

(** The step of the summary loop on a sample rather than on its index. *)
Definition accumulateSample (acc : float * float * float) (val : float)
  : float * float * float :=
  (Float.max acc.1.1 val, Float.min acc.1.2 val,
   Float.add acc.2 (Float.mul val val)).

(** [x] is a number and is not below zero. *)
Definition nonnegative (x : spec_float) : Prop := SFleb (S754_zero false) x = true.

(** [x] is finite and above zero. *)
Definition finitePositive (x : spec_float) : Prop :=
  exists m e, x = S754_finite false m e.

(** ** A concrete set of collaborators

    Used to run the model on explicit requests. *)

Module Demo.
(** [floor] of a [double] as an integer (0 where it has none). *)
Definition floor (x : double) : Z :=
  match x with
  | S754_finite s m e =>
      let v := if s then Z.neg m else Z.pos m in
      if (0 <=? e)%Z then (v * 2 ^ e)%Z else Z.shiftr v (- e)
  | _ => 0%Z
  end.

Definition half : double := Eval cbv in Double.div Double.one (Double.of_Z 2).

Definition round (x : double) : Z := floor (Double.add x half).

(** A durable store: its committed length, its stored format, whether
    summarizing succeeds, and the summary it gives every column. *)
Record Store := {
  numSamples : Z;
  format : sampleFormat;
  healthy : bool;
  level : float * float * float
}.

Definition summarizeStore (s : Store) (len : nat) (where_ : list Z) : bool * Arrays :=
  (healthy s,
   {| a_min := replicate len (level s).1.1;
      a_max := replicate len (level s).1.2;
      a_rms := replicate len (level s).2 |}).

(** Modelled from the spec: CorrectionSolver (findCorrection of
    WaveClipUtilities, which is not part of WaveformCache.cpp).  The pixel offset is
    the difference of the two origins in samples divided by
    samples-per-pixel, rounded; the correction is the residual in pixel
    units. *)
Definition CorrectionSolver (oldWhere : list Z) (oldLen newLen : nat)
    (t0 rate samplesPerPixel : double) : Z * double :=
  let q := Double.div (Double.sub (Double.mul t0 rate)
                         (Double.of_Z (at_Z oldWhere 0))) samplesPerPixel in
  let x0 := round q in
  (x0, Double.sub q (Double.of_Z x0)).

(** Modelled from the spec: GridBuilder (fillWhere of WaveClipUtilities,
    which is not part of WaveformCache.cpp).  [boundaries[i]] is
    [round((timeOrigin - correction * samplesPerPixel) + i * samplesPerPixel)]
    in sample units, never negative. *)
Definition GridBuilder (where_ : list Z) (len : nat)
    (bias corr t0 rate samplesPerPixel : double) : list Z :=
  let w0 := Double.sub (Double.mul t0 rate) (Double.mul corr samplesPerPixel) in
  (fun i => Z.max 0 (round (Double.add w0
                              (Double.mul (Double.of_nat i) samplesPerPixel))))
    <$> seq 0 (1 + len).

#[export] Instance collaborators : Collaborators := {|
  Sequence := Store;
  GetNumSamples := numSamples;
  Stored := format;
  SequenceGetWaveDisplay := summarizeStore;
  rawSample := float;
  asFloat := fun x => x;
  SamplesToFloats := fun _ src len => take len src;
  findCorrection := CorrectionSolver;
  fillWhere := GridBuilder;
  hasMemory := fun _ => true
|}.

(** Floats written as [m * 2^e]. *)
Definition f32 (m e : Z) : float := binary_normalize Float.prec Float.emax m e false.
Definition f64 (m e : Z) : double := binary_normalize Double.prec Double.emax m e false.

Definition store0 : Store :=
  {| numSamples := 50000; format := floatSample; healthy := true;
     level := (f32 (-1) (-1), f32 1 (-1), f32 1 (-2)) |}.

Definition clip0 : WaveClip :=
  {| GetTrimLeft := Double.zero; GetRate := 44100;
     GetSequence := fun _ => store0;
     GetAppendBufferLen := 0; GetAppendBuffer := fun _ => [] |}.

(** The cache of one channel after a first request of 4 columns at time 0
    and 100 pixels per second. *)
Definition filled : WaveClipWaveformCache := Eval vm_compute in
    default (construct 1)
      (cacheAfter <$> GetWaveDisplay (construct 1) clip0 0 (WaveDisplay.fresh 4)
                        Double.zero (Double.of_Z 100)).

(** What that first request returned. *)
Definition firstOutcome : Outcome := Eval vm_compute in
    default {| ok := false; cache := construct 1; display := WaveDisplay.fresh 4;
               calls := [] |}
      (GetWaveDisplay (construct 1) clip0 0 (WaveDisplay.fresh 4) Double.zero
         (Double.of_Z 100) ≫= outcomeOf).

(** The same clip when its durable store cannot summarize. *)
Definition brokenClip : WaveClip :=
  {| GetTrimLeft := Double.zero; GetRate := 44100;
     GetSequence := fun _ =>
       {| numSamples := 50000; format := floatSample; healthy := false;
          level := (Float.zero, Float.zero, Float.zero) |};
     GetAppendBufferLen := 0; GetAppendBuffer := fun _ => [] |}.

(** The entry that [filled] holds for channel 0. *)
Definition entry0 : WaveCache.t := Eval vm_compute in
  default WaveCache.empty (mjoin (mWaveCaches filled !! 0)).

(** A time a little after 0: 1/64 s. *)
Definition later : double := Eval vm_compute in f64 1 (-6).

(** A request of 4 columns at [later] on [filled] when the store fails. *)
Definition failed : Outcome := Eval vm_compute in
    default {| ok := true; cache := filled; display := WaveDisplay.fresh 4;
               calls := [] |}
      (GetWaveDisplay filled brokenClip 0 (WaveDisplay.fresh 4) later
         (Double.of_Z 100) ≫= outcomeOf).

(** A clip being recorded at 800 samples per second: 10 samples are
    committed, 20 more samples, all 1/8, are in the append buffer. *)
Definition eighth : float := Eval vm_compute in f32 1 (-3).

Definition recording : WaveClip :=
  {| GetTrimLeft := Double.zero; GetRate := 800;
     GetSequence := fun _ =>
       {| numSamples := 10; format := floatSample; healthy := true;
          level := (f32 (-1) (-1), f32 1 (-1), f32 1 (-2)) |};
     GetAppendBufferLen := 20; GetAppendBuffer := fun _ => replicate 20 eighth |}.

(** The boundaries of two columns at time 0, 100 pixels per second and 800
    samples per second, and the fill loop of [recording] on them. *)
Definition grid : list Z := [0; 8; 16]%Z.

Definition recorded : bool * Arrays * list (nat * nat) := Eval vm_compute in
  fetch recording 0 grid (zeroArrays 2) 0 2.

(** A clip of 4 committed samples and an empty append buffer. *)
Definition short : WaveClip :=
  {| GetTrimLeft := Double.zero; GetRate := 800;
     GetSequence := fun _ =>
       {| numSamples := 4; format := floatSample; healthy := true;
          level := (f32 (-1) (-1), f32 1 (-1), f32 1 (-2)) |};
     GetAppendBufferLen := 0; GetAppendBuffer := fun _ => [] |}.

(** The clip of [filled] with a louder durable store, and a request two
    pixels later than the one that made [filled]. *)
Definition louder : WaveClip :=
  {| GetTrimLeft := Double.zero; GetRate := 44100;
     GetSequence := fun _ =>
       {| numSamples := 50000; format := floatSample; healthy := true;
          level := (f32 (-1) 0, f32 1 0, f32 1 (-1)) |};
     GetAppendBufferLen := 0; GetAppendBuffer := fun _ => [] |}.

Definition twoPixels : double := Eval vm_compute in
  Double.div (Double.of_Z 2) (Double.of_Z 100).

(** The request of two columns at time 0 on [recording], from an empty
    cache. *)
Definition appended : Outcome := Eval vm_compute in
  default {| ok := false; cache := construct 1; display := WaveDisplay.fresh 2;
             calls := [] |}
    (GetWaveDisplay (construct 1) recording 0 (WaveDisplay.fresh 2) Double.zero
       (Double.of_Z 100) ≫= outcomeOf).

(** A display of two columns after [Allocate], with room for a third
    column in its buffers, its boundaries filled as [grid]. *)
Definition owned : WaveDisplay.t :=
  {| WaveDisplay.width := 2;
     WaveDisplay.where_ := toOwn; WaveDisplay.min := toOwn;
     WaveDisplay.max := toOwn; WaveDisplay.rms := toOwn;
     WaveDisplay.ownWhere := grid;
     WaveDisplay.ownMin := replicate 3 eighth;
     WaveDisplay.ownMax := replicate 3 eighth;
     WaveDisplay.ownRms := replicate 3 eighth |}.

(** The request of [owned] on [recording], with [filled] as the cache. *)
Definition ownedOutcome : Outcome := Eval vm_compute in
  default {| ok := false; cache := filled; display := owned; calls := [] |}
    (GetWaveDisplay filled recording 0 owned Double.zero (Double.of_Z 100)
     ≫= outcomeOf).

(** Four columns [0, 8), [8, 16), [16, 40) and [40, 50): the last one lies
    beyond the 20 samples of the append buffer of [recording]; and the fill
    loop of [recording] on them. *)
Definition longGrid : list Z := [0; 8; 16; 40; 50]%Z.

Definition holed : bool * Arrays * list (nat * nat) := Eval vm_compute in
  fetch recording 0 longGrid (zeroArrays 4) 0 4.

(** The cache after a first request of 4 columns at [twoPixels], and the
    entry it holds. *)
Definition shifted : WaveClipWaveformCache := Eval vm_compute in
  default (construct 1)
    (cacheAfter <$> GetWaveDisplay (construct 1) clip0 0 (WaveDisplay.fresh 4)
                      twoPixels (Double.of_Z 100)).

Definition entry2 : WaveCache.t := Eval vm_compute in
  default WaveCache.empty (mjoin (mWaveCaches shifted !! 0)).

(** Three samples: 1/2, -3/4 and 1/8. *)
Definition samples3 : list float := Eval vm_compute in
  [f32 1 (-1); f32 (-3) (-2); f32 1 (-3)].

(** A clip being recorded with 8 committed samples and 20 samples in its
    append buffer, the first of which is not a number; and the same clip
    with the first two samples of the buffer exchanged. *)
Definition noisySamples : list float := Eval vm_compute in
  S754_nan :: f32 1 (-1) :: f32 (-3) (-2) :: replicate 17 eighth.

Definition exchangedSamples : list float := Eval vm_compute in
  f32 1 (-1) :: S754_nan :: f32 (-3) (-2) :: replicate 17 eighth.

Definition recordingOf (buffer : list float) : WaveClip :=
  {| GetTrimLeft := Double.zero; GetRate := 800;
     GetSequence := fun _ =>
       {| numSamples := 8; format := floatSample; healthy := true;
          level := (f32 (-1) (-1), f32 1 (-1), f32 1 (-2)) |};
     GetAppendBufferLen := 20; GetAppendBuffer := fun _ => buffer |}.

Definition noisy : WaveClip := recordingOf noisySamples.
Definition exchanged : WaveClip := recordingOf exchangedSamples.

(** A display of width 0 after [Allocate]: [where] points to the one
    boundary of [ownWhere], and [min], [max] and [rms] are null. *)
Definition allocatedEmpty : WaveDisplay.t :=
  {| WaveDisplay.width := 0;
     WaveDisplay.where_ := toOwn; WaveDisplay.min := nullptr;
     WaveDisplay.max := nullptr; WaveDisplay.rms := nullptr;
     WaveDisplay.ownWhere := [0%Z];
     WaveDisplay.ownMin := []; WaveDisplay.ownMax := []; WaveDisplay.ownRms := [] |}.
End Demo.

(** * Properties *)

(** ** Integers and vectors *)

Lemma int32_small (z : Z) : (- 2 ^ 31 <= z < 2 ^ 31)%Z -> int32 z = z.
Proof. intros Hz. unfold int32. rewrite Z.mod_small; lia. Qed.

Lemma int32_succ_neq (z : Z) : int32 (z + 1) <> z.
Proof.
  unfold int32. intros Heq.
  assert (Hm : ((z + 1 + 2 ^ 31) mod 2 ^ 32 = z + 2 ^ 31)%Z) by lia.
  pose proof (Z.div_mod (z + 1 + 2 ^ 31) (2 ^ 32) ltac:(lia)) as Hd.
  rewrite Hm in Hd. lia.
Qed.

Lemma at_f_lookup (v : list float) (i : nat) (x : float) :
  v !! i = Some x -> at_f v i = x.
Proof. intros Hx. unfold at_f. rewrite nth_lookup, Hx. reflexivity. Qed.

Lemma length_blit {A} (src dst : list A) (pos : nat) :
  length (blit dst pos src) = length dst.
Proof.
  revert dst pos. induction src as [|x src IH]; intros dst pos; simpl.
  - reflexivity.
  - rewrite IH. apply length_insert.
Qed.

Lemma blit_lookup_outside {A} (src dst : list A) (pos i : nat) :
  i < pos \/ pos + length src <= i -> blit dst pos src !! i = dst !! i.
Proof.
  revert dst pos. induction src as [|x src IH]; intros dst pos Hi; simpl.
  - reflexivity.
  - rewrite IH by (simpl in Hi; lia).
    apply list_lookup_insert_ne. simpl in Hi. lia.
Qed.

Lemma blit_lookup_inside {A} (src dst : list A) (pos i : nat) :
  pos <= i < pos + length src -> i < length dst ->
  blit dst pos src !! i = src !! (i - pos).
Proof.
  revert dst pos. induction src as [|x src IH]; intros dst pos Hi Hlen; simpl in *.
  - lia.
  - destruct (decide (i = pos)) as [->|Hne].
    + rewrite blit_lookup_outside by lia.
      rewrite Nat.sub_diag. simpl. apply list_lookup_insert_eq. exact Hlen.
    + rewrite IH by (rewrite ?length_insert; lia).
      replace (i - pos) with (S (i - S pos)) by lia. reflexivity.
Qed.

Lemma memcpy_lookup_inside {A} (dst src : list A) (dstIdx srcIdx n i : nat) :
  dstIdx <= i < dstIdx + n -> i < length dst -> srcIdx + n <= length src ->
  memcpy dst dstIdx src srcIdx n !! i = src !! (srcIdx + (i - dstIdx)).
Proof.
  intros Hi Hdst Hsrc. unfold memcpy.
  assert (Hl : length (take n (drop srcIdx src)) = n).
  { rewrite length_take, length_drop. lia. }
  rewrite blit_lookup_inside by (rewrite ?Hl; lia).
  rewrite lookup_take_lt by lia. apply lookup_drop.
Qed.

Lemma length_memcpy {A} (dst src : list A) (dstIdx srcIdx n : nat) :
  length (memcpy dst dstIdx src srcIdx n) = length dst.
Proof. apply length_blit. Qed.

(** ** The fill loop *)

Section Fetch.
Context {env : Collaborators}.

Lemma scanBeyond_range where_ ns steps a :
  a <= scanBeyond where_ ns steps a <= a + steps.
Proof.
  revert a. induction steps as [|steps IH]; intros a; simpl; [lia|].
  destruct (at_Z where_ (a + 1) >? ns)%Z; [lia|].
  specialize (IH (S a)). lia.
Qed.

Lemma scanBeyond_before where_ ns steps a i :
  a <= i < scanBeyond where_ ns steps a -> (at_Z where_ (i + 1) <= ns)%Z.
Proof.
  revert a. induction steps as [|steps IH]; intros a Hi; simpl in Hi; [lia|].
  destruct (at_Z where_ (a + 1) >? ns)%Z eqn:Hgt; [lia|].
  destruct (decide (i = a)) as [->|Hne]; [lia|].
  apply (IH (S a)). lia.
Qed.

Lemma scanBeyond_stop where_ ns steps a :
  scanBeyond where_ ns steps a < a + steps ->
  (at_Z where_ (scanBeyond where_ ns steps a + 1) > ns)%Z.
Proof.
  revert a. induction steps as [|steps IH]; intros a Hlt; simpl in *; [lia|].
  destruct (at_Z where_ (a + 1) >? ns)%Z eqn:Hgt; [lia|].
  apply IH. lia.
Qed.

Lemma firstBeyond_range where_ ns p0 p1 :
  p0 <= p1 -> p0 <= firstBeyond where_ ns p0 p1 <= p1.
Proof.
  intros Hp. unfold firstBeyond.
  pose proof (scanBeyond_range where_ ns (p1 - p0) p0). lia.
Qed.

Lemma firstBeyond_before where_ ns p0 p1 i :
  p0 <= i < firstBeyond where_ ns p0 p1 -> (at_Z where_ (i + 1) <= ns)%Z.
Proof. apply scanBeyond_before. Qed.

Lemma firstBeyond_stop where_ ns p0 p1 :
  firstBeyond where_ ns p0 p1 < p1 ->
  (at_Z where_ (firstBeyond where_ ns p0 p1 + 1) > ns)%Z.
Proof.
  intros Hlt. unfold firstBeyond in *. apply scanBeyond_stop.
  pose proof (scanBeyond_range where_ ns (p1 - p0) p0). lia.
Qed.

(** A column with samples in the append buffer ends beyond the committed
    count. *)
Lemma clipped_beyond clip channel where_ i :
  clipped clip channel where_ i = true ->
  (at_Z where_ (i + 1) > GetNumSamples (GetSequence clip channel))%Z.
Proof. unfold clipped, clipRight, clipLeft. lia. Qed.

Lemma clipped_after_firstBeyond clip channel where_ p0 p1 i :
  p0 <= i < p1 -> clipped clip channel where_ i = true ->
  firstBeyond where_ (GetNumSamples (GetSequence clip channel)) p0 p1 <= i.
Proof.
  intros Hi Hc. apply clipped_beyond in Hc.
  destruct (decide (firstBeyond where_ (GetNumSamples (GetSequence clip channel))
                      p0 p1 <= i)) as [|Hn]; [assumption|].
  pose proof (firstBeyond_before where_
                (GetNumSamples (GetSequence clip channel)) p0 p1 i). lia.
Qed.

Lemma insert_lookup_written {A} (l : list A) (i : nat) (x : A) :
  <[i := x]> l !! i = (fun _ => x) <$> l !! i.
Proof.
  destruct (decide (i < length l)) as [Hlt|Hge].
  - rewrite list_lookup_insert_eq by assumption.
    destruct (lookup_lt_is_Some_2 l i Hlt) as [y ->]. reflexivity.
  - rewrite list_insert_ge by lia.
    rewrite (lookup_ge_None_2 l i) by lia. reflexivity.
Qed.

(** One column of the append-buffer loop. *)
Lemma appendColumn_spec clip channel where_ st j :
  let sequence := GetSequence clip channel in
  let st' :=
    appendColumn (Stored sequence) (GetAppendBuffer clip channel)
      (GetAppendBufferLen clip) where_ (GetNumSamples sequence) st j in
  st'.2 = st.2 || clipped clip channel where_ j
  /\ (length (a_min st'.1) = length (a_min st.1)
      /\ length (a_max st'.1) = length (a_max st.1)
      /\ length (a_rms st'.1) = length (a_rms st.1))
  /\ forall i,
      column st'.1 i =
      if clipped clip channel where_ j && bool_decide (i = j)
      then written (appendSummary clip channel where_ j) (column st.1 i)
      else column st.1 i.
Proof.
  intros sequence st'. subst st'. unfold appendColumn.
  fold sequence.
  change (clipRight where_ (GetNumSamples sequence) (GetAppendBufferLen clip) j
          >? clipLeft where_ (GetNumSamples sequence) j)%Z
    with (clipped clip channel where_ j).
  destruct (clipped clip channel where_ j) eqn:Hc.
  - change (summarize _ _) with (appendSummary clip channel where_ j).
    destruct (appendSummary clip channel where_ j) as [[mn mx] rm] eqn:Hs.
    simpl. split; [symmetry; apply orb_true_r|]. split.
    { rewrite !length_insert. auto. }
    intros i. unfold column, written. simpl.
    case_bool_decide as Hi.
    + subst i. rewrite !insert_lookup_written. reflexivity.
    + rewrite !list_lookup_insert_ne by congruence. reflexivity.
  - simpl. split; [symmetry; apply orb_false_r|]. split; [auto|]. reflexivity.
Qed.

(** The whole loop [for (auto i = a; i < p1; i++)]: every column with
    samples in the append buffer is written, no other is, and [didUpdate]
    tells whether there was one. *)
Lemma appendColumns_spec clip channel where_ n : forall a st,
  let sequence := GetSequence clip channel in
  let st' :=
    fold_left
      (appendColumn (Stored sequence) (GetAppendBuffer clip channel)
         (GetAppendBufferLen clip) where_ (GetNumSamples sequence))
      (seq a n) st in
  st'.2 = st.2 || existsb (clipped clip channel where_) (seq a n)
  /\ (length (a_min st'.1) = length (a_min st.1)
      /\ length (a_max st'.1) = length (a_max st.1)
      /\ length (a_rms st'.1) = length (a_rms st.1))
  /\ forall i,
      column st'.1 i =
      if bool_decide (a <= i < a + n) && clipped clip channel where_ i
      then written (appendSummary clip channel where_ i) (column st.1 i)
      else column st.1 i.
Proof.
  induction n as [|n IH]; intros a st sequence st'; subst st'.
  - simpl. split; [symmetry; apply orb_false_r|]. split; [auto|].
    intros i. case_bool_decide; [lia|reflexivity].
  - simpl seq. simpl fold_left. fold sequence.
    destruct (appendColumn_spec clip channel where_ st a) as (Hu1 & Hl1 & Hc1).
    fold sequence in Hu1, Hl1, Hc1.
    set (st1 := appendColumn _ _ _ _ _ st a) in *.
    destruct (IH (S a) st1) as (Hu & Hl & Hc). fold sequence in Hu, Hl, Hc.
    split; [|split].
    + rewrite Hu, Hu1. simpl. rewrite orb_assoc. reflexivity.
    + destruct Hl as (-> & -> & ->). exact Hl1.
    + intros i. rewrite Hc, Hc1.
      destruct (decide (i = a)) as [->|Hne].
      * rewrite (bool_decide_eq_false_2 (S a <= a < S a + n)) by lia.
        rewrite (bool_decide_eq_true_2 (a <= a < a + S n)) by lia.
        rewrite (bool_decide_eq_true_2 (a = a)) by reflexivity.
        simpl. rewrite andb_true_r. reflexivity.
      * rewrite (bool_decide_eq_false_2 (i = a)) by assumption.
        rewrite andb_false_r.
        rewrite (bool_decide_ext (S a <= i < S a + n) (a <= i < a + S n)) by lia.
        reflexivity.
Qed.

Lemma appendPass_spec clip channel where_ arrays a p1 :
  let st' := appendPass clip channel where_ arrays a p1 in
  st'.2 = existsb (clipped clip channel where_) (seq a (p1 - a))
  /\ (length (a_min st'.1) = length (a_min arrays)
      /\ length (a_max st'.1) = length (a_max arrays)
      /\ length (a_rms st'.1) = length (a_rms arrays))
  /\ forall i,
      column st'.1 i =
      if bool_decide (a <= i < p1) && clipped clip channel where_ i
      then written (appendSummary clip channel where_ i) (column arrays i)
      else column arrays i.
Proof.
  intros st'. subst st'. unfold appendPass.
  destruct (appendColumns_spec clip channel where_ (p1 - a) a (arrays, false))
    as (Hu & Hl & Hc).
  split; [exact Hu|]. split; [exact Hl|].
  intros i. rewrite Hc. simpl.
  rewrite (bool_decide_ext (a <= i < a + (p1 - a)) (a <= i < p1)) by lia.
  reflexivity.
Qed.

Lemma store_length arrays p0 len out :
  length (a_min (store arrays p0 len out)) = length (a_min arrays)
  /\ length (a_max (store arrays p0 len out)) = length (a_max arrays)
  /\ length (a_rms (store arrays p0 len out)) = length (a_rms arrays).
Proof. unfold store; simpl. rewrite !length_blit. auto. Qed.

Lemma store_outside arrays p0 len out i :
  i < p0 \/ p0 + len <= i ->
  column (store arrays p0 len out) i = column arrays i.
Proof.
  intros Hi. unfold column, store; simpl.
  rewrite !blit_lookup_outside; [reflexivity| | |];
    rewrite length_take; lia.
Qed.

Lemma storeEnd_range clip channel where_ p0 p1 :
  p0 <= p1 -> p0 <= storeEnd clip channel where_ p0 p1 <= p1.
Proof.
  intros Hp. unfold storeEnd, firstAppend.
  pose proof (firstBeyond_range where_
                (GetNumSamples (GetSequence clip channel)) p0 p1 Hp).
  destruct (didUpdate clip channel where_ p0 p1); lia.
Qed.

(** The fill loop as a whole, for a range that is not empty: the durable
    store is called at most once, for [p0, storeEnd); outside that range
    a column is written exactly when it lies at or after [firstAppend]
    and has samples in the append buffer. *)
Lemma fetch_spec clip channel where_ arrays p0 p1 :
  p0 < p1 ->
  let a := firstAppend clip channel where_ p0 p1 in
  let e := storeEnd clip channel where_ p0 p1 in
  exists good arrays',
    fetch clip channel where_ arrays p0 p1
    = (good, arrays', if p0 <? e then [(p0, e - p0)] else [])
    /\ good = (if p0 <? e
              then (SequenceGetWaveDisplay (GetSequence clip channel) (e - p0)
                      (drop p0 where_)).1
              else true)
    /\ (length (a_min arrays') = length (a_min arrays)
        /\ length (a_max arrays') = length (a_max arrays)
        /\ length (a_rms arrays') = length (a_rms arrays))
    /\ forall i, i < p0 \/ e <= i ->
        column arrays' i =
        if bool_decide (a <= i < p1) && clipped clip channel where_ i
        then written (appendSummary clip channel where_ i) (column arrays i)
        else column arrays i.
Proof.
  intros Hp a e. unfold fetch.
  rewrite (proj2 (Nat.ltb_lt p0 p1) Hp).
  change (firstBeyond where_ (GetNumSamples (GetSequence clip channel)) p0 p1)
    with a.
  pose proof (appendPass_spec clip channel where_ arrays a p1) as (Hu & Hl & Hc).
  assert (Ha : p0 <= a <= p1).
  { apply firstBeyond_range. lia. }
  assert (He : e = if (appendPass clip channel where_ arrays a p1).2
                   then a else p1).
  { rewrite Hu. reflexivity. }
  destruct (a <? p1) eqn:Hap.
  - destruct (appendPass clip channel where_ arrays a p1) as [arr1 du] eqn:Hpass.
    simpl in Hu, Hl, Hc, He. rewrite <- He.
    destruct (p0 <? e) eqn:Hpe.
    + destruct (SequenceGetWaveDisplay (GetSequence clip channel) (e - p0)
                  (drop p0 where_)) as [good out] eqn:Hcall.
      exists good, (store arr1 p0 (e - p0) out).
      split; [reflexivity|]. split; [reflexivity|]. split.
      { pose proof (store_length arr1 p0 (e - p0) out) as (-> & -> & ->).
        exact Hl. }
      intros i Hi. apply Nat.ltb_lt in Hpe.
      rewrite store_outside by lia. apply Hc.
    + exists true, arr1.
      split; [reflexivity|]. split; [reflexivity|]. split; [exact Hl|].
      intros i _. apply Hc.
  - apply Nat.ltb_ge in Hap. assert (a = p1) by lia.
    assert (Hep : e = p1).
    { unfold e, storeEnd, didUpdate. fold a.
      replace (p1 - a) with 0 by lia. reflexivity. }
    rewrite Hep. rewrite (proj2 (Nat.ltb_lt p0 p1) Hp).
    destruct (SequenceGetWaveDisplay (GetSequence clip channel) (p1 - p0)
                (drop p0 where_)) as [good out] eqn:Hcall.
    exists good, (store arrays p0 (p1 - p0) out).
    split; [reflexivity|]. split; [reflexivity|]. split.
    { apply store_length. }
    intros i Hi. rewrite store_outside by lia.
    rewrite (bool_decide_eq_false_2 (a <= i < p1)) by lia. reflexivity.
Qed.

Lemma fetch_empty clip channel where_ arrays p0 p1 :
  p1 <= p0 -> fetch clip channel where_ arrays p0 p1 = (true, arrays, []).
Proof.
  intros Hp. unfold fetch. rewrite (proj2 (Nat.ltb_ge p0 p1) Hp). reflexivity.
Qed.

(** Whatever the range: lengths are kept, columns outside [p0, p1) are
    not touched, and a call of the durable store starts at [p0] and stays
    within [p1]. *)
Lemma fetch_frame clip channel where_ arrays p0 p1 good arrays' called :
  fetch clip channel where_ arrays p0 p1 = (good, arrays', called) ->
  (length (a_min arrays') = length (a_min arrays)
   /\ length (a_max arrays') = length (a_max arrays)
   /\ length (a_rms arrays') = length (a_rms arrays))
  /\ (forall i, i < p0 \/ p1 <= i -> column arrays' i = column arrays i)
  /\ (forall p n, (p, n) ∈ called -> p = p0 /\ 0 < n /\ p0 + n <= p1).
Proof.
  intros Hf. destruct (decide (p0 < p1)) as [Hp|Hp].
  - destruct (fetch_spec clip channel where_ arrays p0 p1 Hp)
      as (good1 & arr1 & Heq & _ & Hl & Hc).
    rewrite Heq in Hf. injection Hf as <- <- <-.
    pose proof (storeEnd_range clip channel where_ p0 p1 ltac:(lia)) as He.
    split; [exact Hl|]. split.
    + intros i Hi. rewrite Hc by lia.
      destruct (decide (p1 <= i)).
      * rewrite (bool_decide_eq_false_2 (_ <= i < p1)) by lia. reflexivity.
      * assert (i < p0) by lia.
        pose proof (firstBeyond_range where_
                      (GetNumSamples (GetSequence clip channel)) p0 p1
                      ltac:(lia)).
        unfold firstAppend.
        rewrite (bool_decide_eq_false_2 (_ <= i < p1)) by lia. reflexivity.
    + intros p n Hin.
      destruct (p0 <? storeEnd clip channel where_ p0 p1) eqn:Hlt.
      * apply Nat.ltb_lt in Hlt. apply list_elem_of_singleton in Hin.
        injection Hin as -> ->. lia.
      * inversion Hin.
  - rewrite fetch_empty in Hf by lia. injection Hf as <- <- <-.
    split; [auto|]. split; [reflexivity|].
    intros p n Hin. inversion Hin.
Qed.
End Fetch.

(** ** Requests *)

Section Requests.
Context {env : Collaborators}.

(** Installing an entry fills the pointer that moving the old entry out
    had left null. *)
Lemma install_release self channel e :
  install (release self channel) channel e = install self channel e.
Proof.
  unfold install, release. simpl. rewrite list_insert_insert_eq. reflexivity.
Qed.

Lemma replaceEntry_release self clip channel d t0 pps w :
  replaceEntry (release self channel) clip channel d t0 pps w
  = replaceEntry self clip channel d t0 pps w.
Proof.
  unfold replaceEntry. cbn [mDirty release].
  destruct (recomputeRange _ _ _) as [p0 p1].
  destruct (fetch _ _ _ _ _ _) as [[good arrays] called].
  rewrite install_release. reflexivity.
Qed.

Lemma rebuilt_constructs self channel d o :
  constructs (numPixelsOf d) = true -> rebuilt self channel d o = Returns o.
Proof. intros H. unfold rebuilt. rewrite H. reflexivity. Qed.

Lemma rebuilt_returns self channel d o' o :
  rebuilt self channel d o' = Returns o ->
  constructs (numPixelsOf d) = true /\ o' = o.
Proof.
  unfold rebuilt. destruct (constructs _); [|discriminate].
  intros [= ->]. auto.
Qed.

Lemma GetWaveDisplay_unallocated self clip channel d t0 pps w :
  mWaveCaches self !! channel = Some w ->
  WaveDisplay.where_ d = nullptr ->
  GetWaveDisplay self clip channel d t0 pps
  = Some (if exactHit w (timePerPixel pps) (numPixelsOf d) (GetRate clip)
               (mDirty self) (origin clip t0)
          then Returns {| ok := true; cache := self; display := report d channel;
                          calls := [] |}
          else rebuilt self channel d
                 (replaceEntry self clip channel d (origin clip t0) pps w)).
Proof.
  intros Hw Hd. unfold GetWaveDisplay. rewrite Hw. simpl. rewrite Hd. simpl.
  unfold timePerPixel, origin. destruct (exactHit _ _ _ _ _ _); [reflexivity|].
  rewrite replaceEntry_release. unfold rebuilt.
  destruct (constructs _); reflexivity.
Qed.

Lemma copyOld_length r arrays :
  length (a_min (copyOld r arrays)) = length (a_min arrays)
  /\ length (a_max (copyOld r arrays)) = length (a_max arrays)
  /\ length (a_rms (copyOld r arrays)) = length (a_rms arrays).
Proof.
  unfold copyOld. destruct (oldCache r); simpl; [|auto].
  rewrite !length_memcpy. auto.
Qed.

(** The entry that the replacement path installs. *)
Lemma replaceEntry_installs self clip channel d t0 pps w :
  exists e,
    cache (replaceEntry self clip channel d t0 pps w) = install self channel e
    /\ WaveCache.len e = numPixelsOf d
    /\ WaveCache.start e = t0
    /\ WaveCache.pps e = pps
    /\ WaveCache.rate e = GetRate clip
    /\ WaveCache.dirty e = mDirty self
    /\ length (WaveCache.min e) = numPixelsOf d
    /\ length (WaveCache.max e) = numPixelsOf d
    /\ length (WaveCache.rms e) = numPixelsOf d.
Proof.
  unfold replaceEntry.
  set (r := reuse _ _ _ _ _ _).
  set (entry := newEntry _ _ _ _ _ _ _).
  destruct (recomputeRange _ _ _) as [p0 p1].
  destruct (fetch _ _ _ _ _ _) as [[good arrays] called] eqn:Hf.
  apply fetch_frame in Hf as ((Hl1 & Hl2 & Hl3) & _).
  pose proof (copyOld_length r (arraysOf entry)) as (Hc1 & Hc2 & Hc3).
  eexists. split; [reflexivity|]. simpl.
  rewrite Hl1, Hl2, Hl3, Hc1, Hc2, Hc3. simpl.
  rewrite !length_replicate. repeat split; reflexivity.
Qed.

(** How a call ends, by the pointers of the display and the entry [w] of
    the channel. *)
Lemma GetWaveDisplay_exit self clip channel d t0 pps w x :
  mWaveCaches self !! channel = Some w ->
  GetWaveDisplay self clip channel d t0 pps = Some x ->
  (allocated d = true /\ exists o, x = Returns o /\ cache o = self)
  \/ (allocated d = false
      /\ exactHit w (timePerPixel pps) (numPixelsOf d) (GetRate clip)
           (mDirty self) (origin clip t0) = true
      /\ x = Returns {| ok := true; cache := self; display := report d channel;
                        calls := [] |})
  \/ (allocated d = false
      /\ exactHit w (timePerPixel pps) (numPixelsOf d) (GetRate clip)
           (mDirty self) (origin clip t0) = false
      /\ x = rebuilt self channel d
               (replaceEntry self clip channel d (origin clip t0) pps w)).
Proof.
  intros Hw. unfold allocated.
  destruct (ptr_is_null (WaveDisplay.where_ d)) eqn:Hnull; simpl.
  - assert (Hd : WaveDisplay.where_ d = nullptr)
      by (destruct (WaveDisplay.where_ d); [reflexivity|discriminate..]).
    rewrite (GetWaveDisplay_unallocated self clip channel d t0 pps w Hw Hd).
    destruct (exactHit _ _ _ _ _ _); intros [= <-]; auto.
  - unfold GetWaveDisplay. rewrite Hw. simpl. rewrite Hnull. simpl.
    destruct (_ || _); [|discriminate].
    destruct (fetch _ _ _ _ _ _) as [[good arrays] called].
    intros [= <-]. left. split; [reflexivity|]. eexists. split; reflexivity.
Qed.

Lemma GetWaveDisplay_cache self clip channel d t0 pps o :
  GetWaveDisplay self clip channel d t0 pps = Some (Returns o) ->
  cache o = self \/ exists e, cache o = install self channel e.
Proof.
  intros Hget.
  destruct (mWaveCaches self !! channel) as [w|] eqn:Hw;
    [|unfold GetWaveDisplay in Hget; rewrite Hw in Hget; discriminate].
  destruct (GetWaveDisplay_exit self clip channel d t0 pps w _ Hw Hget)
    as [(_ & o' & [= <-] & Hc)|[(_ & _ & [= ->])|(_ & _ & Hx)]]; [auto..|].
  symmetry in Hx. apply rebuilt_returns in Hx as [_ <-]. right.
  destruct (replaceEntry_installs self clip channel d (origin clip t0) pps w)
    as (e & He & _).
  exists e. exact He.
Qed.

(** What the constructor and [Invalidate] install is the empty entry. *)
Lemma construct_lookup nChannels channel :
  channel < nChannels ->
  mWaveCaches (construct nChannels) !! channel = Some (Some WaveCache.empty).
Proof. intros Hc. apply lookup_replicate_2. exact Hc. Qed.

Lemma Invalidate_lookup self channel :
  channel < length (mWaveCaches self) ->
  mWaveCaches (Invalidate self) !! channel = Some (Some WaveCache.empty).
Proof.
  intros Hc. simpl. rewrite list_lookup_fmap.
  destruct (lookup_lt_is_Some_2 _ _ Hc) as [w ->]. reflexivity.
Qed.

(** With caller buffers the cache is neither consulted nor changed. *)
Lemma GetWaveDisplay_allocated_cache self clip channel d t0 pps o :
  WaveDisplay.where_ d <> nullptr ->
  GetWaveDisplay self clip channel d t0 pps = Some (Returns o) ->
  cache o = self.
Proof.
  intros Hd Hget.
  destruct (mWaveCaches self !! channel) as [w|] eqn:Hw;
    [|unfold GetWaveDisplay in Hget; rewrite Hw in Hget; discriminate].
  destruct (GetWaveDisplay_exit self clip channel d t0 pps w _ Hw Hget)
    as [(_ & o' & [= <-] & Hc)|[(Ha & _)|(Ha & _)]]; [exact Hc| |];
    unfold allocated in Ha; destruct (WaveDisplay.where_ d);
    try congruence; discriminate.
Qed.

(** An [int] below zero becomes a [size_t] of at least 2^64 - 2^31, for
    which no vector of floats is built. *)
Lemma to_size_t_negative (z : Z) :
  (- 2 ^ 31 <= z < 0)%Z -> Z.of_nat (to_size_t z) = (z + 2 ^ 64)%Z.
Proof.
  intros Hz. unfold to_size_t.
  rewrite Z2Nat.id by (apply Z.mod_pos_bound; lia).
  rewrite <- (Z.mod_add z 1 (2 ^ 64)) by lia. apply Z.mod_small. lia.
Qed.

Lemma to_size_t_int (z : Z) :
  (0 <= z < 2 ^ 31)%Z -> to_size_t z = Z.to_nat z.
Proof. intros Hz. unfold to_size_t. rewrite Z.mod_small by lia. reflexivity. Qed.

Lemma fits_negative (z : Z) :
  (- 2 ^ 31 <= z < 0)%Z -> WaveCache.fits (to_size_t z) = false.
Proof.
  intros Hz. unfold WaveCache.fits, WaveCache.vectorFits, WaveCache.SIZE_MAX.
  rewrite (to_size_t_negative z Hz). apply andb_false_intro2.
  apply Z.leb_gt. lia.
Qed.

Lemma fits_int (z : Z) :
  (0 <= z < 2 ^ 31)%Z -> WaveCache.fits (to_size_t z) = true.
Proof.
  intros Hz. unfold WaveCache.fits, WaveCache.vectorFits, WaveCache.SIZE_MAX.
  rewrite (to_size_t_int z Hz), Z2Nat.id by lia.
  rewrite Z.mod_small by lia.
  apply andb_true_intro. split; apply Z.leb_le; lia.
Qed.

Lemma constructs_negative (d : WaveDisplay.t) :
  (- 2 ^ 31 <= WaveDisplay.width d < 0)%Z -> constructs (numPixelsOf d) = false.
Proof.
  intros Hz. unfold constructs, numPixelsOf. rewrite (fits_negative _ Hz).
  reflexivity.
Qed.

(** A request without caller buffers that does not return: the new entry
    was not built, and the pointer of the channel was left null. *)
Lemma GetWaveDisplay_throws self clip channel d t0 pps w remains :
  mWaveCaches self !! channel = Some w ->
  GetWaveDisplay self clip channel d t0 pps = Some (Throws remains) ->
  allocated d = false
  /\ constructs (numPixelsOf d) = false
  /\ remains = release self channel.
Proof.
  intros Hw Hget.
  destruct (GetWaveDisplay_exit self clip channel d t0 pps w _ Hw Hget)
    as [(_ & o' & Hx & _)|[(_ & _ & Hx)|(Ha & _ & Hx)]]; try discriminate Hx.
  unfold rebuilt in Hx. destruct (constructs _); [discriminate|].
  injection Hx as ->. auto.
Qed.
End Requests.

(** In every cache that can arise, the three arrays of an entry have the
    length of the entry. *)
Lemma reachable_entries_sized nChannels self :
  reachable nChannels self ->
  forall channel c, mWaveCaches self !! channel = Some (Some c) ->
    length (WaveCache.min c) = WaveCache.len c
    /\ length (WaveCache.max c) = WaveCache.len c
    /\ length (WaveCache.rms c) = WaveCache.len c.
Proof.
  induction 1 as [|self _ IH|self _ IH|env self clip ch d t0 pps x _ IH Hget];
    intros channel c Hc.
  - simpl in Hc. apply lookup_replicate_1 in Hc as [Heq _].
    injection Heq as ->. auto.
  - apply (IH channel c Hc).
  - simpl in Hc. rewrite list_lookup_fmap in Hc.
    destruct (mWaveCaches self !! channel); [|discriminate].
    injection Hc as <-. auto.
  - destruct (mWaveCaches self !! ch) as [w|] eqn:Hw;
      [|unfold GetWaveDisplay in Hget; rewrite Hw in Hget; discriminate].
    destruct (GetWaveDisplay_exit self clip ch d t0 pps w x Hw Hget)
      as [(_ & o & -> & Ho)|[(_ & _ & ->)|(_ & _ & ->)]].
    + simpl in Hc. rewrite Ho in Hc. apply (IH channel c Hc).
    + apply (IH channel c Hc).
    + unfold rebuilt in Hc. destruct (constructs _); simpl in Hc.
      * destruct (replaceEntry_installs self clip ch d (origin clip t0) pps w)
          as (e & He & Hlen & _ & _ & _ & _ & H1 & H2 & H3).
        rewrite He in Hc. simpl in Hc.
        destruct (decide (channel = ch)) as [->|Hne].
        -- rewrite list_lookup_insert_eq in Hc
             by (apply lookup_lt_is_Some_1; eauto).
           injection Hc as <-. rewrite Hlen. auto.
        -- rewrite list_lookup_insert_ne in Hc by congruence.
           apply (IH channel c Hc).
      * destruct (decide (channel = ch)) as [->|Hne].
        -- rewrite list_lookup_insert_eq in Hc
             by (apply lookup_lt_is_Some_1; eauto).
           discriminate Hc.
        -- rewrite list_lookup_insert_ne in Hc by congruence.
           apply (IH channel c Hc).
Qed.

(** No operation changes the number of entries. *)
Lemma reachable_length nChannels self :
  reachable nChannels self -> length (mWaveCaches self) = nChannels.
Proof.
  induction 1 as [|self _ IH|self _ IH|env self clip ch d t0 pps x _ IH Hget].
  - apply length_replicate.
  - exact IH.
  - simpl. rewrite length_fmap. exact IH.
  - destruct (mWaveCaches self !! ch) as [w|] eqn:Hw;
      [|unfold GetWaveDisplay in Hget; rewrite Hw in Hget; discriminate].
    destruct (GetWaveDisplay_exit self clip ch d t0 pps w x Hw Hget)
      as [(_ & o & -> & Ho)|[(_ & _ & ->)|(_ & _ & ->)]].
    + simpl. rewrite Ho. exact IH.
    + exact IH.
    + unfold rebuilt. destruct (constructs _); simpl.
      * destruct (replaceEntry_installs self clip ch d (origin clip t0) pps w)
          as (e & -> & _).
        simpl. rewrite length_insert. exact IH.
      * rewrite length_insert. exact IH.
Qed.

(** C10, as the code has it.  For every channel below the constructed
    channel count the entry pointer of the manager is not null after
    construction, and stays so after [MarkChanged], after [Invalidate] and
    after every [GetWaveDisplay] that returns, its failure return included:
    on the replacement path the new entry is installed as soon as it is
    built, before the store is asked.  Not after every operation: between
    lines 121 and 141 the pointer of the channel is null, and when the new
    entry is not built (a negative width never is, and the free store may
    have no memory) the call leaves by the exception with that pointer
    null and the other pointers as they were.  The number of entries never
    changes; [Invalidate] makes every pointer non-null again, and so does,
    for its channel, every request without caller buffers that returns. *)
Theorem C10_entries_null_only_by_exception (nChannels : nat) :
  (forall self, returned nChannels self ->
     length (mWaveCaches self) = nChannels
     /\ forall channel, channel < nChannels ->
        exists c, mWaveCaches self !! channel = Some (Some c))
  /\ (forall self, reachable nChannels self ->
        length (mWaveCaches self) = nChannels
        /\ forall channel, channel < nChannels ->
           exists c, mWaveCaches (Invalidate self) !! channel = Some (Some c))
  /\ (forall (env : Collaborators) self clip channel d t0 pps w x,
        mWaveCaches self !! channel = Some w ->
        GetWaveDisplay self clip channel d t0 pps = Some x ->
        match x with
        | Returns o =>
            (forall other c, mWaveCaches self !! other = Some (Some c) ->
               exists c', mWaveCaches (cache o) !! other = Some (Some c'))
            /\ (allocated d = false ->
                exists c, mWaveCaches (cache o) !! channel = Some (Some c))
        | Throws remains =>
            allocated d = false
            /\ constructs (numPixelsOf d) = false
            /\ mWaveCaches remains !! channel = Some None
            /\ forall other, other <> channel ->
               mWaveCaches remains !! other = mWaveCaches self !! other
        end)
  /\ (forall (env : Collaborators) d,
        (- 2 ^ 31 <= WaveDisplay.width d < 0)%Z ->
        constructs (numPixelsOf d) = false).
Proof.
  split; [|split; [|split]].
  - induction 1 as [|self _ IH|self _ IH|env self clip ch d t0 pps o _ IH Hget].
    + simpl. split; [apply length_replicate|].
      intros channel Hc. exists WaveCache.empty.
      apply lookup_replicate_2. exact Hc.
    + exact IH.
    + destruct IH as [Hlen IH]. simpl. split; [rewrite length_fmap; exact Hlen|].
      intros channel Hc. destruct (IH channel Hc) as [c Hl].
      exists WaveCache.empty. rewrite list_lookup_fmap, Hl. reflexivity.
    + destruct IH as [Hlen IH].
      apply GetWaveDisplay_cache in Hget as [->|[e ->]]; [auto|].
      simpl. split; [rewrite length_insert; exact Hlen|].
      intros channel Hc. destruct (decide (channel = ch)) as [->|Hne].
      * exists e. apply list_lookup_insert_eq. lia.
      * rewrite list_lookup_insert_ne by congruence. auto.
  - intros self Hreach. pose proof (reachable_length nChannels self Hreach) as Hlen.
    split; [exact Hlen|]. intros channel Hc. exists WaveCache.empty.
    apply Invalidate_lookup. lia.
  - intros env self clip channel d t0 pps w x Hw Hget.
    assert (Hlt : channel < length (mWaveCaches self))
      by (apply lookup_lt_is_Some_1; eauto).
    destruct x as [o|remains].
    + destruct (GetWaveDisplay_exit self clip channel d t0 pps w _ Hw Hget)
        as [(Ha & o' & [= <-] & Hc)|[(_ & Hhit & [= ->])|(_ & _ & Hx)]].
      * rewrite Hc. split; [eauto|]. intros Ha'. congruence.
      * simpl. split; [eauto|]. intros _.
        unfold exactHit in Hhit. destruct w as [c|]; [|discriminate].
        exists c. exact Hw.
      * symmetry in Hx. apply rebuilt_returns in Hx as [_ <-].
        destruct (replaceEntry_installs self clip channel d (origin clip t0)
                    pps w) as (e & -> & _).
        simpl. split.
        -- intros other c Ho. destruct (decide (other = channel)) as [->|Hne].
           ++ exists e. apply list_lookup_insert_eq. exact Hlt.
           ++ exists c. rewrite list_lookup_insert_ne by congruence. exact Ho.
        -- intros _. exists e. apply list_lookup_insert_eq. exact Hlt.
    + destruct (GetWaveDisplay_throws self clip channel d t0 pps w remains Hw Hget)
        as (Ha & Hcon & ->).
      split; [exact Ha|]. split; [exact Hcon|]. simpl. split.
      * apply list_lookup_insert_eq. exact Hlt.
      * intros other Hne. apply list_lookup_insert_ne. congruence.
  - intros env d Hd. apply constructs_negative. exact Hd.
Qed.

(** ** The order of floating-point numbers *)

Ltac compare_cases :=
  repeat match goal with
    | H : context [Pos.compare_cont Eq ?a ?b] |- _ =>
        change (Pos.compare_cont Eq a b) with (Pos.compare a b) in H
    | |- context [Pos.compare_cont Eq ?a ?b] =>
        change (Pos.compare_cont Eq a b) with (Pos.compare a b)
    end;
  repeat match goal with
    | H : context [(?a ?= ?b)%Z] |- _ => destruct (Z.compare_spec a b); simpl in H
    | |- context [(?a ?= ?b)%Z] => destruct (Z.compare_spec a b); simpl
    | H : context [(?a ?= ?b)%positive] |- _ =>
        destruct (Pos.compare_spec a b); simpl in H
    | |- context [(?a ?= ?b)%positive] => destruct (Pos.compare_spec a b); simpl
    end;
  try reflexivity; try discriminate; try lia.

Ltac float_cases x :=
  destruct x as [[|]|[|]| |[|] ? ?].

Lemma SFleb_ltb_trans (x y z : spec_float) :
  SFleb x y = true -> SFltb y z = true -> SFltb x z = true.
Proof.
  unfold SFleb, SFltb, SFcompare.
  float_cases x; float_cases y; float_cases z; intros Hxy Hyz;
    try discriminate; try reflexivity; compare_cases.
Qed.

Lemma SFltb_leb_trans (x y z : spec_float) :
  SFltb x y = true -> SFleb y z = true -> SFltb x z = true.
Proof.
  unfold SFleb, SFltb, SFcompare.
  float_cases x; float_cases y; float_cases z; intros Hxy Hyz;
    try discriminate; try reflexivity; compare_cases.
Qed.

Lemma SFltb_leb (x y : spec_float) : SFltb x y = true -> SFleb x y = true.
Proof.
  unfold SFleb, SFltb. destruct (SFcompare x y) as [[| |]|]; congruence.
Qed.

Lemma SFleb_refl (x : spec_float) : notNaN x -> SFleb x x = true.
Proof.
  unfold notNaN, SFleb, SFcompare.
  float_cases x; intros Hx; try reflexivity; try congruence; compare_cases.
Qed.

Lemma SFleb_total (x y : spec_float) :
  notNaN x -> notNaN y -> SFltb x y = false -> SFleb y x = true.
Proof.
  unfold notNaN, SFleb, SFltb, SFcompare.
  float_cases x; float_cases y; intros Hx Hy Hlt;
    try discriminate; try reflexivity; try congruence; compare_cases.
Qed.

(** ** The zoom match, the generation stamp and the recompute range *)

Section Matching.
Context {env : Collaborators}.

Lemma recomputeRange_nothing_copied (numPixels : nat) :
  recomputeRange 0 0 numPixels = (0, numPixels).
Proof. unfold recomputeRange. destruct numPixels; reflexivity. Qed.

(** Without a match nothing of the old entry is used: the request is a full
    recompute. *)
Lemma replaceEntry_unmatched self clip channel d t0 pps w :
  match_ w (timePerPixel pps) (numPixelsOf d) (GetRate clip) (mDirty self)
  = false ->
  rebuilt self channel d (replaceEntry self clip channel d (origin clip t0) pps w)
  = fullRecompute self clip channel d t0 pps.
Proof.
  intros Hm. unfold replaceEntry, fullRecompute.
  unfold timePerPixel in Hm. rewrite Hm.
  assert (Hr : reuse w false (numPixelsOf d) (origin clip t0) (GetRate clip)
                 (Double.mul (Double.of_Z (GetRate clip))
                    (Double.div Double.one pps))
               = {| oldCache := None; oldX0 := 0; correction := Double.zero;
                    copyBegin := 0; copyEnd := 0 |}).
  { unfold reuse. destruct w; reflexivity. }
  rewrite Hr. simpl copyBegin. simpl copyEnd. simpl correction.
  rewrite recomputeRange_nothing_copied.
  unfold copyOld. simpl oldCache.
  destruct (fetch _ _ _ _ _ _) as [[good arrays] called]. reflexivity.
Qed.

(** An entry that is null, empty or of another generation is no match. *)
Lemma match_stale w tstep numPixels rate mDirty_ :
  (forall c, w = Some c ->
     WaveCache.len c = 0 \/ WaveCache.dirty c <> mDirty_) ->
  match_ w tstep numPixels rate mDirty_ = false.
Proof.
  intros Hw. unfold match_. destruct w as [c|]; [|reflexivity].
  destruct (Hw c eq_refl) as [Hlen|Hdirty].
  - rewrite Hlen. simpl. rewrite andb_false_r. reflexivity.
  - replace (WaveCache.dirty c =? mDirty_)%Z with false by lia.
    apply andb_false_r.
Qed.

Lemma match_dirty c tstep numPixels rate mDirty_ :
  match_ (Some c) tstep numPixels rate mDirty_ = true ->
  WaveCache.dirty c = mDirty_.
Proof.
  unfold match_. intros Hm.
  apply andb_prop in Hm as [_ Hd]. lia.
Qed.

Lemma exactHit_match w tstep numPixels rate mDirty_ t0 :
  exactHit w tstep numPixels rate mDirty_ t0 = true ->
  match_ w tstep numPixels rate mDirty_ = true.
Proof.
  unfold exactHit. destruct w; [|discriminate].
  intros Hh. apply andb_prop in Hh as [Hh _]. apply andb_prop in Hh as [Hh _].
  exact Hh.
Qed.

Lemma exactHit_unmatched w tstep numPixels rate mDirty_ t0 :
  match_ w tstep numPixels rate mDirty_ = false ->
  exactHit w tstep numPixels rate mDirty_ t0 = false.
Proof.
  intros Hm. destruct (exactHit w tstep numPixels rate mDirty_ t0) eqn:Hh;
    [|reflexivity].
  apply exactHit_match in Hh. congruence.
Qed.

(** A request that finds no match is answered by a full recompute. *)
Lemma GetWaveDisplay_unmatched self clip channel d t0 pps w :
  mWaveCaches self !! channel = Some w ->
  WaveDisplay.where_ d = nullptr ->
  match_ w (timePerPixel pps) (numPixelsOf d) (GetRate clip) (mDirty self)
  = false ->
  GetWaveDisplay self clip channel d t0 pps
  = Some (fullRecompute self clip channel d t0 pps).
Proof.
  intros Hw Hd Hm.
  rewrite (GetWaveDisplay_unallocated self clip channel d t0 pps w Hw Hd).
  rewrite exactHit_unmatched by exact Hm.
  rewrite replaceEntry_unmatched by exact Hm. reflexivity.
Qed.

(** C8. [MarkChanged] increments the generation counter and leaves every
    entry as it is; a request that was an exact hit before it is not one
    after it: the entry fails the generation check, although its geometry
    still matches, and the request is recomputed in full. *)
Theorem C8_markChanged_invalidates self clip channel d t0 pps c :
  mWaveCaches self !! channel = Some (Some c) ->
  WaveDisplay.where_ d = nullptr ->
  (- 2 ^ 31 <= mDirty self < 2 ^ 31 - 1)%Z ->
  exactHit (Some c) (timePerPixel pps) (numPixelsOf d) (GetRate clip)
    (mDirty self) (origin clip t0) = true ->
  mDirty (MarkChanged self) = (mDirty self + 1)%Z
  /\ mWaveCaches (MarkChanged self) = mWaveCaches self
  /\ ppsMatch (Some c) (timePerPixel pps) (numPixelsOf d) (GetRate clip)
     = true
  /\ exactHit (Some c) (timePerPixel pps) (numPixelsOf d) (GetRate clip)
       (mDirty (MarkChanged self)) (origin clip t0) = false
  /\ GetWaveDisplay (MarkChanged self) clip channel d t0 pps
     = Some (fullRecompute (MarkChanged self) clip channel d t0 pps).
Proof.
  intros Hw Hd Hrange Hhit.
  pose proof (exactHit_match _ _ _ _ _ _ Hhit) as Hm.
  pose proof (match_dirty _ _ _ _ _ Hm) as Hdirty.
  assert (Hm' : match_ (Some c) (timePerPixel pps) (numPixelsOf d)
                  (GetRate clip) (mDirty (MarkChanged self)) = false).
  { unfold match_. simpl mDirty. rewrite Hdirty.
    pose proof (int32_succ_neq (mDirty self)).
    replace (mDirty self =? int32 (mDirty self + 1))%Z with false by lia.
    apply andb_false_r. }
  split; [simpl; apply int32_small; lia|].
  split; [reflexivity|].
  split.
  { unfold match_ in Hm. apply andb_prop in Hm as [Hm _].
    apply andb_prop in Hm as [Hm _]. exact Hm. }
  split; [apply exactHit_unmatched; exact Hm'|].
  apply (GetWaveDisplay_unmatched _ _ _ _ _ _ (Some c)); [exact Hw|exact Hd|exact Hm'].
Qed.

(** C7. The recompute range [p0, p1) for a copy range [copyBegin, copyEnd)
    within the requested width: [copyEnd, requestedWidth) when the copy
    range starts at pixel 0, [0, copyBegin) when it ends at requestedWidth,
    and all of [0, requestedWidth) otherwise, that is when it touches
    neither edge or when nothing is copied.  So the columns of the copy
    range are either all kept or all recomputed: there is no reuse of a
    middle part. *)
Theorem C7_recompute_range (cBegin cEnd numPixels : nat) :
  cBegin <= numPixels -> cEnd <= numPixels ->
  let p0 := (recomputeRange cBegin cEnd numPixels).1 in
  let p1 := (recomputeRange cBegin cEnd numPixels).2 in
  (cBegin = 0 -> forall i, p0 <= i < p1 <-> cEnd <= i < numPixels)
  /\ (cEnd = numPixels -> forall i, p0 <= i < p1 <-> 0 <= i < cBegin)
  /\ (cBegin <> 0 -> cEnd <> numPixels -> p0 = 0 /\ p1 = numPixels)
  /\ (cEnd <= cBegin -> forall i, p0 <= i < p1 <-> 0 <= i < numPixels)
  /\ ((forall i, cBegin <= i < cEnd -> ~ p0 <= i < p1)
      \/ (p0 = 0 /\ p1 = numPixels)).
Proof.
  intros Hb He p0 p1. subst p0 p1. unfold recomputeRange. simpl.
  destruct (0 <? cBegin) eqn:H0; destruct (numPixels <=? cEnd) eqn:H1;
    [apply Nat.ltb_lt in H0|apply Nat.ltb_lt in H0
    |apply Nat.ltb_ge in H0|apply Nat.ltb_ge in H0];
    [apply Nat.leb_le in H1|apply Nat.leb_gt in H1
    |apply Nat.leb_le in H1|apply Nat.leb_gt in H1];
    (split; [|split; [|split; [|split]]]); try lia;
    try (intros; lia); try (left; intros; lia); try (right; lia).
Qed.

(** The copy range that [GetWaveDisplay] computes lies within the width. *)
Lemma reuse_bounds w matched numPixels t0 rate spp :
  copyBegin (reuse w matched numPixels t0 rate spp) <= numPixels
  /\ copyEnd (reuse w matched numPixels t0 rate spp) <= numPixels.
Proof.
  unfold reuse. destruct w as [old|]; [destruct matched|]; simpl; try lia.
  destruct (findCorrection _ _ _ _ _ _) as [x0 corr]. simpl. lia.
Qed.
End Matching.

Lemma C7_recompute_range_witness :
  (1 = 0 -> forall i,
      (recomputeRange 1 4 4).1 <= i < (recomputeRange 1 4 4).2 <-> 4 <= i < 4)
  /\ (4 = 4 -> forall i,
        (recomputeRange 1 4 4).1 <= i < (recomputeRange 1 4 4).2 <-> 0 <= i < 1)
  /\ (1 <> 0 -> 4 <> 4 ->
      (recomputeRange 1 4 4).1 = 0 /\ (recomputeRange 1 4 4).2 = 4)
  /\ (4 <= 1 -> forall i,
        (recomputeRange 1 4 4).1 <= i < (recomputeRange 1 4 4).2 <-> 0 <= i < 4)
  /\ ((forall i, 1 <= i < 4 ->
         ~ (recomputeRange 1 4 4).1 <= i < (recomputeRange 1 4 4).2)
      \/ ((recomputeRange 1 4 4).1 = 0 /\ (recomputeRange 1 4 4).2 = 4)).
Proof. apply (C7_recompute_range 1 4 4); lia. Defined.

(** ** Replacing the entry *)

Section Replacing.
Context {env : Collaborators}.

(** The replacement path, with its new entry and its fill loop named. *)
Lemma replaceEntry_unfold self clip channel d t0 pps w :
  let n := numPixelsOf d in
  let spp := Double.mul (Double.of_Z (GetRate clip)) (timePerPixel pps) in
  let r :=
    reuse w (match_ w (timePerPixel pps) n (GetRate clip) (mDirty self)) n t0
      (GetRate clip) spp in
  let p0 := (recomputeRange (copyBegin r) (copyEnd r) n).1 in
  let p1 := (recomputeRange (copyBegin r) (copyEnd r) n).2 in
  exists entry good arrays called,
    entry = newEntry n pps (GetRate clip) t0 (mDirty self) (correction r) spp
    /\ fetch clip channel (WaveCache.where_ entry) (copyOld r (arraysOf entry))
         p0 p1
       = (good, arrays, called)
    /\ replaceEntry self clip channel d t0 pps w
       = {| ok := good;
            cache := install self channel
                       (WaveCache.with_arrays entry (a_min arrays) (a_max arrays)
                          (a_rms arrays));
            display := if good then report d channel else d;
            calls := called |}.
Proof.
  intros n spp r p0 p1. subst p0 p1. unfold replaceEntry.
  fold n. unfold timePerPixel in *. fold spp. fold r.
  destruct (recomputeRange (copyBegin r) (copyEnd r) n) as [p0 p1].
  cbn [fst snd].
  destruct (fetch clip channel _ _ p0 p1) as [[good arrays] called] eqn:Hf.
  eexists _, good, arrays, called. split; [reflexivity|].
  split; [exact Hf|reflexivity].
Qed.

Lemma newEntry_fields n pps rate t0 dirty_ corr spp :
  let entry := newEntry n pps rate t0 dirty_ corr spp in
  WaveCache.len entry = n
  /\ WaveCache.start entry = t0
  /\ WaveCache.pps entry = pps
  /\ WaveCache.rate entry = rate
  /\ WaveCache.dirty entry = dirty_
  /\ arraysOf entry
     = {| a_min := replicate n Float.zero; a_max := replicate n Float.zero;
          a_rms := replicate n Float.zero |}.
Proof. repeat split; reflexivity. Qed.

(** C1, as the code has it.  When the durable store fails on a request
    without caller buffers, the request fails and the display is left as it
    was, but the entry of the channel is not the one installed before: it
    is the entry built for this request (its length the requested width,
    its origin, zoom and rate those of the request, its generation the
    current one), installed before the store was asked.  The store was
    asked once, for one range of columns of that entry, and it is its
    failure that is returned. *)
Theorem C1_failure_leaves_new_entry self clip channel d t0 pps o :
  WaveDisplay.where_ d = nullptr ->
  GetWaveDisplay self clip channel d t0 pps = Some (Returns o) ->
  ok o = false ->
  exists e p n,
    cache o = install self channel e
    /\ WaveCache.len e = numPixelsOf d
    /\ WaveCache.start e = origin clip t0
    /\ WaveCache.pps e = pps
    /\ WaveCache.rate e = GetRate clip
    /\ WaveCache.dirty e = mDirty self
    /\ display o = d
    /\ calls o = [(p, n)]
    /\ (SequenceGetWaveDisplay (GetSequence clip channel) n
          (drop p (WaveCache.where_ e))).1 = false.
Proof.
  intros Hd Hget Hok.
  destruct (mWaveCaches self !! channel) as [w|] eqn:Hw.
  2:{ unfold GetWaveDisplay in Hget. rewrite Hw in Hget. discriminate. }
  rewrite (GetWaveDisplay_unallocated self clip channel d t0 pps w Hw Hd) in Hget.
  destruct (exactHit _ _ _ _ _ _).
  { injection Hget as <-. discriminate Hok. }
  injection Hget as Hget. apply rebuilt_returns in Hget as [_ <-].
  destruct (replaceEntry_unfold self clip channel d (origin clip t0) pps w)
    as (entry & good & arrays & called & Hentry & Hf & Heq).
  set (r := reuse _ _ _ _ _ _) in *.
  set (p0 := (recomputeRange _ _ _).1) in *.
  set (p1 := (recomputeRange _ _ _).2) in *.
  pose proof (newEntry_fields (numPixelsOf d) pps (GetRate clip)
                (origin clip t0) (mDirty self) (correction r)
                (Double.mul (Double.of_Z (GetRate clip)) (timePerPixel pps)))
    as (Hlen & Hstart & Hpps & Hrate & Hdirty & _).
  rewrite <- Hentry in Hlen, Hstart, Hpps, Hrate, Hdirty. clear Hentry.
  rewrite Heq in Hok |- *. cbn [ok] in Hok. subst good.
  cbn [ok cache display calls].
  destruct (decide (p0 < p1)) as [Hp|Hp].
  2:{ rewrite fetch_empty in Hf by lia. discriminate. }
  destruct (fetch_spec clip channel (WaveCache.where_ entry)
              (copyOld r (arraysOf entry)) p0 p1 Hp)
    as (good1 & arr1 & Heq1 & Hgood & _).
  rewrite Hf in Heq1. injection Heq1 as <- <- ->.
  destruct (p0 <? storeEnd clip channel (WaveCache.where_ entry) p0 p1);
    [|discriminate].
  eexists _, p0, _.
  split; [reflexivity|]. cbn [WaveCache.len WaveCache.start WaveCache.pps
    WaveCache.rate WaveCache.dirty WaveCache.where_ WaveCache.with_arrays].
  repeat (split; [assumption || reflexivity|]). symmetry. exact Hgood.
Qed.

(** C9, as the code has it.  A request of width 0 without caller buffers
    succeeds and summarizes nothing: neither the append buffer nor the
    durable store is read.  The cache is left as it is when the request is
    an exact hit on the installed entry; otherwise the entry is replaced by
    a new entry of length 0 (which has to be built) that carries the
    origin, zoom and rate of the request and the current generation. *)
Theorem C9_zero_width self clip channel d t0 pps w :
  mWaveCaches self !! channel = Some w ->
  WaveDisplay.where_ d = nullptr ->
  WaveDisplay.width d = 0%Z ->
  (exactHit w (timePerPixel pps) 0 (GetRate clip) (mDirty self)
     (origin clip t0) = false -> constructs 0 = true) ->
  exists o,
    GetWaveDisplay self clip channel d t0 pps = Some (Returns o)
    /\ ok o = true
    /\ calls o = []
    /\ display o = report d channel
    /\ mDirty (cache o) = mDirty self
    /\ (exactHit w (timePerPixel pps) 0 (GetRate clip) (mDirty self)
          (origin clip t0) = true -> cache o = self)
    /\ (exactHit w (timePerPixel pps) 0 (GetRate clip) (mDirty self)
          (origin clip t0) = false ->
        exists e,
          cache o = install self channel e
          /\ WaveCache.len e = 0
          /\ WaveCache.min e = [] /\ WaveCache.max e = [] /\ WaveCache.rms e = []
          /\ WaveCache.start e = origin clip t0
          /\ WaveCache.pps e = pps
          /\ WaveCache.rate e = GetRate clip
          /\ WaveCache.dirty e = mDirty self).
Proof.
  intros Hw Hd Hzero Hbuilt.
  assert (Hwidth : numPixelsOf d = 0)
    by (unfold numPixelsOf; rewrite Hzero; reflexivity).
  rewrite (GetWaveDisplay_unallocated self clip channel d t0 pps w Hw Hd).
  rewrite Hwidth.
  destruct (exactHit _ _ _ _ _ _) eqn:Hhit.
  { eexists. split; [reflexivity|]. simpl.
    repeat (split; [reflexivity|]). intros Hx; discriminate Hx. }
  rewrite rebuilt_constructs by (rewrite Hwidth; apply Hbuilt; reflexivity).
  destruct (replaceEntry_unfold self clip channel d (origin clip t0) pps w)
    as (entry & good & arrays & called & Hentry & Hf & Heq).
  rewrite Hwidth in Hf, Hentry.
  set (r := reuse _ _ _ _ _ _) in *.
  pose proof (newEntry_fields 0 pps (GetRate clip)
                (origin clip t0) (mDirty self) (correction r)
                (Double.mul (Double.of_Z (GetRate clip)) (timePerPixel pps)))
    as (Hlen & Hstart & Hpps & Hrate & Hdirty & Harr).
  rewrite <- Hentry in Hlen, Hstart, Hpps, Hrate, Hdirty, Harr. clear Hentry.
  pose proof (reuse_bounds w
                (match_ w (timePerPixel pps) 0 (GetRate clip) (mDirty self)) 0
                (origin clip t0) (GetRate clip)
                (Double.mul (Double.of_Z (GetRate clip)) (timePerPixel pps)))
    as [Hb He].
  fold r in Hb, He.
  assert (Hcb : copyBegin r = 0) by lia. assert (Hce : copyEnd r = 0) by lia.
  rewrite Hcb, Hce in Hf. simpl in Hf. rewrite fetch_empty in Hf by lia.
  injection Hf as <- <- <-.
  pose proof (copyOld_length r (arraysOf entry)) as (Hl1 & Hl2 & Hl3).
  replace (length (a_min (arraysOf entry))) with 0 in Hl1 by (rewrite Harr; reflexivity).
  replace (length (a_max (arraysOf entry))) with 0 in Hl2 by (rewrite Harr; reflexivity).
  replace (length (a_rms (arraysOf entry))) with 0 in Hl3 by (rewrite Harr; reflexivity).
  eexists. split; [reflexivity|]. rewrite Heq. simpl.
  repeat (split; [reflexivity|]). split; [intros Hx; discriminate Hx|].
  intros _. eexists. split; [reflexivity|]. simpl.
  split; [assumption|].
  split; [apply length_zero_iff_nil; exact Hl1|].
  split; [apply length_zero_iff_nil; exact Hl2|].
  split; [apply length_zero_iff_nil; exact Hl3|].
  repeat split; assumption.
Qed.
End Replacing.

(** ** Exact hits and the zoom-match test *)

Section Hits.
Context {env : Collaborators}.

Lemma GetWaveDisplay_hit self clip channel d t0 pps w :
  mWaveCaches self !! channel = Some w ->
  WaveDisplay.where_ d = nullptr ->
  exactHit w (timePerPixel pps) (numPixelsOf d) (GetRate clip)
    (mDirty self) (origin clip t0) = true ->
  GetWaveDisplay self clip channel d t0 pps
  = Some (Returns {| ok := true; cache := self; display := report d channel;
                     calls := [] |}).
Proof.
  intros Hw Hd Hhit.
  rewrite (GetWaveDisplay_unallocated self clip channel d t0 pps w Hw Hd).
  rewrite Hhit. reflexivity.
Qed.

(** C2. When the entry of the channel is usable for correction (it exists,
    passes the zoom-match test, is not empty and carries the current
    generation), starts at the requested origin and is at least as long as
    the requested width, the request succeeds with the display pointing
    into that very entry, the cache is left exactly as it was and the
    durable store is not called.  Hence the same request made again gives
    the same result, the same arrays included, again without a call of the
    durable store. *)
Theorem C2_exact_hit self clip channel d t0 pps c :
  mWaveCaches self !! channel = Some (Some c) ->
  WaveDisplay.where_ d = nullptr ->
  ppsMatch (Some c) (timePerPixel pps) (numPixelsOf d) (GetRate clip) = true ->
  0 < WaveCache.len c ->
  WaveCache.dirty c = mDirty self ->
  Double.eqb (WaveCache.start c) (origin clip t0) = true ->
  numPixelsOf d <= WaveCache.len c ->
  exists o,
    GetWaveDisplay self clip channel d t0 pps = Some (Returns o)
    /\ ok o = true
    /\ cache o = self
    /\ pointsToCache (display o) channel
    /\ mWaveCaches (cache o) !! channel = Some (Some c)
    /\ calls o = []
    /\ GetWaveDisplay (cache o) clip channel d t0 pps = Some (Returns o).
Proof.
  intros Hw Hd Hpps Hlen Hdirty Hstart Hwidth.
  assert (Hhit : exactHit (Some c) (timePerPixel pps) (numPixelsOf d)
                   (GetRate clip) (mDirty self) (origin clip t0) = true).
  { unfold exactHit, match_. rewrite Hpps, Hstart, Hdirty. simpl.
    rewrite Z.eqb_refl.
    rewrite (proj2 (Nat.ltb_lt _ _) Hlen), (proj2 (Nat.leb_le _ _) Hwidth).
    reflexivity. }
  pose proof (GetWaveDisplay_hit self clip channel d t0 pps _ Hw Hd Hhit) as Hget.
  eexists. split; [exact Hget|]. simpl.
  split; [reflexivity|]. split; [reflexivity|].
  split; [repeat split|]. split; [exact Hw|]. split; [reflexivity|exact Hget].
Qed.

(** The same request made twice: whatever the first one did, hit or
    replacement (the new entry then has to be built), the second one is an
    exact hit on the entry the first one left, provided the zoom passes the
    test against itself, the origin equals itself (it is a number) and the
    width is not 0.  This holds also when the first request failed. *)
Lemma repeated_request_hits self clip channel d t0 pps w :
  mWaveCaches self !! channel = Some w ->
  WaveDisplay.where_ d = nullptr ->
  0 < numPixelsOf d ->
  Double.ltb
    (Double.mul (Double.abs (Double.sub (timePerPixel pps) (timePerPixel pps)))
       (Double.of_nat (numPixelsOf d)))
    (samplePeriod clip) = true ->
  Double.eqb (origin clip t0) (origin clip t0) = true ->
  (exactHit w (timePerPixel pps) (numPixelsOf d) (GetRate clip) (mDirty self)
     (origin clip t0) = false -> constructs (numPixelsOf d) = true) ->
  exists o,
    GetWaveDisplay self clip channel d t0 pps = Some (Returns o)
    /\ GetWaveDisplay (cache o) clip channel d t0 pps
       = Some (Returns {| ok := true; cache := cache o;
                          display := report d channel; calls := [] |}).
Proof.
  intros Hw Hd Hwidth Hzoom Horigin Hbuilt.
  pose proof (GetWaveDisplay_unallocated self clip channel d t0 pps w Hw Hd) as Hget.
  destruct (exactHit _ _ _ _ _ _) eqn:Hhit.
  - eexists. split; [exact Hget|]. simpl.
    apply (GetWaveDisplay_hit self clip channel d t0 pps w Hw Hd Hhit).
  - rewrite rebuilt_constructs in Hget by (apply Hbuilt; reflexivity).
    eexists. split; [exact Hget|].
    destruct (replaceEntry_installs self clip channel d (origin clip t0) pps w)
      as (e & He & Hlen & Hstart & Hpps & _ & Hdirty & _).
    rewrite He.
    apply (GetWaveDisplay_hit _ clip channel d t0 pps (Some e)).
    + simpl. apply list_lookup_insert_eq. apply lookup_lt_is_Some_1. eauto.
    + exact Hd.
    + unfold exactHit, match_, ppsMatch. simpl mDirty.
      rewrite Hpps, Hstart, Hdirty, Hlen.
      unfold timePerPixel, samplePeriod in *. rewrite Hzoom, Horigin.
      rewrite Z.eqb_refl, Nat.leb_refl, (proj2 (Nat.ltb_lt _ _) Hwidth).
      reflexivity.
Qed.

(** C6. On a request without caller buffers, the zoom of the cached entry
    matches exactly when the accumulated drift
    [|timePerPixel - 1 / entry.pixelsPerSecond| * requestedWidth] is less
    than the sample period [1 / sampleRate].  Below the threshold the entry
    is eligible for reuse (it is a match if it is also not empty and of the
    current generation); otherwise the request is recomputed in full, and
    so is any request whose drift is at least as large. *)
Theorem C6_zoom_match_test self clip channel d t0 pps c :
  mWaveCaches self !! channel = Some (Some c) ->
  WaveDisplay.where_ d = nullptr ->
  ppsMatch (Some c) (timePerPixel pps) (numPixelsOf d) (GetRate clip)
  = Double.ltb (drift c pps (numPixelsOf d)) (samplePeriod clip)
  /\ match_ (Some c) (timePerPixel pps) (numPixelsOf d) (GetRate clip)
       (mDirty self)
     = Double.ltb (drift c pps (numPixelsOf d)) (samplePeriod clip)
       && (0 <? WaveCache.len c) && (WaveCache.dirty c =? mDirty self)%Z
  /\ (Double.ltb (drift c pps (numPixelsOf d)) (samplePeriod clip) = false ->
      GetWaveDisplay self clip channel d t0 pps
      = Some (fullRecompute self clip channel d t0 pps))
  /\ (forall d' t0' pps',
        WaveDisplay.where_ d' = nullptr ->
        Double.ltb (drift c pps (numPixelsOf d)) (samplePeriod clip) = false ->
        Double.leb (drift c pps (numPixelsOf d))
          (drift c pps' (numPixelsOf d')) = true ->
        GetWaveDisplay self clip channel d' t0' pps'
        = Some (fullRecompute self clip channel d' t0' pps')).
Proof.
  intros Hw Hd.
  assert (Hfull : forall d' t0' pps',
             WaveDisplay.where_ d' = nullptr ->
             Double.ltb (drift c pps' (numPixelsOf d')) (samplePeriod clip)
             = false ->
             GetWaveDisplay self clip channel d' t0' pps'
             = Some (fullRecompute self clip channel d' t0' pps')).
  { intros d' t0' pps' Hd' Hlt.
    apply (GetWaveDisplay_unmatched _ _ _ _ _ _ (Some c)); [exact Hw|exact Hd'|].
    unfold match_, ppsMatch. unfold drift, samplePeriod in Hlt. rewrite Hlt.
    reflexivity. }
  split; [reflexivity|]. split; [reflexivity|].
  split; [apply Hfull; exact Hd|].
  intros d' t0' pps' Hd' Hlt Hle. apply Hfull; [exact Hd'|].
  destruct (Double.ltb (drift c pps' (numPixelsOf d')) (samplePeriod clip))
    eqn:Hlt'; [|reflexivity].
  pose proof (SFleb_ltb_trans _ _ _ Hle Hlt') as Hcontra.
  unfold Double.ltb in Hlt. congruence.
Qed.
End Hits.

(** ** The summary of a run of samples *)

Lemma SFleb_trans (x y z : spec_float) :
  SFleb x y = true -> SFleb y z = true -> SFleb x z = true.
Proof.
  unfold SFleb, SFcompare.
  float_cases x; float_cases y; float_cases z; intros Hxy Hyz;
    try discriminate; try reflexivity; compare_cases.
Qed.

Lemma Float_max_cases (a b : float) :
  notNaN a -> notNaN b ->
  (Float.max a b = a \/ Float.max a b = b)
  /\ Float.leb a (Float.max a b) = true /\ Float.leb b (Float.max a b) = true.
Proof.
  intros Ha Hb. unfold Float.max, Float.leb, Float.ltb.
  destruct (SFltb a b) eqn:Hlt.
  - split; [right; reflexivity|]. split; [apply SFltb_leb; exact Hlt|].
    apply SFleb_refl; exact Hb.
  - split; [left; reflexivity|]. split; [apply SFleb_refl; exact Ha|].
    apply SFleb_total; assumption.
Qed.

Lemma Float_min_cases (a b : float) :
  notNaN a -> notNaN b ->
  (Float.min a b = a \/ Float.min a b = b)
  /\ Float.leb (Float.min a b) a = true /\ Float.leb (Float.min a b) b = true.
Proof.
  intros Ha Hb. unfold Float.min, Float.leb, Float.ltb.
  destruct (SFltb b a) eqn:Hlt.
  - split; [right; reflexivity|]. split; [apply SFltb_leb; exact Hlt|].
    apply SFleb_refl; exact Hb.
  - split; [left; reflexivity|]. split; [apply SFleb_refl; exact Ha|].
    apply SFleb_total; assumption.
Qed.

Lemma fold_max_spec (l : list float) : forall m0,
  notNaN m0 -> Forall notNaN l ->
  isMaximum (fold_left Float.max l m0) (m0 :: l).
Proof.
  induction l as [|v l IH]; intros m0 Hm0 Hl; simpl.
  - split; [left|]. intros x Hx. apply list_elem_of_singleton in Hx as ->.
    apply SFleb_refl; exact Hm0.
  - apply Forall_cons in Hl as [Hv Hl].
    destruct (Float_max_cases m0 v Hm0 Hv) as (Hcase & Hle1 & Hle2).
    assert (Hm1 : notNaN (Float.max m0 v)) by (destruct Hcase as [->| ->]; assumption).
    destruct (IH (Float.max m0 v) Hm1 Hl) as [Hin Hub].
    assert (Htop : Float.leb (Float.max m0 v) (fold_left Float.max l (Float.max m0 v))
                   = true) by (apply Hub; left).
    split.
    + apply elem_of_cons in Hin as [->|Hin].
      * destruct Hcase as [->| ->]; [left|right; left].
      * right; right; exact Hin.
    + intros x Hx. apply elem_of_cons in Hx as [->|Hx].
      * exact (SFleb_trans _ _ _ Hle1 Htop).
      * apply elem_of_cons in Hx as [->|Hx].
        -- exact (SFleb_trans _ _ _ Hle2 Htop).
        -- apply Hub. right; exact Hx.
Qed.

Lemma fold_min_spec (l : list float) : forall m0,
  notNaN m0 -> Forall notNaN l ->
  isMinimum (fold_left Float.min l m0) (m0 :: l).
Proof.
  induction l as [|v l IH]; intros m0 Hm0 Hl; simpl.
  - split; [left|]. intros x Hx. apply list_elem_of_singleton in Hx as ->.
    apply SFleb_refl; exact Hm0.
  - apply Forall_cons in Hl as [Hv Hl].
    destruct (Float_min_cases m0 v Hm0 Hv) as (Hcase & Hle1 & Hle2).
    assert (Hm1 : notNaN (Float.min m0 v)) by (destruct Hcase as [->| ->]; assumption).
    destruct (IH (Float.min m0 v) Hm1 Hl) as [Hin Hlb].
    assert (Hbot : Float.leb (fold_left Float.min l (Float.min m0 v)) (Float.min m0 v)
                   = true) by (apply Hlb; left).
    split.
    + apply elem_of_cons in Hin as [->|Hin].
      * destruct Hcase as [->| ->]; [left|right; left].
      * right; right; exact Hin.
    + intros x Hx. apply elem_of_cons in Hx as [->|Hx].
      * exact (SFleb_trans _ _ _ Hbot Hle1).
      * apply elem_of_cons in Hx as [->|Hx].
        -- exact (SFleb_trans _ _ _ Hbot Hle2).
        -- apply Hlb. right; exact Hx.
Qed.

(** The loop over [j] reads the samples in order. *)
Lemma accumulate_fold (pb : list float) (n : nat) : forall k acc,
  k + n <= length pb ->
  fold_left (accumulate pb) (seq k n) acc
  = fold_left accumulateSample (take n (drop k pb)) acc.
Proof.
  induction n as [|n IH]; intros k acc Hlen; [reflexivity|].
  destruct (lookup_lt_is_Some_2 pb k ltac:(lia)) as [v Hv].
  rewrite (drop_S pb v k Hv). simpl.
  rewrite IH by lia. f_equal.
  unfold accumulate, accumulateSample. destruct acc as [[theMax theMin] sumsq].
  simpl. rewrite (at_f_lookup pb k v Hv). reflexivity.
Qed.

Lemma accumulateSample_fold (l : list float) : forall acc,
  fold_left accumulateSample l acc
  = (fold_left Float.max l acc.1.1, fold_left Float.min l acc.1.2,
     fold_left (fun s v => Float.add s (Float.mul v v)) l acc.2).
Proof.
  induction l as [|v l IH]; intros [[theMax theMin] sumsq]; [reflexivity|].
  simpl. rewrite IH. reflexivity.
Qed.

(** The summary of the samples [pb[0..len)]: its minimum and maximum are
    the true extrema when no sample is a NaN, and its rms is the root of
    the mean of the squares. *)
Lemma summarize_spec (pb : list float) (len : nat) :
  0 < len -> len <= length pb -> Forall notNaN (take len pb) ->
  exists mn mx,
    summarize pb len = (mn, mx, rootMeanSquare (take len pb))
    /\ isMinimum mn (take len pb) /\ isMaximum mx (take len pb).
Proof.
  intros Hpos Hlen Hnan. unfold summarize.
  destruct pb as [|v0 pb]; [simpl in Hlen; lia|].
  destruct len as [|len]; [lia|].
  rewrite accumulate_fold by (simpl in *; lia).
  rewrite accumulateSample_fold.
  replace (S len - 1) with len by lia.
  simpl take in *. simpl drop. change (at_f (v0 :: pb) 0) with v0.
  cbn [fst snd].
  apply Forall_cons in Hnan as [Hv0 Hrest].
  eexists _, _. split; [|split].
  - unfold rootMeanSquare, sumOfSquares. simpl length.
    rewrite length_take. simpl in Hlen.
    replace (len `min` length pb) with len by lia. reflexivity.
  - apply fold_min_spec; assumption.
  - apply fold_max_spec; assumption.
Qed.

(** The same whatever the samples.  The loop reads [pb[0..len)]; the
    minimum and the maximum start from the first sample: a first sample
    that is a NaN stays, a later one is skipped. *)
Lemma accumulate_read (pb : list float) (n : nat) : forall k acc,
  fold_left (accumulate pb) (seq k n) acc
  = fold_left accumulateSample (at_f pb <$> seq k n) acc.
Proof.
  induction n as [|n IH]; intros k acc; [reflexivity|].
  simpl. rewrite IH. f_equal. destruct acc as [[theMax theMin] sumsq].
  reflexivity.
Qed.

Lemma summarize_read (pb : list float) (len : nat) :
  0 < len ->
  exists first rest,
    readSamples pb len = first :: rest
    /\ summarize pb len
       = (fold_left Float.min rest first, fold_left Float.max rest first,
          rootMeanSquare (first :: rest)).
Proof.
  intros Hpos. destruct len as [|len]; [lia|].
  exists (at_f pb 0), (at_f pb <$> seq 1 len). split; [reflexivity|].
  unfold summarize. replace (S len - 1) with len by lia.
  rewrite accumulate_read, accumulateSample_fold. cbn [fst snd].
  unfold rootMeanSquare, sumOfSquares. simpl length.
  rewrite length_fmap, length_seq. reflexivity.
Qed.

Lemma Float_max_nan_r (a : float) : Float.max a S754_nan = a.
Proof. destruct a as [| | |[] ? ?]; reflexivity. Qed.

Lemma Float_min_nan_r (a : float) : Float.min a S754_nan = a.
Proof. reflexivity. Qed.

Lemma fold_max_nan (l : list float) : fold_left Float.max l S754_nan = S754_nan.
Proof. induction l as [|v l IH]; [reflexivity|]. simpl. exact IH. Qed.

Lemma fold_min_nan (l : list float) : fold_left Float.min l S754_nan = S754_nan.
Proof.
  induction l as [|v l IH]; [reflexivity|]. simpl.
  replace (Float.min S754_nan v) with S754_nan; [exact IH|].
  destruct v as [| | |[] ? ?]; reflexivity.
Qed.

Lemma isNaN_false (x : spec_float) : isNaN x = false <-> notNaN x.
Proof. unfold notNaN. destruct x; simpl; split; congruence. Qed.

Lemma numbers_notNaN (l : list float) : Forall notNaN (numbers l).
Proof.
  apply Forall_forall. intros x Hx. apply list_elem_of_In in Hx.
  apply filter_In in Hx as [_ Hx]. apply isNaN_false.
  destruct (isNaN x); [discriminate|reflexivity].
Qed.

Lemma fold_max_numbers (l : list float) : forall m0,
  fold_left Float.max l m0 = fold_left Float.max (numbers l) m0.
Proof.
  induction l as [|v l IH]; intros m0; [reflexivity|].
  simpl. destruct (isNaN v) eqn:Hv; simpl.
  - destruct v; try discriminate. rewrite Float_max_nan_r. apply IH.
  - apply IH.
Qed.

Lemma fold_min_numbers (l : list float) : forall m0,
  fold_left Float.min l m0 = fold_left Float.min (numbers l) m0.
Proof.
  induction l as [|v l IH]; intros m0; [reflexivity|].
  simpl. destruct (isNaN v) eqn:Hv; simpl.
  - destruct v; try discriminate. rewrite Float_min_nan_r. apply IH.
  - apply IH.
Qed.

(** The summary of [pb[0..len)], whatever the samples. *)
Lemma summarize_extrema (pb : list float) (len : nat) :
  0 < len ->
  let samples := readSamples pb len in
  exists mn mx,
    summarize pb len = (mn, mx, rootMeanSquare samples)
    /\ length samples = len
    /\ (forall first, head samples = Some first -> notNaN first ->
        isMinimum mn (numbers samples) /\ isMaximum mx (numbers samples))
    /\ (head samples = Some S754_nan -> mn = S754_nan /\ mx = S754_nan).
Proof.
  intros Hpos samples.
  destruct (summarize_read pb len Hpos) as (first & rest & Hread & Hsum).
  subst samples. rewrite Hsum, Hread.
  eexists _, _. split; [reflexivity|].
  split; [rewrite <- Hread; unfold readSamples;
          rewrite length_fmap, length_seq; reflexivity|].
  split.
  - intros first' [= <-] Hfirst.
    assert (Hn : numbers (first :: rest) = first :: numbers rest).
    { unfold numbers. simpl. apply isNaN_false in Hfirst. rewrite Hfirst.
      reflexivity. }
    rewrite Hn, fold_min_numbers, fold_max_numbers. split.
    + apply fold_min_spec; [exact Hfirst|apply numbers_notNaN].
    + apply fold_max_spec; [exact Hfirst|apply numbers_notNaN].
  - intros [= ->]. rewrite fold_min_nan, fold_max_nan. auto.
Qed.

(** ** The columns of the append buffer *)

Section Appending.
Context {env : Collaborators}.

Lemma didUpdate_true clip channel where_ p0 p1 :
  didUpdate clip channel where_ p0 p1 = true <->
  exists j, firstAppend clip channel where_ p0 p1 <= j < p1
            /\ clipped clip channel where_ j = true.
Proof.
  unfold didUpdate. rewrite existsb_exists. split.
  - intros (j & Hin & Hc). apply in_seq in Hin. exists j. split; [lia|exact Hc].
  - intros (j & Hin & Hc). exists j. split; [apply in_seq; lia|exact Hc].
Qed.

Lemma firstAppend_le_storeEnd clip channel where_ p0 p1 :
  p0 <= p1 ->
  firstAppend clip channel where_ p0 p1 <= storeEnd clip channel where_ p0 p1.
Proof.
  intros Hp. unfold storeEnd.
  pose proof (firstBeyond_range where_ (GetNumSamples (GetSequence clip channel))
                p0 p1 Hp) as Ha.
  fold (firstAppend clip channel where_ p0 p1) in Ha.
  destruct (didUpdate clip channel where_ p0 p1); lia.
Qed.

(** A column of the range with samples in the append buffer is summarized
    from them and is not handed to the durable store. *)
Lemma fetch_append_column clip channel where_ arrays p0 p1 good arrays' called i :
  fetch clip channel where_ arrays p0 p1 = (good, arrays', called) ->
  p0 <= i < p1 -> clipped clip channel where_ i = true ->
  firstAppend clip channel where_ p0 p1 <= i
  /\ storeEnd clip channel where_ p0 p1 = firstAppend clip channel where_ p0 p1
  /\ column arrays' i
     = written (appendSummary clip channel where_ i) (column arrays i)
  /\ ~ covered called i.
Proof.
  intros Hf Hi Hc.
  assert (Ha : firstAppend clip channel where_ p0 p1 <= i).
  { apply clipped_after_firstBeyond; assumption. }
  assert (Hdu : didUpdate clip channel where_ p0 p1 = true).
  { apply didUpdate_true. exists i. split; [lia|exact Hc]. }
  assert (He : storeEnd clip channel where_ p0 p1
               = firstAppend clip channel where_ p0 p1).
  { unfold storeEnd. rewrite Hdu. reflexivity. }
  destruct (fetch_spec clip channel where_ arrays p0 p1 ltac:(lia))
    as (good1 & arr1 & Heq & _ & _ & Hcol).
  rewrite Heq in Hf. injection Hf as <- <- <-.
  split; [exact Ha|]. split; [exact He|]. split.
  - rewrite Hcol by (rewrite He; lia).
    rewrite (bool_decide_eq_true_2 (_ <= i < p1)) by lia.
    rewrite Hc. reflexivity.
  - intros (p & n & Hin & Hcov). rewrite He in Hin.
    destruct (p0 <? firstAppend clip channel where_ p0 p1) eqn:Hlt.
    + apply list_elem_of_singleton in Hin. injection Hin as -> ->.
      apply Nat.ltb_lt in Hlt. lia.
    + inversion Hin.
Qed.

(** C4, as the code has it.  In a recompute range [p0, p1) that is not
    empty, let [a] be the first column that ends beyond the committed
    sample count ([p1] if there is none).  The columns before [a] are handed
    to the durable store.  Every column of the range whose part in the
    append buffer is not empty lies at or after [a] and is summarized from
    the append buffer, a column that straddles the committed count
    included, and is not handed to the durable store; the loop visits all
    of [a, p1).  The durable store is called at most once, for [p0, a) when
    some column was summarized from the append buffer and for [p0, p1)
    otherwise: one contiguous range. *)
Theorem C4_append_buffer_partition clip channel where_ arrays p0 p1
    good arrays' called :
  fetch clip channel where_ arrays p0 p1 = (good, arrays', called) ->
  p0 < p1 ->
  let committed := GetNumSamples (GetSequence clip channel) in
  let a := firstAppend clip channel where_ p0 p1 in
  let e := storeEnd clip channel where_ p0 p1 in
  p0 <= a <= p1
  /\ (forall i, p0 <= i < a -> (at_Z where_ (i + 1) <= committed)%Z)
  /\ (a < p1 -> (at_Z where_ (a + 1) > committed)%Z)
  /\ (forall i, p0 <= i < a -> covered called i)
  /\ (forall i, p0 <= i < p1 -> clipped clip channel where_ i = true ->
      a <= i
      /\ column arrays' i
         = written (appendSummary clip channel where_ i) (column arrays i)
      /\ ~ covered called i)
  /\ called = (if p0 <? e then [(p0, e - p0)] else [])
  /\ ((exists j, a <= j < p1 /\ clipped clip channel where_ j = true) -> e = a)
  /\ ((forall j, a <= j < p1 -> clipped clip channel where_ j = false) -> e = p1).
Proof.
  intros Hf Hp committed a e.
  assert (Ha : p0 <= a <= p1) by (apply firstBeyond_range; lia).
  assert (Hae : a <= e) by (apply firstAppend_le_storeEnd; lia).
  destruct (fetch_spec clip channel where_ arrays p0 p1 Hp)
    as (good1 & arr1 & Heq & _ & _ & _).
  fold e in Heq. rewrite Heq in Hf. injection Hf as <- <- Hcalled.
  split; [exact Ha|].
  split; [intros i Hi; apply (firstBeyond_before where_ committed p0 p1 i Hi)|].
  split; [intros Hlt; apply firstBeyond_stop; exact Hlt|].
  split.
  { intros i Hi. exists p0, (e - p0). split; [|lia].
    rewrite <- Hcalled. rewrite (proj2 (Nat.ltb_lt p0 e)) by lia. left. }
  split.
  { intros i Hi Hc.
    destruct (fetch_append_column clip channel where_ arrays p0 p1 good1 arr1
                called i) as (H1 & _ & H3 & H4); [|exact Hi|exact Hc|auto].
    rewrite Heq, Hcalled. reflexivity. }
  split; [symmetry; exact Hcalled|].
  split.
  - intros Hex. apply didUpdate_true in Hex. unfold e, storeEnd. rewrite Hex.
    reflexivity.
  - intros Hall. unfold e, storeEnd.
    destruct (didUpdate clip channel where_ p0 p1) eqn:Hdu; [|reflexivity].
    apply didUpdate_true in Hdu as (j & Hj & Hc). rewrite Hall in Hc by exact Hj.
    discriminate.
Qed.
End Appending.

(** ** Requests that replace the entry *)

Section Replaced.
Context {env : Collaborators}.

(** A request without caller buffers that is not an exact hit: the entry
    it installs is the new entry after the fill loop. *)
Lemma GetWaveDisplay_replaced self clip channel d t0 pps w :
  mWaveCaches self !! channel = Some w ->
  WaveDisplay.where_ d = nullptr ->
  exactHit w (timePerPixel pps) (numPixelsOf d) (GetRate clip)
    (mDirty self) (origin clip t0) = false ->
  let r := requestReuse self clip d t0 pps w in
  let wh := requestWhere self clip d t0 pps w in
  let range := requestRange self clip d t0 pps w in
  exists e good arrays called,
    fetch clip channel wh (copyOld r (zeroArrays (numPixelsOf d)))
      range.1 range.2 = (good, arrays, called)
    /\ GetWaveDisplay self clip channel d t0 pps
       = Some (rebuilt self channel d
                 {| ok := good; cache := install self channel e;
                    display := if good then report d channel else d;
                    calls := called |})
    /\ mWaveCaches (install self channel e) !! channel = Some (Some e)
    /\ WaveCache.where_ e = wh
    /\ arraysOf e = arrays
    /\ WaveCache.len e = numPixelsOf d.
Proof.
  intros Hw Hd Hhit r wh range.
  rewrite (GetWaveDisplay_unallocated self clip channel d t0 pps w Hw Hd), Hhit.
  destruct (replaceEntry_unfold self clip channel d (origin clip t0) pps w)
    as (entry & good & arrays & called & Hentry & Hf & Heq).
  fold (samplesPerPixelOf clip pps) in Hentry, Hf.
  fold (requestReuse self clip d t0 pps w) in Hentry, Hf. fold r in Hentry, Hf.
  fold (requestRange self clip d t0 pps w) in Hf. fold range in Hf.
  assert (Hwh : WaveCache.where_ entry = wh) by (rewrite Hentry; reflexivity).
  assert (Harr : arraysOf entry = zeroArrays (numPixelsOf d))
    by (rewrite Hentry; reflexivity).
  assert (Hlen : WaveCache.len entry = numPixelsOf d)
    by (rewrite Hentry; reflexivity).
  clear Hentry. rewrite Hwh, Harr in Hf.
  exists (WaveCache.with_arrays entry (a_min arrays) (a_max arrays) (a_rms arrays)),
    good, arrays, called.
  split; [exact Hf|]. split; [rewrite Heq; reflexivity|].
  split.
  { simpl. apply list_lookup_insert_eq. apply lookup_lt_is_Some_1. eauto. }
  split; [exact Hwh|]. split; [destruct arrays; reflexivity|exact Hlen].
Qed.

Lemma requestRange_bounds self clip d t0 pps w :
  (requestRange self clip d t0 pps w).2 <= numPixelsOf d.
Proof.
  unfold requestRange, recomputeRange.
  pose proof (reuse_bounds w
                (match_ w (timePerPixel pps) (numPixelsOf d) (GetRate clip)
                   (mDirty self))
                (numPixelsOf d) (origin clip t0) (GetRate clip)
                (samplesPerPixelOf clip pps)) as [Hb He].
  fold (requestReuse self clip d t0 pps w) in Hb, He. simpl.
  destruct (_ <=? _); lia.
Qed.

Lemma written_column v arrays i :
  i < length (a_min arrays) -> i < length (a_max arrays) ->
  i < length (a_rms arrays) ->
  written v (column arrays i) = (Some v.1.1, Some v.1.2, Some v.2).
Proof.
  intros H1 H2 H3. unfold written, column. simpl.
  destruct (lookup_lt_is_Some_2 _ _ H1) as [x1 ->].
  destruct (lookup_lt_is_Some_2 _ _ H2) as [x2 ->].
  destruct (lookup_lt_is_Some_2 _ _ H3) as [x3 ->]. reflexivity.
Qed.

Lemma clipped_len_pos clip channel where_ i :
  clipped clip channel where_ i = true -> 0 < clippedLen clip channel where_ i.
Proof. unfold clipped, clippedLen. lia. Qed.

(** A request with caller buffers computes all its columns into them,
    and returns. *)
Lemma GetWaveDisplay_allocated self clip channel d t0 pps w x :
  mWaveCaches self !! channel = Some w ->
  allocated d = true ->
  GetWaveDisplay self clip channel d t0 pps = Some x ->
  exists good arrays called,
    fetch clip channel (WaveDisplay.ownWhere d) (ownArrays d) 0
      (numPixelsOf d) = (good, arrays, called)
    /\ x = Returns {| ok := good; cache := self; display := withOwn d arrays;
                      calls := called |}
    /\ (0 < numPixelsOf d ->
        WaveDisplay.min d = toOwn /\ WaveDisplay.max d = toOwn
        /\ WaveDisplay.rms d = toOwn).
Proof.
  intros Hw Ha. unfold GetWaveDisplay. rewrite Hw. simpl.
  unfold allocated in Ha. rewrite Ha.
  destruct (_ || _) eqn:Hown; [|discriminate].
  destruct (fetch _ _ _ _ _ _) as [[good arrays] called].
  intros [= <-]. exists good, arrays, called.
  split; [reflexivity|]. split; [reflexivity|].
  intros Hpos. apply orb_prop in Hown as [Hzero|Hown];
    [apply Nat.eqb_eq in Hzero; lia|].
  apply andb_prop in Hown as [Hown H3]. apply andb_prop in Hown as [H1 H2].
  destruct (WaveDisplay.min d), (WaveDisplay.max d), (WaveDisplay.rms d);
    try discriminate; auto.
Qed.

Lemma withOwn_ownArrays d : withOwn d (ownArrays d) = d.
Proof. destruct d; reflexivity. Qed.

(** C5, as the code has it.  On any request that returns, every column of
    the range it computes whose part in the append buffer is not empty (so
    every column that lies wholly beyond the committed count and meets the
    buffer) gets its summary from the samples read from the append buffer,
    and the durable store is not called for that column.  The rms is the
    root of the mean of the squares of these samples, in single precision
    and in the order of the buffer.  The minimum and the maximum are
    computed from the first sample on: when it is a number they are the
    true extrema of the samples that are numbers; when it is a NaN both
    are NaN.  With float storage the samples are those the buffer holds
    from the clipped start on; with another storage they are what
    [SamplesToFloats] makes of the buffer from the clipped start on. *)
Theorem C5_append_buffer_precedence self clip channel d t0 pps w o i :
  mWaveCaches self !! channel = Some w ->
  GetWaveDisplay self clip channel d t0 pps = Some (Returns o) ->
  (allocated d = true -> ownSized d) ->
  let wh := computedWhere self clip d t0 pps w in
  let samples := clippedSamples clip channel wh i in
  let sLeft :=
    Z.to_nat (clipLeft wh (GetNumSamples (GetSequence clip channel)) i) in
  (computedRange self clip d t0 pps w).1 <= i
    < (computedRange self clip d t0 pps w).2 ->
  clipped clip channel wh i = true ->
  exists mn mx,
    computedColumn o d channel i = (Some mn, Some mx, Some (rootMeanSquare samples))
    /\ length samples = clippedLen clip channel wh i
    /\ 0 < length samples
    /\ (forall first, head samples = Some first -> notNaN first ->
        isMinimum mn (numbers samples) /\ isMaximum mx (numbers samples))
    /\ (head samples = Some S754_nan -> mn = S754_nan /\ mx = S754_nan)
    /\ (Stored (GetSequence clip channel) = floatSample ->
        forall j x, j < length samples ->
          GetAppendBuffer clip channel !! (sLeft + j) = Some x ->
          samples !! j = Some (asFloat x))
    /\ (Stored (GetSequence clip channel) <> floatSample ->
        samples
        = readSamples
            (SamplesToFloats (Stored (GetSequence clip channel))
               (drop sLeft (GetAppendBuffer clip channel)) (length samples))
            (length samples))
    /\ ~ covered (calls o) i.
Proof.
  intros Hw Hget Hsized wh samples sLeft Hi Hc.
  pose proof (clipped_len_pos clip channel wh i Hc) as Hpos.
  destruct (summarize_extrema (clippedFloats clip channel wh i)
              (clippedLen clip channel wh i) Hpos)
    as (mn & mx & Hsum & Hlen & Hnum & Hnan).
  fold (clippedSamples clip channel wh i) in Hsum, Hlen, Hnum, Hnan.
  fold samples in Hsum, Hlen, Hnum, Hnan.
  assert (Hfloat : Stored (GetSequence clip channel) = floatSample ->
            forall j x, j < length samples ->
              GetAppendBuffer clip channel !! (sLeft + j) = Some x ->
              samples !! j = Some (asFloat x)).
  { intros Hfmt j x Hj Hx. rewrite Hlen in Hj.
    unfold samples, clippedSamples, readSamples.
    rewrite list_lookup_fmap, lookup_seq_lt by exact Hj. simpl. f_equal.
    apply at_f_lookup. unfold clippedFloats, appendFloats. rewrite Hfmt. simpl.
    rewrite list_lookup_fmap, lookup_drop. fold sLeft. rewrite Hx. reflexivity. }
  assert (Hother : Stored (GetSequence clip channel) <> floatSample ->
            samples
            = readSamples
                (SamplesToFloats (Stored (GetSequence clip channel))
                   (drop sLeft (GetAppendBuffer clip channel)) (length samples))
                (length samples)).
  { intros Hfmt. rewrite Hlen.
    unfold samples, clippedSamples, clippedFloats, appendFloats. fold sLeft.
    destruct (Stored (GetSequence clip channel)); [reflexivity..|congruence]. }
  exists mn, mx. unfold computedColumn, computedRange, computedWhere in *.
  destruct (allocated d) eqn:Ha.
  - destruct (GetWaveDisplay_allocated self clip channel d t0 pps w _ Hw Ha Hget)
      as (good & arrays & called & Hf & [= ->] & _).
    destruct (Hsized eq_refl) as (Hs1 & Hs2 & Hs3). simpl in Hi.
    destruct (fetch_append_column clip channel wh _ _ _ good arrays called i
                Hf Hi Hc) as (_ & _ & Hcol & Hncov).
    rewrite written_column in Hcol by (simpl; lia).
    unfold appendSummary in Hcol. rewrite Hsum in Hcol.
    split; [destruct arrays; exact Hcol|]. split; [exact Hlen|].
    split; [lia|]. split; [exact Hnum|]. split; [exact Hnan|].
    split; [exact Hfloat|]. split; [exact Hother|exact Hncov].
  - assert (Hd : WaveDisplay.where_ d = nullptr).
    { unfold allocated in Ha. destruct (WaveDisplay.where_ d); [reflexivity|..];
        discriminate. }
    destruct (exactHit _ _ _ _ _ _) eqn:Hhit; [simpl in Hi; lia|].
    destruct (GetWaveDisplay_replaced self clip channel d t0 pps w Hw Hd Hhit)
      as (e & good & arrays & called & Hf & Hget' & Hlook & Hwh & Harr & Hlen').
    rewrite Hget' in Hget. injection Hget as Hget.
    apply rebuilt_returns in Hget as [_ <-]. cbn [cache calls].
    rewrite Hlook.
    destruct (fetch_append_column clip channel wh _ _ _ good arrays called i
                Hf Hi Hc) as (_ & _ & Hcol & Hncov).
    pose proof (requestRange_bounds self clip d t0 pps w) as Hp1.
    pose proof (copyOld_length (requestReuse self clip d t0 pps w)
                  (zeroArrays (numPixelsOf d))) as (Hl1 & Hl2 & Hl3).
    simpl in Hl1, Hl2, Hl3. rewrite length_replicate in Hl1, Hl2, Hl3.
    rewrite written_column in Hcol by lia.
    unfold appendSummary in Hcol. rewrite Hsum in Hcol.
    split; [unfold entryColumn; rewrite Harr; exact Hcol|].
    split; [exact Hlen|]. split; [lia|]. split; [exact Hnum|].
    split; [exact Hnan|]. split; [exact Hfloat|]. split; [exact Hother|exact Hncov].
Qed.
End Replaced.

(** ** Copying from the old entry *)

Section Copying.
Context {env : Collaborators}.

(** What is kept of a matching entry once [findCorrection] gave [x0], when
    the [int] computations stay in range. *)
Lemma reuse_matched c n t0 rate spp x0 corr :
  findCorrection (WaveCache.where_ c) (WaveCache.len c) n t0 (Double.of_Z rate) spp
  = (x0, corr) ->
  (- 2 ^ 31 < x0 < 2 ^ 31)%Z ->
  (Z.of_nat (WaveCache.len c) < 2 ^ 31)%Z ->
  (Z.of_nat (WaveCache.len c) - x0 < 2 ^ 31)%Z ->
  let cBegin := Nat.min n (Z.to_nat (Z.max 0 (- x0))) in
  let cEnd := Nat.min n (Z.to_nat (Z.max 0 (Z.of_nat (WaveCache.len c) - x0))) in
  reuse (Some c) true n t0 rate spp
  = {| oldCache := if cBegin <? cEnd then Some c else None;
       oldX0 := x0; correction := corr; copyBegin := cBegin; copyEnd := cEnd |}.
Proof.
  intros Hfind Hx0 Hlen Hdiff cBegin cEnd. unfold reuse. rewrite Hfind.
  rewrite (int32_small (- x0)) by lia.
  rewrite (int32_small (Z.of_nat (WaveCache.len c))) by lia.
  rewrite (int32_small (Z.of_nat (WaveCache.len c) - x0)) by lia.
  reflexivity.
Qed.

(** The copy is element-wise: column [i] of the copy range receives column
    [i + oldX0] of the old entry. *)
Lemma copyOld_column c x0 corr cBegin cEnd n i :
  cBegin = Nat.min n (Z.to_nat (Z.max 0 (- x0))) ->
  cEnd = Nat.min n (Z.to_nat (Z.max 0 (Z.of_nat (WaveCache.len c) - x0))) ->
  (- 2 ^ 31 < x0 < 2 ^ 31)%Z ->
  length (WaveCache.min c) = WaveCache.len c ->
  length (WaveCache.max c) = WaveCache.len c ->
  length (WaveCache.rms c) = WaveCache.len c ->
  cBegin <= i < cEnd ->
  column
    (copyOld {| oldCache := if cBegin <? cEnd then Some c else None;
                oldX0 := x0; correction := corr;
                copyBegin := cBegin; copyEnd := cEnd |} (zeroArrays n)) i
  = entryColumn c (Z.to_nat (Z.of_nat i + x0)).
Proof.
  intros HcB HcE Hx0 Hmin Hmax Hrms Hi.
  unfold copyOld. simpl oldCache.
  rewrite (proj2 (Nat.ltb_lt cBegin cEnd)) by lia.
  simpl copyBegin. simpl copyEnd. simpl oldX0.
  rewrite (int32_small (Z.of_nat cBegin)) by lia.
  rewrite (int32_small (Z.of_nat cBegin + x0)) by lia.
  unfold column, entryColumn, arraysOf, zeroArrays. simpl.
  rewrite !memcpy_lookup_inside by (rewrite ?length_replicate; lia).
  replace (Z.to_nat (Z.of_nat cBegin + x0) + (i - cBegin))
    with (Z.to_nat (Z.of_nat i + x0)) by lia.
  reflexivity.
Qed.

End Copying.

(** ** The claims on explicit requests *)

(** Arithmetic on the number of pixels of an explicit display. *)
Ltac pixels :=
  repeat match goal with
         | |- context [numPixelsOf ?d] =>
             let n := eval vm_compute in (numPixelsOf d) in
             change (numPixelsOf d) with n
         end;
  simpl; lia.

(** A request for a display of width -1 on a manager just constructed:
    the number of pixels is 2^64 - 1, no entry of that length is built, and
    the call leaves by the exception with the entry pointer null. *)
Lemma negative_width_request :
  GetWaveDisplay (construct 1) Demo.clip0 0 (WaveDisplay.fresh (-1)) Double.zero
    (Double.of_Z 100)
  = Some (Throws (release (construct 1) 0)).
Proof.
  rewrite (GetWaveDisplay_unallocated (env := Demo.collaborators) (construct 1)
             Demo.clip0 0 (WaveDisplay.fresh (-1)) Double.zero (Double.of_Z 100)
             (Some WaveCache.empty) eq_refl eq_refl).
  rewrite exactHit_unmatched
    by (apply match_stale; intros c [= <-]; left; reflexivity).
  unfold rebuilt. rewrite constructs_negative by (simpl; lia). reflexivity.
Qed.

Lemma negative_width_reachable : reachable 1 (release (construct 1) 0).
Proof.
  change (release (construct 1) 0)
    with (cacheAfter (Throws (release (construct 1) 0))).
  apply (reach_GetWaveDisplay 1 Demo.collaborators (construct 1) Demo.clip0 0
           (WaveDisplay.fresh (-1)) Double.zero (Double.of_Z 100));
    [apply reach_construct|exact negative_width_request].
Qed.

(** C10 as stated does not hold.  A manager is constructed for one
    channel: its entry pointer is not null.  A request without caller
    buffers for a display of width -1 asks for 2^64 - 1 pixels; line 121
    moves the old entry out, line 141 cannot build an entry of that length
    and throws, and the call leaves with the entry pointer of the channel
    null: a cache that the operations produce has a null entry pointer. *)
Lemma C10_counterexample :
  mWaveCaches (construct 1) !! 0 = Some (Some WaveCache.empty)
  /\ WaveDisplay.width (WaveDisplay.fresh (-1)) = (-1)%Z
  /\ Z.of_nat (numPixelsOf (WaveDisplay.fresh (-1))) = (2 ^ 64 - 1)%Z
  /\ GetWaveDisplay (construct 1) Demo.clip0 0 (WaveDisplay.fresh (-1)) Double.zero
       (Double.of_Z 100)
     = Some (Throws (release (construct 1) 0))
  /\ reachable 1 (release (construct 1) 0)
  /\ mWaveCaches (release (construct 1) 0) !! 0 = Some None.
Proof.
  split; [reflexivity|]. split; [reflexivity|]. split.
  { change (numPixelsOf (WaveDisplay.fresh (-1))) with (to_size_t (-1)).
    rewrite to_size_t_negative by lia. lia. }
  split; [exact negative_width_request|].
  split; [exact negative_width_reachable|reflexivity].
Qed.

(** After the two requests that made [failed], both of which returned, the
    entry pointer is not null; after the request of width -1 it is null,
    and [Invalidate] makes it non-null again. *)
Lemma C10_entries_null_only_by_exception_witness :
  (forall channel, channel < 1 ->
     exists c, mWaveCaches (cache Demo.failed) !! channel = Some (Some c))
  /\ (forall channel, channel < 1 ->
        exists c, mWaveCaches (Invalidate (release (construct 1) 0)) !! channel
                  = Some (Some c))
  /\ mWaveCaches (release (construct 1) 0) !! 0 = Some None
  /\ constructs (env := Demo.collaborators)
       (numPixelsOf (WaveDisplay.fresh (-1))) = false.
Proof.
  destruct (C10_entries_null_only_by_exception 1)
    as (Hreturned & Hreach & Hcall & Hnegative).
  split; [|split; [|split]].
  - apply (Hreturned (cache Demo.failed)).
    apply (ret_GetWaveDisplay 1 Demo.collaborators Demo.filled Demo.brokenClip 0
             (WaveDisplay.fresh 4) Demo.later (Double.of_Z 100) Demo.failed);
      [|vm_compute; reflexivity].
    change Demo.filled with (cache Demo.firstOutcome).
    apply (ret_GetWaveDisplay 1 Demo.collaborators (construct 1) Demo.clip0 0
             (WaveDisplay.fresh 4) Double.zero (Double.of_Z 100)
             Demo.firstOutcome);
      [apply ret_construct|vm_compute; reflexivity].
  - apply (Hreach (release (construct 1) 0) negative_width_reachable).
  - apply (Hcall Demo.collaborators (construct 1) Demo.clip0 0
             (WaveDisplay.fresh (-1)) Double.zero (Double.of_Z 100)
             (Some WaveCache.empty) (Throws (release (construct 1) 0))
             eq_refl negative_width_request).
  - apply (Hnegative Demo.collaborators (WaveDisplay.fresh (-1))). simpl. lia.
Defined.

(** C1 as stated does not hold.  The cache holds a good entry of 4 columns;
    a request at a later origin, on a clip whose durable store fails, fails,
    and afterwards the entry of the channel is no longer that entry. *)
Lemma C1_counterexample :
  WaveDisplay.where_ (WaveDisplay.fresh 4) = nullptr
  /\ mWaveCaches Demo.filled !! 0 = Some (Some Demo.entry0)
  /\ (forall len where_,
        (SequenceGetWaveDisplay (GetSequence Demo.brokenClip 0) len where_).1
        = false)
  /\ ok <$> (GetWaveDisplay Demo.filled Demo.brokenClip 0 (WaveDisplay.fresh 4)
               Demo.later (Double.of_Z 100) ≫= outcomeOf) = Some false
  /\ (GetWaveDisplay Demo.filled Demo.brokenClip 0 (WaveDisplay.fresh 4)
        Demo.later (Double.of_Z 100)
      ≫= fun x => mWaveCaches (cacheAfter x) !! 0) <> Some (Some Demo.entry0).
Proof.
  split; [reflexivity|]. split; [reflexivity|]. split; [reflexivity|].
  split; [vm_compute; reflexivity|].
  vm_compute. intros Heq. discriminate Heq.
Qed.

Lemma C1_failure_leaves_new_entry_witness :
  exists e p n,
    cache Demo.failed = install Demo.filled 0 e
    /\ WaveCache.len e = 4
    /\ WaveCache.start e = origin Demo.brokenClip Demo.later
    /\ WaveCache.pps e = Double.of_Z 100
    /\ WaveCache.rate e = 44100%Z
    /\ WaveCache.dirty e = mDirty Demo.filled
    /\ display Demo.failed = WaveDisplay.fresh 4
    /\ calls Demo.failed = [(p, n)]
    /\ (SequenceGetWaveDisplay (GetSequence Demo.brokenClip 0) n
          (drop p (WaveCache.where_ e))).1 = false.
Proof.
  apply (C1_failure_leaves_new_entry (env := Demo.collaborators) Demo.filled
           Demo.brokenClip 0 (WaveDisplay.fresh 4) Demo.later (Double.of_Z 100)
           Demo.failed);
    [reflexivity|vm_compute; reflexivity|reflexivity].
Defined.

(** C9 as stated does not hold.  The cache holds a good entry of 4 columns;
    a request of width 0 at a later origin succeeds, and afterwards the
    entry of the channel is an entry of length 0. *)
Lemma C9_counterexample :
  WaveDisplay.width (WaveDisplay.fresh 0) = 0%Z
  /\ WaveDisplay.where_ (WaveDisplay.fresh 0) = nullptr
  /\ mWaveCaches Demo.filled !! 0 = Some (Some Demo.entry0)
  /\ WaveCache.len Demo.entry0 = 4
  /\ ok <$> (GetWaveDisplay Demo.filled Demo.clip0 0 (WaveDisplay.fresh 0)
               Demo.later (Double.of_Z 100) ≫= outcomeOf) = Some true
  /\ (GetWaveDisplay Demo.filled Demo.clip0 0 (WaveDisplay.fresh 0)
        Demo.later (Double.of_Z 100)
      ≫= fun x => mWaveCaches (cacheAfter x) !! 0) <> Some (Some Demo.entry0)
  /\ (GetWaveDisplay Demo.filled Demo.clip0 0 (WaveDisplay.fresh 0)
        Demo.later (Double.of_Z 100)
      ≫= fun x => mWaveCaches (cacheAfter x) !! 0
      ≫= fun w => WaveCache.len <$> w) = Some 0.
Proof.
  do 4 (split; [reflexivity|]). split; [vm_compute; reflexivity|].
  split; [|vm_compute; reflexivity].
  vm_compute. intros Heq. discriminate Heq.
Qed.

Lemma C9_zero_width_witness :
  exists o,
    GetWaveDisplay Demo.filled Demo.clip0 0 (WaveDisplay.fresh 0) Demo.later
      (Double.of_Z 100) = Some (Returns o)
    /\ ok o = true
    /\ calls o = []
    /\ display o = report (WaveDisplay.fresh 0) 0
    /\ mDirty (cache o) = mDirty Demo.filled
    /\ (exactHit (Some Demo.entry0) (timePerPixel (Double.of_Z 100)) 0
          (GetRate Demo.clip0) (mDirty Demo.filled)
          (origin Demo.clip0 Demo.later) = true -> cache o = Demo.filled)
    /\ (exactHit (Some Demo.entry0) (timePerPixel (Double.of_Z 100)) 0
          (GetRate Demo.clip0) (mDirty Demo.filled)
          (origin Demo.clip0 Demo.later) = false ->
        exists e,
          cache o = install Demo.filled 0 e
          /\ WaveCache.len e = 0
          /\ WaveCache.min e = [] /\ WaveCache.max e = [] /\ WaveCache.rms e = []
          /\ WaveCache.start e = origin Demo.clip0 Demo.later
          /\ WaveCache.pps e = Double.of_Z 100
          /\ WaveCache.rate e = GetRate Demo.clip0
          /\ WaveCache.dirty e = mDirty Demo.filled).
Proof.
  apply (C9_zero_width (env := Demo.collaborators) Demo.filled Demo.clip0 0
           (WaveDisplay.fresh 0) Demo.later (Double.of_Z 100) (Some Demo.entry0));
    [reflexivity|reflexivity|reflexivity|intros _; reflexivity].
Defined.

Lemma C8_markChanged_invalidates_witness :
  mDirty (MarkChanged Demo.filled) = (mDirty Demo.filled + 1)%Z
  /\ mWaveCaches (MarkChanged Demo.filled) = mWaveCaches Demo.filled
  /\ ppsMatch (Some Demo.entry0) (timePerPixel (Double.of_Z 100)) 4 44100 = true
  /\ exactHit (Some Demo.entry0) (timePerPixel (Double.of_Z 100)) 4 44100
       (mDirty (MarkChanged Demo.filled)) (origin Demo.clip0 Double.zero) = false
  /\ GetWaveDisplay (MarkChanged Demo.filled) Demo.clip0 0 (WaveDisplay.fresh 4)
       Double.zero (Double.of_Z 100)
     = Some (fullRecompute (MarkChanged Demo.filled) Demo.clip0 0
               (WaveDisplay.fresh 4) Double.zero (Double.of_Z 100)).
Proof.
  apply (C8_markChanged_invalidates (env := Demo.collaborators) Demo.filled
           Demo.clip0 0 (WaveDisplay.fresh 4) Double.zero (Double.of_Z 100)
           Demo.entry0);
    [reflexivity|reflexivity|simpl; lia|vm_compute; reflexivity].
Defined.

Lemma C2_exact_hit_witness :
  exists o,
    GetWaveDisplay Demo.filled Demo.clip0 0 (WaveDisplay.fresh 4) Double.zero
      (Double.of_Z 100) = Some (Returns o)
    /\ ok o = true
    /\ cache o = Demo.filled
    /\ pointsToCache (display o) 0
    /\ mWaveCaches (cache o) !! 0 = Some (Some Demo.entry0)
    /\ calls o = []
    /\ GetWaveDisplay (cache o) Demo.clip0 0 (WaveDisplay.fresh 4) Double.zero
         (Double.of_Z 100) = Some (Returns o).
Proof.
  apply (C2_exact_hit (env := Demo.collaborators) Demo.filled Demo.clip0 0
           (WaveDisplay.fresh 4) Double.zero (Double.of_Z 100) Demo.entry0);
    [reflexivity|reflexivity|vm_compute; reflexivity|simpl; lia|reflexivity
    |vm_compute; reflexivity|vm_compute; lia].
Defined.

(** At 64 pixels per second the entry made at 100 is above the threshold:
    the request is recomputed in full. *)
Lemma C6_zoom_match_test_witness :
  ppsMatch (Some Demo.entry0) (timePerPixel (Double.of_Z 64)) 4 44100 = false
  /\ GetWaveDisplay Demo.filled Demo.clip0 0 (WaveDisplay.fresh 4) Double.zero
       (Double.of_Z 64)
     = Some (fullRecompute Demo.filled Demo.clip0 0 (WaveDisplay.fresh 4)
               Double.zero (Double.of_Z 64)).
Proof.
  destruct (C6_zoom_match_test (env := Demo.collaborators) Demo.filled Demo.clip0 0
              (WaveDisplay.fresh 4) Double.zero (Double.of_Z 64) Demo.entry0
              eq_refl eq_refl) as (Htest & _ & Hfull & _).
  split.
  - etransitivity; [exact Htest|]. vm_compute. reflexivity.
  - apply Hfull. vm_compute. reflexivity.
Defined.

(** C4 as stated does not hold.  Two columns [0, 8) and [8, 16) are
    requested from a clip with 10 committed samples and 20 samples in its
    append buffer.  Column 1 straddles the committed count, yet it is
    summarized from the append buffer (all of whose samples are 1/8) and
    the durable store is asked for column 0 only. *)
Lemma C4_counterexample :
  (GetWaveDisplay (construct 1) Demo.recording 0 (WaveDisplay.fresh 2)
     Double.zero (Double.of_Z 100)
   ≫= fun x => mWaveCaches (cacheAfter x) !! 0
   ≫= fun w => WaveCache.where_ <$> w) = Some Demo.grid
  /\ GetNumSamples (GetSequence Demo.recording 0) = 10%Z
  /\ (at_Z Demo.grid 1 < 10 < at_Z Demo.grid 2)%Z
  /\ calls <$> (GetWaveDisplay (construct 1) Demo.recording 0 (WaveDisplay.fresh 2)
                  Double.zero (Double.of_Z 100) ≫= outcomeOf) = Some [(0, 1)]
  /\ (GetWaveDisplay (construct 1) Demo.recording 0 (WaveDisplay.fresh 2)
        Double.zero (Double.of_Z 100)
      ≫= fun x => mWaveCaches (cacheAfter x) !! 0
      ≫= fun w => (fun e => entryColumn e 1) <$> w)
     = Some (Some Demo.eighth, Some Demo.eighth, Some Demo.eighth).
Proof.
  split; [vm_compute; reflexivity|]. split; [reflexivity|].
  split; [vm_compute; split; reflexivity|].
  split; vm_compute; reflexivity.
Qed.

Lemma C4_append_buffer_partition_witness :
  firstAppend Demo.recording 0 Demo.grid 0 2 = 1
  /\ covered Demo.recorded.2 0
  /\ ~ covered Demo.recorded.2 1
  /\ column Demo.recorded.1.2 1
     = written (appendSummary Demo.recording 0 Demo.grid 1)
         (column (zeroArrays 2) 1)
  /\ Demo.recorded.2 = [(0, 1)].
Proof.
  destruct (C4_append_buffer_partition (env := Demo.collaborators)
              Demo.recording 0 Demo.grid (zeroArrays 2) 0 2
              Demo.recorded.1.1 Demo.recorded.1.2 Demo.recorded.2)
    as (_ & _ & _ & Hdeferred & Happend & Hcalled & _);
    [vm_compute; reflexivity|lia|].
  assert (Ha : firstAppend Demo.recording 0 Demo.grid 0 2 = 1)
    by (vm_compute; reflexivity).
  destruct (Happend 1 ltac:(lia) ltac:(vm_compute; reflexivity))
    as (_ & Hcol & Hncov).
  split; [exact Ha|]. split; [apply Hdeferred; rewrite Ha; lia|].
  split; [exact Hncov|]. split; [exact Hcol|].
  rewrite Hcalled. vm_compute. reflexivity.
Defined.

(** C5 as stated does not hold.  Two columns [0, 8) and [8, 16) are
    requested from a clip with 8 committed samples and 20 samples in its
    append buffer, the first of which is not a number.  Column 1 lies
    wholly beyond the committed count and its samples are the first 8 of
    the buffer: NaN, 1/2, -3/4 and five times 1/8.  It is summarized from
    the append buffer and the durable store is asked for column 0 only,
    but its minimum and its maximum are both NaN: no extremum, as the NaN
    is neither at least 1/2 nor at most -3/4.  With the first two samples
    of the buffer exchanged the same request gives -3/4 and 1/2: what is
    returned depends on the order of the samples. *)
Lemma C5_counterexample :
  (GetWaveDisplay (construct 1) Demo.noisy 0 (WaveDisplay.fresh 2)
     Double.zero (Double.of_Z 100)
   ≫= fun x => mWaveCaches (cacheAfter x) !! 0
   ≫= fun w => WaveCache.where_ <$> w) = Some Demo.grid
  /\ GetNumSamples (GetSequence Demo.noisy 0) = 8%Z
  /\ (8 <= at_Z Demo.grid 1 < at_Z Demo.grid 2)%Z
  /\ clipped Demo.noisy 0 Demo.grid 1 = true
  /\ clippedSamples Demo.noisy 0 Demo.grid 1 = take 8 Demo.noisySamples
  /\ calls <$> (GetWaveDisplay (construct 1) Demo.noisy 0 (WaveDisplay.fresh 2)
                  Double.zero (Double.of_Z 100) ≫= outcomeOf) = Some [(0, 1)]
  /\ (GetWaveDisplay (construct 1) Demo.noisy 0 (WaveDisplay.fresh 2)
        Double.zero (Double.of_Z 100)
      ≫= fun x => mWaveCaches (cacheAfter x) !! 0
      ≫= fun w => (fun e => entryColumn e 1) <$> w)
     = Some (Some S754_nan, Some S754_nan, Some S754_nan)
  /\ Demo.f32 1 (-1) ∈ take 8 Demo.noisySamples
  /\ Demo.f32 (-3) (-2) ∈ take 8 Demo.noisySamples
  /\ Float.leb (Demo.f32 1 (-1)) S754_nan = false
  /\ Float.leb S754_nan (Demo.f32 (-3) (-2)) = false
  /\ clippedSamples Demo.exchanged 0 Demo.grid 1 = take 8 Demo.exchangedSamples
  /\ (GetWaveDisplay (construct 1) Demo.exchanged 0 (WaveDisplay.fresh 2)
        Double.zero (Double.of_Z 100)
      ≫= fun x => mWaveCaches (cacheAfter x) !! 0
      ≫= fun w => (fun e => (entryColumn e 1).1) <$> w)
     = Some (Some (Demo.f32 (-3) (-2)), Some (Demo.f32 1 (-1))).
Proof.
  split; [vm_compute; reflexivity|]. split; [reflexivity|].
  split; [vm_compute; split; [discriminate|reflexivity]|].
  split; [vm_compute; reflexivity|]. split; [vm_compute; reflexivity|].
  split; [vm_compute; reflexivity|]. split; [vm_compute; reflexivity|].
  split; [vm_compute; right; left|]. split; [vm_compute; right; right; left|].
  split; [reflexivity|]. split; [reflexivity|].
  split; vm_compute; reflexivity.
Qed.

(** The request of two columns on [recording]: column 1 is summarized
    from the six samples of the append buffer that it meets. *)
Lemma C5_append_buffer_precedence_witness :
  exists mn mx,
    computedColumn Demo.appended (WaveDisplay.fresh 2) 0 1
    = (Some mn, Some mx, Some (rootMeanSquare (replicate 6 Demo.eighth)))
    /\ isMinimum mn (replicate 6 Demo.eighth)
    /\ isMaximum mx (replicate 6 Demo.eighth)
    /\ ~ covered (calls Demo.appended) 1.
Proof.
  destruct (C5_append_buffer_precedence (env := Demo.collaborators) (construct 1)
              Demo.recording 0 (WaveDisplay.fresh 2) Double.zero (Double.of_Z 100)
              (Some WaveCache.empty) Demo.appended 1)
    as (mn & mx & Hcol & _ & _ & Hnum & _ & _ & _ & Hncov);
    [reflexivity|vm_compute; reflexivity|intros Ha; discriminate Ha
    |vm_compute; lia|vm_compute; reflexivity|].
  destruct (Hnum Demo.eighth eq_refl ltac:(unfold notNaN; discriminate))
    as [Hmin Hmax].
  exists mn, mx. split; [exact Hcol|]. split; [exact Hmin|].
  split; [exact Hmax|exact Hncov].
Defined.


(** * Further properties *)

(** ** What a request leaves alone *)

Section Frames.
Context {env : Collaborators}.

Lemma fetch_calls_short clip channel where_ arrays p0 p1 good arrays' called :
  fetch clip channel where_ arrays p0 p1 = (good, arrays', called) ->
  length called <= 1.
Proof.
  intros Hf. destruct (decide (p0 < p1)) as [Hp|Hp].
  - destruct (fetch_spec clip channel where_ arrays p0 p1 Hp)
      as (good1 & arr1 & Heq & _).
    rewrite Heq in Hf. injection Hf as _ _ <-.
    destruct (_ <? _); simpl; lia.
  - rewrite fetch_empty in Hf by lia. injection Hf as _ _ <-. simpl. lia.
Qed.

(** A request with caller buffers neither reads nor changes the cache, and
    leaves the pointers, the width and the boundaries of the display as
    they are.  Its buffers keep their lengths, the columns at or beyond the
    width keep their content, and the durable store is called at most once,
    from column 0 and within the width. *)
Theorem allocated_request_frame self clip channel d t0 pps o :
  allocated d = true ->
  GetWaveDisplay self clip channel d t0 pps = Some (Returns o) ->
  cache o = self
  /\ WaveDisplay.width (display o) = WaveDisplay.width d
  /\ WaveDisplay.where_ (display o) = WaveDisplay.where_ d
  /\ (WaveDisplay.min (display o) = WaveDisplay.min d
      /\ WaveDisplay.max (display o) = WaveDisplay.max d
      /\ WaveDisplay.rms (display o) = WaveDisplay.rms d)
  /\ WaveDisplay.ownWhere (display o) = WaveDisplay.ownWhere d
  /\ (length (WaveDisplay.ownMin (display o)) = length (WaveDisplay.ownMin d)
      /\ length (WaveDisplay.ownMax (display o)) = length (WaveDisplay.ownMax d)
      /\ length (WaveDisplay.ownRms (display o)) = length (WaveDisplay.ownRms d))
  /\ (forall i, numPixelsOf d <= i ->
      column (ownArrays (display o)) i = column (ownArrays d) i)
  /\ length (calls o) <= 1
  /\ (forall p n, (p, n) ∈ calls o -> p = 0 /\ 0 < n /\ n <= numPixelsOf d).
Proof.
  intros Ha Hget.
  destruct (mWaveCaches self !! channel) as [w|] eqn:Hw.
  2:{ unfold GetWaveDisplay in Hget. rewrite Hw in Hget. discriminate. }
  destruct (GetWaveDisplay_allocated self clip channel d t0 pps w _ Hw Ha Hget)
    as (good & arrays & called & Hf & [= ->] & _).
  pose proof (fetch_calls_short _ _ _ _ _ _ _ _ _ Hf) as Hshort.
  apply fetch_frame in Hf as (Hlen & Hout & Hcalls).
  cbn [cache display calls]. split; [reflexivity|]. split; [reflexivity|].
  split; [reflexivity|]. split; [auto|]. split; [reflexivity|].
  split; [exact Hlen|]. split.
  - intros i Hi. specialize (Hout i ltac:(lia)).
    destruct arrays. exact Hout.
  - split; [exact Hshort|]. intros p n Hin. apply Hcalls in Hin. lia.
Qed.

(** With caller buffers and width 0 a request on a channel of the cache
    returns true and changes nothing, wherever [min], [max] and [rms]
    point, null included: not the cache, not the display and its buffers,
    and the durable store is not called. *)
Theorem allocated_zero_width self clip channel d t0 pps w :
  mWaveCaches self !! channel = Some w ->
  allocated d = true ->
  WaveDisplay.width d = 0%Z ->
  GetWaveDisplay self clip channel d t0 pps
  = Some (Returns {| ok := true; cache := self; display := d; calls := [] |}).
Proof.
  intros Hw Ha Hzero.
  assert (Hwidth : numPixelsOf d = 0)
    by (unfold numPixelsOf; rewrite Hzero; reflexivity).
  unfold GetWaveDisplay. rewrite Hw. simpl.
  unfold allocated in Ha. rewrite Ha, Hwidth. simpl.
  rewrite withOwn_ownArrays. reflexivity.
Qed.

(** Whatever a request does and returns, it leaves the generation counter,
    the number of channels and the entries of all other channels as they
    are. *)
Theorem request_leaves_other_channels self clip channel d t0 pps o :
  GetWaveDisplay self clip channel d t0 pps = Some (Returns o) ->
  mDirty (cache o) = mDirty self
  /\ length (mWaveCaches (cache o)) = length (mWaveCaches self)
  /\ forall other, other <> channel ->
     mWaveCaches (cache o) !! other = mWaveCaches self !! other.
Proof.
  intros Hget. apply GetWaveDisplay_cache in Hget as [->|[e ->]].
  - auto.
  - simpl. split; [reflexivity|]. split; [apply length_insert|].
    intros other Hne. apply list_lookup_insert_ne. congruence.
Qed.

(** Any request calls the durable store at most once, for a range of
    columns that is not empty and lies within the requested width. *)
Theorem at_most_one_store_call self clip channel d t0 pps o :
  GetWaveDisplay self clip channel d t0 pps = Some (Returns o) ->
  length (calls o) <= 1
  /\ forall p n, (p, n) ∈ calls o -> 0 < n /\ p + n <= numPixelsOf d.
Proof.
  intros Hget.
  destruct (mWaveCaches self !! channel) as [w|] eqn:Hw.
  2:{ unfold GetWaveDisplay in Hget. rewrite Hw in Hget. discriminate. }
  destruct (allocated d) eqn:Ha.
  - destruct (GetWaveDisplay_allocated self clip channel d t0 pps w _ Hw Ha Hget)
      as (good & arrays & called & Hf & [= ->] & _). cbn [calls].
    pose proof (fetch_calls_short _ _ _ _ _ _ _ _ _ Hf) as Hshort.
    apply fetch_frame in Hf as (_ & _ & Hcalls).
    split; [exact Hshort|]. intros p n Hin. apply Hcalls in Hin. lia.
  - assert (Hd : WaveDisplay.where_ d = nullptr).
    { unfold allocated in Ha. destruct (WaveDisplay.where_ d); [reflexivity|..];
        discriminate. }
    destruct (exactHit w (timePerPixel pps) (numPixelsOf d) (GetRate clip)
                (mDirty self) (origin clip t0)) eqn:Hhit.
    + rewrite (GetWaveDisplay_hit self clip channel d t0 pps w Hw Hd Hhit) in Hget.
      injection Hget as <-. simpl. split; [lia|]. intros p n Hin. inversion Hin.
    + destruct (GetWaveDisplay_replaced self clip channel d t0 pps w Hw Hd Hhit)
        as (e & good & arrays & called & Hf & Hget' & _).
      rewrite Hget' in Hget. injection Hget as Hget.
      apply rebuilt_returns in Hget as [_ <-]. cbn [calls].
      pose proof (fetch_calls_short _ _ _ _ _ _ _ _ _ Hf) as Hshort.
      apply fetch_frame in Hf as (_ & _ & Hcalls).
      pose proof (requestRange_bounds self clip d t0 pps w) as Hp1.
      split; [exact Hshort|]. intros p n Hin. apply Hcalls in Hin. lia.
Qed.
End Frames.

(** ** Entries that cannot be used, and entries that can be read *)

Section Entries.
Context {env : Collaborators}.

(** A request without caller buffers on a channel whose entry is null,
    empty, or stamped with another generation than the current one is
    recomputed in full, whatever the zoom and the origin of that entry. *)
Theorem unusable_entry_recomputes self clip channel d t0 pps w :
  mWaveCaches self !! channel = Some w ->
  WaveDisplay.where_ d = nullptr ->
  (forall c, w = Some c ->
     WaveCache.len c = 0 \/ WaveCache.dirty c <> mDirty self) ->
  GetWaveDisplay self clip channel d t0 pps
  = Some (fullRecompute self clip channel d t0 pps).
Proof.
  intros Hw Hd Hstale.
  apply (GetWaveDisplay_unmatched self clip channel d t0 pps w Hw Hd).
  apply match_stale. exact Hstale.
Qed.

(** [Invalidate] keeps the generation counter and the number of channels
    and makes every entry the empty entry; so after it a request without
    caller buffers, on any channel, is recomputed in full. *)
Theorem Invalidate_forces_recompute self clip channel d t0 pps :
  channel < length (mWaveCaches self) ->
  WaveDisplay.where_ d = nullptr ->
  mDirty (Invalidate self) = mDirty self
  /\ length (mWaveCaches (Invalidate self)) = length (mWaveCaches self)
  /\ (forall other, other < length (mWaveCaches self) ->
      mWaveCaches (Invalidate self) !! other = Some (Some WaveCache.empty))
  /\ GetWaveDisplay (Invalidate self) clip channel d t0 pps
     = Some (fullRecompute (Invalidate self) clip channel d t0 pps).
Proof.
  intros Hc Hd. split; [reflexivity|]. split; [apply length_fmap|].
  split; [intros other Ho; apply Invalidate_lookup; exact Ho|].
  apply (GetWaveDisplay_unmatched _ clip channel d t0 pps (Some WaveCache.empty)).
  - apply Invalidate_lookup. exact Hc.
  - exact Hd.
  - apply match_stale. intros c [= <-]. left. reflexivity.
Qed.

(** On a manager just constructed, the first request without caller
    buffers on any of its channels is recomputed in full. *)
Theorem first_request_recomputes nChannels clip channel d t0 pps :
  channel < nChannels ->
  WaveDisplay.where_ d = nullptr ->
  GetWaveDisplay (construct nChannels) clip channel d t0 pps
  = Some (fullRecompute (construct nChannels) clip channel d t0 pps).
Proof.
  intros Hc Hd.
  apply (GetWaveDisplay_unmatched _ clip channel d t0 pps (Some WaveCache.empty)).
  - apply construct_lookup. exact Hc.
  - exact Hd.
  - apply match_stale. intros c [= <-]. left. reflexivity.
Qed.

(** After a request without caller buffers that succeeded, on a cache that
    the operations can produce, the display points into the entry of the
    channel, and that entry carries the current generation and holds at
    least as many columns as the display is wide, in each of its three
    arrays. *)
Theorem successful_request_is_readable nChannels self clip channel d t0 pps o :
  reachable nChannels self ->
  WaveDisplay.where_ d = nullptr ->
  GetWaveDisplay self clip channel d t0 pps = Some (Returns o) ->
  ok o = true ->
  exists e,
    pointsToCache (display o) channel
    /\ mWaveCaches (cache o) !! channel = Some (Some e)
    /\ WaveCache.dirty e = mDirty (cache o)
    /\ numPixelsOf d <= WaveCache.len e
    /\ length (WaveCache.min e) = WaveCache.len e
    /\ length (WaveCache.max e) = WaveCache.len e
    /\ length (WaveCache.rms e) = WaveCache.len e.
Proof.
  intros Hreach Hd Hget Hok.
  destruct (mWaveCaches self !! channel) as [w|] eqn:Hw.
  2:{ unfold GetWaveDisplay in Hget. rewrite Hw in Hget. discriminate. }
  rewrite (GetWaveDisplay_unallocated self clip channel d t0 pps w Hw Hd) in Hget.
  destruct (exactHit _ _ _ _ _ _) eqn:Hhit.
  - injection Hget as <-. cbn [cache display].
    destruct w as [c|]; [|discriminate Hhit].
    pose proof (reachable_entries_sized nChannels self Hreach channel c Hw)
      as (H1 & H2 & H3).
    pose proof (match_dirty _ _ _ _ _ (exactHit_match _ _ _ _ _ _ Hhit)) as Hdirty.
    unfold exactHit in Hhit. apply andb_prop in Hhit as [_ Hlen].
    apply Nat.leb_le in Hlen.
    exists c. split; [repeat split|]. split; [exact Hw|].
    split; [exact Hdirty|]. split; [exact Hlen|]. auto.
  - injection Hget as Hget. apply rebuilt_returns in Hget as [_ <-].
    destruct (replaceEntry_unfold self clip channel d (origin clip t0) pps w)
      as (entry & good & arrays & called & _ & _ & Heq).
    destruct (replaceEntry_installs self clip channel d (origin clip t0) pps w)
      as (e & He & Hlen & _ & _ & _ & Hdirty & H1 & H2 & H3).
    rewrite Heq in Hok. cbn [ok] in Hok. subst good.
    exists e. split; [rewrite Heq; repeat split|].
    rewrite He. simpl.
    split; [apply list_lookup_insert_eq; apply lookup_lt_is_Some_1; eauto|].
    split; [exact Hdirty|]. rewrite Hlen. auto.
Qed.
End Entries.

Lemma allocated_request_frame_witness :
  cache Demo.ownedOutcome = Demo.filled
  /\ length (WaveDisplay.ownMin (display Demo.ownedOutcome)) = 3
  /\ column (ownArrays (display Demo.ownedOutcome)) 2
     = column (ownArrays Demo.owned) 2
  /\ (forall p n, (p, n) ∈ calls Demo.ownedOutcome -> p = 0 /\ 0 < n /\ n <= 2).
Proof.
  destruct (allocated_request_frame (env := Demo.collaborators) Demo.filled
              Demo.recording 0 Demo.owned Double.zero (Double.of_Z 100)
              Demo.ownedOutcome)
    as (Hcache & _ & _ & _ & _ & (Hlen & _) & Hcol & _ & Hcalls);
    [reflexivity|vm_compute; reflexivity|].
  split; [exact Hcache|]. split; [exact Hlen|].
  split; [apply Hcol; pixels|exact Hcalls].
Defined.

(** A display of width 0 as [Allocate] leaves it, its [min], [max] and
    [rms] null. *)
Lemma allocated_zero_width_witness :
  GetWaveDisplay Demo.filled Demo.recording 0 Demo.allocatedEmpty Double.zero
    (Double.of_Z 100)
  = Some (Returns {| ok := true; cache := Demo.filled;
                     display := Demo.allocatedEmpty; calls := [] |}).
Proof.
  apply (allocated_zero_width (env := Demo.collaborators) Demo.filled
           Demo.recording 0 Demo.allocatedEmpty Double.zero (Double.of_Z 100)
           (Some Demo.entry0));
    reflexivity.
Defined.

Lemma request_leaves_other_channels_witness :
  mDirty (cache Demo.failed) = mDirty Demo.filled
  /\ length (mWaveCaches (cache Demo.failed)) = length (mWaveCaches Demo.filled)
  /\ forall other, other <> 0 ->
     mWaveCaches (cache Demo.failed) !! other = mWaveCaches Demo.filled !! other.
Proof.
  apply (request_leaves_other_channels (env := Demo.collaborators) Demo.filled
           Demo.brokenClip 0 (WaveDisplay.fresh 4) Demo.later (Double.of_Z 100)
           Demo.failed).
  vm_compute. reflexivity.
Defined.

Lemma at_most_one_store_call_witness :
  length (calls Demo.appended) <= 1
  /\ forall p n, (p, n) ∈ calls Demo.appended -> 0 < n /\ p + n <= 2.
Proof.
  apply (at_most_one_store_call (env := Demo.collaborators) (construct 1)
           Demo.recording 0 (WaveDisplay.fresh 2) Double.zero (Double.of_Z 100)
           Demo.appended).
  vm_compute. reflexivity.
Defined.

Lemma unusable_entry_recomputes_witness :
  GetWaveDisplay (MarkChanged Demo.filled) Demo.clip0 0 (WaveDisplay.fresh 4)
    Demo.later (Double.of_Z 100)
  = Some (fullRecompute (MarkChanged Demo.filled) Demo.clip0 0
            (WaveDisplay.fresh 4) Demo.later (Double.of_Z 100)).
Proof.
  apply (unusable_entry_recomputes (env := Demo.collaborators)
           (MarkChanged Demo.filled) Demo.clip0 0 (WaveDisplay.fresh 4)
           Demo.later (Double.of_Z 100) (Some Demo.entry0));
    [reflexivity|reflexivity|].
  intros c [= <-]. right. vm_compute. discriminate.
Defined.

Lemma Invalidate_forces_recompute_witness :
  mDirty (Invalidate Demo.filled) = mDirty Demo.filled
  /\ length (mWaveCaches (Invalidate Demo.filled)) = length (mWaveCaches Demo.filled)
  /\ (forall other, other < length (mWaveCaches Demo.filled) ->
      mWaveCaches (Invalidate Demo.filled) !! other = Some (Some WaveCache.empty))
  /\ GetWaveDisplay (Invalidate Demo.filled) Demo.clip0 0 (WaveDisplay.fresh 4)
       Double.zero (Double.of_Z 100)
     = Some (fullRecompute (Invalidate Demo.filled) Demo.clip0 0
               (WaveDisplay.fresh 4) Double.zero (Double.of_Z 100)).
Proof.
  apply (Invalidate_forces_recompute (env := Demo.collaborators) Demo.filled
           Demo.clip0 0 (WaveDisplay.fresh 4) Double.zero (Double.of_Z 100));
    [simpl; lia|reflexivity].
Defined.

Lemma first_request_recomputes_witness :
  GetWaveDisplay (construct 2) Demo.clip0 1 (WaveDisplay.fresh 4) Double.zero
    (Double.of_Z 100)
  = Some (fullRecompute (construct 2) Demo.clip0 1 (WaveDisplay.fresh 4)
            Double.zero (Double.of_Z 100)).
Proof.
  apply (first_request_recomputes (env := Demo.collaborators) 2 Demo.clip0 1
           (WaveDisplay.fresh 4) Double.zero (Double.of_Z 100));
    [lia|reflexivity].
Defined.

Lemma successful_request_is_readable_witness :
  exists e,
    pointsToCache (display Demo.appended) 0
    /\ mWaveCaches (cache Demo.appended) !! 0 = Some (Some e)
    /\ WaveCache.dirty e = mDirty (cache Demo.appended)
    /\ 2 <= WaveCache.len e
    /\ length (WaveCache.min e) = WaveCache.len e
    /\ length (WaveCache.max e) = WaveCache.len e
    /\ length (WaveCache.rms e) = WaveCache.len e.
Proof.
  apply (successful_request_is_readable (env := Demo.collaborators) 1
           (construct 1) Demo.recording 0 (WaveDisplay.fresh 2) Double.zero
           (Double.of_Z 100) Demo.appended);
    [apply reach_construct|reflexivity|vm_compute; reflexivity|reflexivity].
Defined.

Lemma repeated_request_hits_witness :
  exists o,
    GetWaveDisplay Demo.filled Demo.brokenClip 0 (WaveDisplay.fresh 4) Demo.later
      (Double.of_Z 100) = Some (Returns o)
    /\ GetWaveDisplay (cache o) Demo.brokenClip 0 (WaveDisplay.fresh 4) Demo.later
         (Double.of_Z 100)
       = Some (Returns {| ok := true; cache := cache o;
                          display := report (WaveDisplay.fresh 4) 0;
                          calls := [] |}).
Proof.
  apply (repeated_request_hits (env := Demo.collaborators) Demo.filled
           Demo.brokenClip 0 (WaveDisplay.fresh 4) Demo.later (Double.of_Z 100)
           (Some Demo.entry0));
    [reflexivity|reflexivity|pixels|vm_compute; reflexivity
    |vm_compute; reflexivity|intros _; vm_compute; reflexivity].
Defined.

(** ** More on the fill loop *)

Section Filling.
Context {env : Collaborators}.

Lemma appendColumns_unclipped clip channel where_ n : forall a st,
  (forall i, a <= i < a + n -> clipped clip channel where_ i = false) ->
  fold_left
    (appendColumn (Stored (GetSequence clip channel)) (GetAppendBuffer clip channel)
       (GetAppendBufferLen clip) where_ (GetNumSamples (GetSequence clip channel)))
    (seq a n) st = st.
Proof.
  induction n as [|n IH]; intros a st Hno; [reflexivity|].
  simpl. rewrite IH by (intros i Hi; apply Hno; lia).
  unfold appendColumn.
  change (clipRight where_ (GetNumSamples (GetSequence clip channel))
            (GetAppendBufferLen clip) a
          >? clipLeft where_ (GetNumSamples (GetSequence clip channel)) a)%Z
    with (clipped clip channel where_ a).
  rewrite Hno by lia. reflexivity.
Qed.

Lemma unclipped_range clip channel where_ p0 p1 :
  GetAppendBufferLen clip = 0
  \/ (forall i, p0 <= i < p1 ->
        (at_Z where_ (i + 1) <= GetNumSamples (GetSequence clip channel))%Z) ->
  forall i, p0 <= i < p1 -> clipped clip channel where_ i = false.
Proof.
  intros [Hempty|Hwithin] i Hi.
  - unfold clipped, clipRight, clipLeft. rewrite Hempty.
    rewrite Z.gtb_ltb. apply Z.ltb_ge. lia.
  - specialize (Hwithin i Hi).
    destruct (clipped clip channel where_ i) eqn:Hc; [|reflexivity].
    apply clipped_beyond in Hc. lia.
Qed.

(** When the append buffer is empty, or when every column of the range
    ends within the committed sample count, the whole range is handed to
    the durable store in one call: the result is the store's, and the
    cursors are what they were with what the store wrote over the range. *)
Theorem range_without_append_goes_to_store clip channel where_ arrays p0 p1 :
  p0 < p1 ->
  GetAppendBufferLen clip = 0
  \/ (forall i, p0 <= i < p1 ->
        (at_Z where_ (i + 1) <= GetNumSamples (GetSequence clip channel))%Z) ->
  fetch clip channel where_ arrays p0 p1
  = ((SequenceGetWaveDisplay (GetSequence clip channel) (p1 - p0)
        (drop p0 where_)).1,
     store arrays p0 (p1 - p0)
       (SequenceGetWaveDisplay (GetSequence clip channel) (p1 - p0)
          (drop p0 where_)).2,
     [(p0, p1 - p0)]).
Proof.
  intros Hp Hcase.
  pose proof (unclipped_range clip channel where_ p0 p1 Hcase) as Hno.
  unfold fetch. rewrite (proj2 (Nat.ltb_lt p0 p1) Hp).
  set (a := firstBeyond where_ (GetNumSamples (GetSequence clip channel)) p0 p1).
  assert (Ha : p0 <= a <= p1) by (apply firstBeyond_range; lia).
  assert (Hpass : appendPass clip channel where_ arrays a p1 = (arrays, false)).
  { unfold appendPass. apply appendColumns_unclipped.
    intros i Hi. apply Hno. lia. }
  rewrite Hpass.
  replace (if a <? p1 then (arrays, p1) else (arrays, p1)) with (arrays, p1)
    by (destruct (a <? p1); reflexivity).
  rewrite (proj2 (Nat.ltb_lt p0 p1) Hp).
  destruct (SequenceGetWaveDisplay _ _ _) as [good out]. reflexivity.
Qed.

(** Once the append-buffer loop has summarized a column, the durable store
    is not asked for any column from [firstAppend] on: a column there
    whose part in the append buffer is empty is neither summarized nor
    fetched, and keeps what the cursors held. *)
Theorem unresolved_columns_are_left clip channel where_ arrays p0 p1
    good arrays' called j i :
  fetch clip channel where_ arrays p0 p1 = (good, arrays', called) ->
  p0 <= j < p1 -> clipped clip channel where_ j = true ->
  firstAppend clip channel where_ p0 p1 <= i < p1 ->
  clipped clip channel where_ i = false ->
  column arrays' i = column arrays i /\ ~ covered called i.
Proof.
  intros Hf Hj Hcj Hi Hci.
  destruct (fetch_append_column clip channel where_ arrays p0 p1 good arrays'
              called j Hf Hj Hcj) as (_ & He & _ & _).
  destruct (fetch_spec clip channel where_ arrays p0 p1 ltac:(lia))
    as (good1 & arr1 & Heq & _ & _ & Hcol).
  rewrite Heq in Hf. injection Hf as <- <- <-. split.
  - rewrite Hcol by (rewrite He; lia). rewrite Hci, andb_false_r. reflexivity.
  - intros (p & n & Hin & Hcov). rewrite He in Hin.
    destruct (p0 <? firstAppend clip channel where_ p0 p1) eqn:Hlt.
    + apply list_elem_of_singleton in Hin. injection Hin as -> ->.
      apply Nat.ltb_lt in Hlt. lia.
    + inversion Hin.
Qed.

(** The samples read for a column with a part in the append buffer lie
    within the length the buffer reports: they start at
    [max(0, where[i] - numSamples)] and end at
    [min(appendBufferLen, where[i + 1] - numSamples)].  When the stored
    format is float and the buffer holds that many samples, they are the
    samples of the buffer at these positions. *)
Theorem append_read_in_bounds clip channel where_ i :
  clipped clip channel where_ i = true ->
  let committed := GetNumSamples (GetSequence clip channel) in
  let sLeft := Z.to_nat (clipLeft where_ committed i) in
  let len := clippedLen clip channel where_ i in
  0 < len
  /\ sLeft + len <= GetAppendBufferLen clip
  /\ Z.of_nat sLeft = Z.max 0 (at_Z where_ i - committed)
  /\ Z.of_nat (sLeft + len)
     = Z.min (Z.of_nat (GetAppendBufferLen clip)) (at_Z where_ (i + 1) - committed)
  /\ (Stored (GetSequence clip channel) = floatSample ->
      GetAppendBufferLen clip <= length (GetAppendBuffer clip channel) ->
      len <= length (clippedFloats clip channel where_ i)
      /\ take len (clippedFloats clip channel where_ i)
         = asFloat <$> take len (drop sLeft (GetAppendBuffer clip channel))).
Proof.
  intros Hc committed sLeft len.
  assert (Hb : 0 < len /\ sLeft + len <= GetAppendBufferLen clip
               /\ Z.of_nat sLeft = Z.max 0 (at_Z where_ i - committed)
               /\ Z.of_nat (sLeft + len)
                  = Z.min (Z.of_nat (GetAppendBufferLen clip))
                      (at_Z where_ (i + 1) - committed)).
  { subst len sLeft. unfold clippedLen, clipped, clipLeft, clipRight in *.
    fold committed in Hc |- *. lia. }
  destruct Hb as (H1 & H2 & H3 & H4).
  split; [exact H1|]. split; [exact H2|]. split; [exact H3|].
  split; [exact H4|].
  intros Hfmt Hbuf. unfold clippedFloats, appendFloats. rewrite Hfmt. simpl.
  fold committed. fold sLeft. fold len. split.
  - rewrite length_fmap, length_drop. lia.
  - rewrite fmap_take. reflexivity.
Qed.
End Filling.

Lemma range_without_append_goes_to_store_witness :
  fetch Demo.short 0 Demo.grid (zeroArrays 2) 0 2
  = ((SequenceGetWaveDisplay (GetSequence Demo.short 0) (2 - 0)
        (drop 0 Demo.grid)).1,
     store (zeroArrays 2) 0 (2 - 0)
       (SequenceGetWaveDisplay (GetSequence Demo.short 0) (2 - 0)
          (drop 0 Demo.grid)).2,
     [(0, 2 - 0)]).
Proof.
  apply (range_without_append_goes_to_store (env := Demo.collaborators)
           Demo.short 0 Demo.grid (zeroArrays 2) 0 2); [lia|left; reflexivity].
Defined.

Lemma append_read_in_bounds_witness :
  0 < clippedLen Demo.recording 0 Demo.grid 1
  /\ Z.to_nat (clipLeft Demo.grid 10 1) + clippedLen Demo.recording 0 Demo.grid 1
     <= 20.
Proof.
  destruct (append_read_in_bounds (env := Demo.collaborators) Demo.recording 0
              Demo.grid 1) as (H1 & H2 & _); [vm_compute; reflexivity|].
  split; [exact H1|exact H2].
Defined.

(** Column 3 of [longGrid] lies beyond the append buffer: it keeps the zero
    of the cursors and the durable store is not asked for it. *)
Lemma unresolved_columns_are_left_witness :
  column Demo.holed.1.2 3 = column (zeroArrays 4) 3
  /\ ~ covered Demo.holed.2 3.
Proof.
  apply (unresolved_columns_are_left (env := Demo.collaborators) Demo.recording 0
           Demo.longGrid (zeroArrays 4) 0 4 Demo.holed.1.1 Demo.holed.1.2
           Demo.holed.2 1 3);
    [vm_compute; reflexivity|lia|vm_compute; reflexivity|vm_compute; lia
    |vm_compute; reflexivity].
Defined.

(** ** More on reuse *)

Section Reusing.
Context {env : Collaborators}.

(** Reuse at the leading edge.  On a request that finds a usable entry but
    no exact hit, when the offset given by the correction solver is [-k]
    with [k >= 0] and the old entry reaches the right edge of the request:
    columns [k, n) of the new entry are columns [0, n - k) of the old one,
    the durable store is not called for them, and a call of the store
    stays within [0, k).  The new entry has to be built for the request to
    return. *)
Theorem leading_edge_reuse self clip channel d t0 pps c x0 corr :
  mWaveCaches self !! channel = Some (Some c) ->
  WaveDisplay.where_ d = nullptr ->
  constructs (numPixelsOf d) = true ->
  exactHit (Some c) (timePerPixel pps) (numPixelsOf d) (GetRate clip)
    (mDirty self) (origin clip t0) = false ->
  match_ (Some c) (timePerPixel pps) (numPixelsOf d) (GetRate clip)
    (mDirty self) = true ->
  findCorrection (WaveCache.where_ c) (WaveCache.len c) (numPixelsOf d)
    (origin clip t0) (Double.of_Z (GetRate clip)) (samplesPerPixelOf clip pps)
  = (x0, corr) ->
  (- 2 ^ 31 < x0 <= 0)%Z ->
  (Z.of_nat (WaveCache.len c) - x0 < 2 ^ 31)%Z ->
  (Z.of_nat (numPixelsOf d) <= Z.of_nat (WaveCache.len c) - x0)%Z ->
  length (WaveCache.min c) = WaveCache.len c ->
  length (WaveCache.max c) = WaveCache.len c ->
  length (WaveCache.rms c) = WaveCache.len c ->
  let n := numPixelsOf d in
  let k := Z.to_nat (- x0) in
  exists o e,
    GetWaveDisplay self clip channel d t0 pps = Some (Returns o)
    /\ mWaveCaches (cache o) !! channel = Some (Some e)
    /\ (forall i, k <= i < n ->
        entryColumn e i = entryColumn c (i - k) /\ ~ covered (calls o) i)
    /\ (forall p m, (p, m) ∈ calls o -> p + m <= k).
Proof.
  intros Hw Hd Hbuilt Hhit Hm Hfind Hx0 Hdiff Hreach Hmin Hmax Hrms n k.
  destruct (GetWaveDisplay_replaced self clip channel d t0 pps (Some c) Hw Hd Hhit)
    as (e & good & arrays & called & Hf & Hget & Hlook & _ & Harr & _).
  rewrite (rebuilt_constructs _ _ _ _ Hbuilt) in Hget.
  set (r := requestReuse self clip d t0 pps (Some c)) in *. fold n in Hf.
  pose proof (reuse_matched c n (origin clip t0) (GetRate clip)
                (samplesPerPixelOf clip pps) x0 corr Hfind
                ltac:(lia) ltac:(lia) Hdiff) as Hr.
  assert (Hr' : r = reuse (Some c) true n (origin clip t0) (GetRate clip)
                      (samplesPerPixelOf clip pps)).
  { unfold r, requestReuse. rewrite Hm. reflexivity. }
  rewrite Hr in Hr'. clear Hr.
  set (cBegin := Nat.min n (Z.to_nat (Z.max 0 (- x0)))) in *.
  set (cEnd := Nat.min n (Z.to_nat (Z.max 0 (Z.of_nat (WaveCache.len c) - x0)))) in *.
  assert (HcB : cBegin = Nat.min n k) by (unfold cBegin, k; lia).
  assert (HcE : cEnd = n) by (unfold cEnd; lia).
  assert (Hrange : requestRange self clip d t0 pps (Some c)
                   = ((if 0 <? cBegin then 0 else n), cBegin)).
  { unfold requestRange. fold r. fold n. rewrite Hr'. simpl.
    unfold recomputeRange. fold cBegin. fold cEnd. rewrite HcE, Nat.leb_refl.
    reflexivity. }
  rewrite Hrange in Hf. cbn [fst snd] in Hf.
  apply fetch_frame in Hf as (_ & Hout & Hcalls).
  eexists _, e. split; [exact Hget|]. cbn [cache calls].
  split; [exact Hlook|]. split.
  - intros i Hi. split.
    + unfold entryColumn at 1. rewrite Harr, Hout by lia. rewrite Hr'.
      replace (i - k) with (Z.to_nat (Z.of_nat i + x0)) by lia.
      apply copyOld_column; [reflexivity|reflexivity|lia|assumption..|].
      fold cBegin. fold cEnd. lia.
    + intros (p & m & Hin & Hcov). apply Hcalls in Hin. lia.
  - intros p m Hin. apply Hcalls in Hin.
    destruct (0 <? cBegin) eqn:H0; [|apply Nat.ltb_ge in H0]; lia.
Qed.

(** No overlap, no reuse.  On a request that finds a usable entry whose
    grid, shifted by the offset the correction solver gives, does not meet
    the requested columns, nothing is copied and every column is fetched:
    the arrays of the new entry, when it is built, are what the fill loop
    makes of value-initialised cursors over [0, n). *)
Theorem disjoint_entry_is_not_reused self clip channel d t0 pps c x0 corr :
  mWaveCaches self !! channel = Some (Some c) ->
  WaveDisplay.where_ d = nullptr ->
  exactHit (Some c) (timePerPixel pps) (numPixelsOf d) (GetRate clip)
    (mDirty self) (origin clip t0) = false ->
  match_ (Some c) (timePerPixel pps) (numPixelsOf d) (GetRate clip)
    (mDirty self) = true ->
  findCorrection (WaveCache.where_ c) (WaveCache.len c) (numPixelsOf d)
    (origin clip t0) (Double.of_Z (GetRate clip)) (samplesPerPixelOf clip pps)
  = (x0, corr) ->
  (- 2 ^ 31 < x0 < 2 ^ 31)%Z ->
  (Z.of_nat (WaveCache.len c) < 2 ^ 31)%Z ->
  (Z.of_nat (WaveCache.len c) - x0 < 2 ^ 31)%Z ->
  (Z.of_nat (WaveCache.len c) <= x0 \/ x0 <= - Z.of_nat (numPixelsOf d))%Z ->
  let n := numPixelsOf d in
  exists e good arrays called,
    fetch clip channel (requestWhere self clip d t0 pps (Some c)) (zeroArrays n) 0 n
    = (good, arrays, called)
    /\ GetWaveDisplay self clip channel d t0 pps
       = Some (rebuilt self channel d
                 {| ok := good; cache := install self channel e;
                    display := if good then report d channel else d;
                    calls := called |})
    /\ arraysOf e = arrays
    /\ WaveCache.where_ e = requestWhere self clip d t0 pps (Some c)
    /\ correction (requestReuse self clip d t0 pps (Some c)) = corr.
Proof.
  intros Hw Hd Hhit Hm Hfind Hx0 Hlen Hdiff Hapart n.
  destruct (GetWaveDisplay_replaced self clip channel d t0 pps (Some c) Hw Hd Hhit)
    as (e & good & arrays & called & Hf & Hget & _ & Hwh & Harr & _).
  set (r := requestReuse self clip d t0 pps (Some c)) in *. fold n in Hf.
  pose proof (reuse_matched c n (origin clip t0) (GetRate clip)
                (samplesPerPixelOf clip pps) x0 corr Hfind Hx0 Hlen Hdiff) as Hr.
  assert (Hr' : r = reuse (Some c) true n (origin clip t0) (GetRate clip)
                      (samplesPerPixelOf clip pps)).
  { unfold r, requestReuse. rewrite Hm. reflexivity. }
  rewrite Hr in Hr'. clear Hr.
  set (cBegin := Nat.min n (Z.to_nat (Z.max 0 (- x0)))) in *.
  set (cEnd := Nat.min n (Z.to_nat (Z.max 0 (Z.of_nat (WaveCache.len c) - x0)))) in *.
  assert (Hcases : (cBegin = 0 /\ cEnd = 0) \/ (cBegin = n /\ cEnd = n))
    by (unfold cBegin, cEnd; lia).
  assert (Hnone : (cBegin <? cEnd) = false) by (apply Nat.ltb_ge; lia).
  assert (Hcopy : copyOld r (zeroArrays n) = zeroArrays n).
  { rewrite Hr'. unfold copyOld. simpl oldCache. rewrite Hnone. reflexivity. }
  assert (Hrange : requestRange self clip d t0 pps (Some c) = (0, n)).
  { unfold requestRange. fold r. fold n. rewrite Hr'. simpl.
    fold cBegin. fold cEnd. unfold recomputeRange.
    destruct Hcases as [[-> ->]|[-> ->]].
    - destruct n; reflexivity.
    - rewrite Nat.leb_refl. destruct n; reflexivity. }
  rewrite Hcopy, Hrange in Hf. cbn [fst snd] in Hf.
  exists e, good, arrays, called.
  split; [exact Hf|]. split; [exact Hget|]. split; [exact Harr|].
  split; [exact Hwh|]. rewrite Hr'. reflexivity.
Qed.
End Reusing.

(** The request of [filled] made two pixels earlier than the entry of
    [shifted], on a louder store: columns 2 and 3 of the new entry are
    columns 0 and 1 of the old one, and the store is asked within [0, 2). *)
Lemma leading_edge_reuse_witness :
  exists o e,
    GetWaveDisplay Demo.shifted Demo.louder 0 (WaveDisplay.fresh 4) Double.zero
      (Double.of_Z 100) = Some (Returns o)
    /\ mWaveCaches (cache o) !! 0 = Some (Some e)
    /\ entryColumn e 2 = entryColumn Demo.entry2 0
    /\ entryColumn e 3 = entryColumn Demo.entry2 1
    /\ (forall p m, (p, m) ∈ calls o -> p + m <= 2).
Proof.
  destruct (leading_edge_reuse (env := Demo.collaborators) Demo.shifted
              Demo.louder 0 (WaveDisplay.fresh 4) Double.zero (Double.of_Z 100)
              Demo.entry2 (-2) Double.zero)
    as (o & e & Hget & Hlook & Hcols & Hcalls);
    [reflexivity|reflexivity|vm_compute; reflexivity|vm_compute; reflexivity
    |vm_compute; reflexivity|vm_compute; reflexivity|lia|simpl; lia|pixels
    |reflexivity|reflexivity|reflexivity|].
  exists o, e. split; [exact Hget|]. split; [exact Hlook|].
  split; [apply (Hcols 2); pixels|].
  split; [apply (Hcols 3); pixels|exact Hcalls].
Defined.

(** A request one second later than the entry of [filled]: the offset is
    100 columns, beyond the 4 columns of the entry. *)
Lemma disjoint_entry_is_not_reused_witness :
  exists e good arrays called,
    fetch Demo.louder 0
      (requestWhere Demo.filled Demo.louder (WaveDisplay.fresh 4) Double.one
         (Double.of_Z 100) (Some Demo.entry0)) (zeroArrays 4) 0 4
    = (good, arrays, called)
    /\ GetWaveDisplay Demo.filled Demo.louder 0 (WaveDisplay.fresh 4) Double.one
         (Double.of_Z 100)
       = Some (Returns {| ok := good; cache := install Demo.filled 0 e;
                          display := if good then report (WaveDisplay.fresh 4) 0
                                     else WaveDisplay.fresh 4;
                          calls := called |})
    /\ arraysOf e = arrays
    /\ WaveCache.where_ e
       = requestWhere Demo.filled Demo.louder (WaveDisplay.fresh 4) Double.one
           (Double.of_Z 100) (Some Demo.entry0)
    /\ correction (requestReuse Demo.filled Demo.louder (WaveDisplay.fresh 4)
                     Double.one (Double.of_Z 100) (Some Demo.entry0))
       = Double.zero.
Proof.
  apply (disjoint_entry_is_not_reused (env := Demo.collaborators) Demo.filled
           Demo.louder 0 (WaveDisplay.fresh 4) Double.one (Double.of_Z 100)
           Demo.entry0 100 Double.zero);
    [reflexivity|reflexivity|vm_compute; reflexivity|vm_compute; reflexivity
    |vm_compute; reflexivity|lia|simpl; lia|simpl; lia|left; simpl; lia].
Defined.

(** ** The sign of a summary *)

Lemma nonnegative_cases (x : spec_float) :
  nonnegative x <->
  match x with
  | S754_zero _ => True
  | S754_infinity s | S754_finite s _ _ => s = false
  | S754_nan => False
  end.
Proof.
  unfold nonnegative, SFleb, SFcompare.
  destruct x as [s|[|]| |[|] m e]; simpl; split; intros Hx;
    try reflexivity; try discriminate; try exact I; try contradiction.
Qed.

Lemma shr_1_nonneg (mrs : shr_record) :
  (0 <= shr_m mrs)%Z -> (0 <= shr_m (shr_1 mrs))%Z.
Proof.
  destruct mrs as [m r s]. destruct m as [|[p|p|]|[p|p|]]; simpl; lia.
Qed.

Lemma iter_pos_nonneg (p : positive) : forall mrs,
  (0 <= shr_m mrs)%Z -> (0 <= shr_m (SpecFloat.iter_pos shr_1 p mrs))%Z.
Proof.
  induction p as [p IH|p IH|]; intros mrs Hm; simpl.
  - apply IH, IH, shr_1_nonneg, Hm.
  - apply IH, IH, Hm.
  - apply shr_1_nonneg, Hm.
Qed.

Lemma shr_fexp_nonneg (prec emax m e : Z) (l : location) :
  (0 <= m)%Z -> (0 <= shr_m (shr_fexp prec emax m e l).1)%Z.
Proof.
  intros Hm. unfold shr_fexp, shr.
  assert (Hrec : (0 <= shr_m (shr_record_of_loc m l))%Z)
    by (destruct l as [|[| |]]; exact Hm).
  destruct (_ - e)%Z; simpl; [exact Hrec|apply iter_pos_nonneg; exact Hrec|exact Hrec].
Qed.

Lemma round_nearest_even_nonneg (m : Z) (l : location) :
  (0 <= m)%Z -> (0 <= round_nearest_even m l)%Z.
Proof.
  intros Hm. unfold round_nearest_even.
  destruct l as [|[| |]]; try destruct (Z.even m); lia.
Qed.

Lemma binary_round_aux_nonneg (prec emax mx ex : Z) (lx : location) :
  (0 <= mx)%Z -> nonnegative (binary_round_aux prec emax false mx ex lx).
Proof.
  intros Hm. unfold binary_round_aux.
  pose proof (shr_fexp_nonneg prec emax mx ex lx Hm) as H1.
  destruct (shr_fexp prec emax mx ex lx) as [mrs1 e1]. simpl in H1.
  pose proof (shr_fexp_nonneg prec emax
                (round_nearest_even (shr_m mrs1) (loc_of_shr_record mrs1)) e1
                loc_Exact (round_nearest_even_nonneg _ _ H1)) as H2.
  destruct (shr_fexp prec emax _ e1 loc_Exact) as [mrs2 e2]. simpl in H2.
  apply nonnegative_cases.
  destruct (shr_m mrs2); [exact I| |lia].
  destruct (_ <=? _)%Z; reflexivity.
Qed.

Lemma binary_round_nonneg (prec emax : Z) (m : positive) (e : Z) :
  nonnegative (binary_round prec emax false m e).
Proof.
  unfold binary_round. destruct (shl_align _ _ _) as [mz ez].
  apply binary_round_aux_nonneg. lia.
Qed.

Lemma Float_square_nonneg (v : float) : notNaN v -> nonnegative (Float.mul v v).
Proof.
  intros Hv. unfold Float.mul, SFmul.
  destruct v as [s|s| |s m e]; [| |congruence|].
  - apply nonnegative_cases. exact I.
  - apply nonnegative_cases. destruct s; reflexivity.
  - replace (xorb s s) with false by (destruct s; reflexivity).
    apply binary_round_aux_nonneg. lia.
Qed.

Lemma Float_add_nonneg (x y : float) :
  nonnegative x -> nonnegative y -> nonnegative (Float.add x y).
Proof.
  intros Hx Hy. apply nonnegative_cases in Hx, Hy.
  unfold Float.add, SFadd.
  destruct x as [sx|sx| |sx mx ex]; try contradiction;
    destruct y as [sy|sy| |sy my ey]; try contradiction; subst;
    try (apply nonnegative_cases; simpl; try destruct sx; try destruct sy;
         reflexivity || exact I).
  simpl cond_Zopp.
  change (Z.pos ?a + Z.pos ?b)%Z with (Z.pos (a + b)).
  apply binary_round_nonneg.
Qed.

Lemma sumOfSquares_nonneg (l : list float) : forall s0,
  nonnegative s0 -> Forall notNaN l ->
  nonnegative (fold_left (fun s v => Float.add s (Float.mul v v)) l s0).
Proof.
  induction l as [|v l IH]; intros s0 Hs Hl; [exact Hs|].
  apply Forall_cons in Hl as [Hv Hl]. simpl.
  apply IH; [|exact Hl]. apply Float_add_nonneg; [exact Hs|].
  apply Float_square_nonneg; exact Hv.
Qed.

Lemma SFdiv_core_nonneg (prec emax : Z) (m1 : positive) (e1 : Z) (m2 : positive)
    (e2 : Z) :
  (0 <= (SFdiv_core_binary prec emax (Z.pos m1) e1 (Z.pos m2) e2).1.1)%Z.
Proof.
  unfold SFdiv_core_binary.
  set (s := (e1 - e2 - _)%Z).
  set (m' := match s with Z.pos _ => Z.shiftl (Z.pos m1) s | 0%Z => Z.pos m1
                     | Z.neg _ => 0%Z end).
  assert (Hm : (0 <= m')%Z).
  { unfold m'. destruct s; [lia| |lia]. apply Z.shiftl_nonneg. lia. }
  pose proof (Z_div_mod m' (Z.pos m2) ltac:(lia)) as Hdiv.
  destruct (Z.div_eucl m' (Z.pos m2)) as [q r]. simpl. nia.
Qed.

Lemma Float_div_nonneg (x y : float) :
  nonnegative x -> finitePositive y -> nonnegative (Float.div x y).
Proof.
  intros Hx (my & ey & ->). apply nonnegative_cases in Hx.
  unfold Float.div, SFdiv.
  destruct x as [sx|sx| |sx mx ex]; try contradiction.
  - apply nonnegative_cases. exact I.
  - subst. apply nonnegative_cases. reflexivity.
  - subst.
    pose proof (SFdiv_core_nonneg Float.prec Float.emax mx ex my ey) as Hq.
    destruct (SFdiv_core_binary _ _ _ _ _ _) as [[mz ez] lz]. simpl in Hq.
    apply binary_round_aux_nonneg. exact Hq.
Qed.

Lemma SFsqrt_core_nonneg (prec emax : Z) (m : positive) (e : Z) :
  (0 <= (SFsqrt_core_binary prec emax (Z.pos m) e).1.1)%Z.
Proof.
  unfold SFsqrt_core_binary.
  set (e' := Z.min _ _).
  set (s := (e - 2 * e')%Z).
  set (m' := match s with Z.pos _ => Z.shiftl (Z.pos m) s | 0%Z => Z.pos m
                     | Z.neg _ => 0%Z end).
  assert (Hm : (0 <= m')%Z).
  { unfold m'. destruct s; [lia| |lia]. apply Z.shiftl_nonneg. lia. }
  pose proof (Z.sqrtrem_spec m' Hm) as Hsqrt.
  destruct (Z.sqrtrem m') as [q r]. simpl. lia.
Qed.

Lemma Float_sqrt_nonneg (x : float) : nonnegative x -> nonnegative (Float.sqrt x).
Proof.
  intros Hx. apply nonnegative_cases in Hx. unfold Float.sqrt, SFsqrt.
  destruct x as [sx|sx| |sx mx ex]; try contradiction.
  - apply nonnegative_cases. exact I.
  - subst. apply nonnegative_cases. reflexivity.
  - subst.
    pose proof (SFsqrt_core_nonneg Float.prec Float.emax mx ex) as Hq.
    destruct (SFsqrt_core_binary _ _ _ _) as [[mz ez] lz]. simpl in Hq.
    apply binary_round_aux_nonneg. exact Hq.
Qed.

Lemma digits2_pos_lower (p : positive) :
  (2 ^ (Z.pos (digits2_pos p) - 1) <= Z.pos p)%Z.
Proof.
  induction p as [p IH|p IH|]; simpl digits2_pos; [| |simpl; lia].
  - rewrite Pos2Z.inj_succ.
    replace (Z.succ (Z.pos (digits2_pos p)) - 1)%Z
      with (Z.succ (Z.pos (digits2_pos p) - 1)) by lia.
    rewrite Z.pow_succ_r by lia. lia.
  - rewrite Pos2Z.inj_succ.
    replace (Z.succ (Z.pos (digits2_pos p)) - 1)%Z
      with (Z.succ (Z.pos (digits2_pos p) - 1)) by lia.
    rewrite Z.pow_succ_r by lia. lia.
Qed.

Lemma digits2_pos_shift (p d : positive) :
  digits2_pos (Pos.iter xO p d) = (digits2_pos p + d)%positive.
Proof.
  induction d as [|d IH] using Pos.peano_ind.
  - simpl. lia.
  - rewrite Pos.iter_succ. simpl. rewrite IH. lia.
Qed.

(** A count below 2^24 converts to a finite [float]. *)
Lemma Float_of_nat_finite (len : nat) :
  0 < len -> (Z.of_nat len < 2 ^ 24)%Z -> finitePositive (Float.of_nat len).
Proof.
  intros Hpos Hlt. unfold Float.of_nat, Float.of_Z, binary_normalize.
  destruct (Z.of_nat len) as [|p|p] eqn:Hp; [lia| |lia].
  unfold binary_round.
  set (D := Z.pos (digits2_pos p)).
  assert (HD : (1 <= D <= 24)%Z).
  { split; [unfold D; lia|].
    destruct (Z_le_gt_dec D 24) as [|Hgt]; [assumption|exfalso].
    pose proof (digits2_pos_lower p) as Hlow. fold D in Hlow.
    pose proof (Z.pow_le_mono_r 2 24 (D - 1) ltac:(lia) ltac:(lia)). lia. }
  assert (Hfexp : forall x, (1 <= x <= 24)%Z ->
                    fexp Float.prec Float.emax x = (x - 24)%Z).
  { intros x Hx. unfold fexp, emin, Float.prec, Float.emax. lia. }
  rewrite Z.add_0_r, (Hfexp D HD).
  assert (Hal : exists mz, shl_align p 0 (D - 24) = (mz, (D - 24)%Z)
                           /\ Z.pos (digits2_pos mz) = 24%Z).
  { unfold shl_align. destruct (D - 24 - 0)%Z as [|d|d] eqn:Hs.
    - exists p. split; [f_equal; lia|fold D; lia].
    - lia.
    - exists (Pos.iter xO p d). split; [reflexivity|].
      rewrite digits2_pos_shift, Pos2Z.inj_add. fold D. lia. }
  destruct Hal as (mz & -> & Hdig).
  exists mz, (D - 24)%Z.
  unfold binary_round_aux, shr_fexp. simpl Zdigits2. rewrite Hdig.
  rewrite (Hfexp (24 + (D - 24))%Z) by lia.
  replace (24 + (D - 24) - 24 - (D - 24))%Z with 0%Z by lia.
  simpl. rewrite Hdig.
  rewrite (Hfexp (24 + (D - 24))%Z) by lia.
  replace (24 + (D - 24) - 24 - (D - 24))%Z with 0%Z by lia.
  simpl. replace (D - 24 <=? Float.emax - Float.prec)%Z with true; [reflexivity|].
  symmetry. apply Z.leb_le. unfold Float.emax, Float.prec. lia.
Qed.

(** The summary of a run of fewer than 2^24 samples, none of them a NaN:
    the minimum is not above the maximum, both are samples of the run, and
    the rms is a number that is not below zero. *)
Theorem summary_is_ordered_and_nonnegative (pb : list float) (len : nat) :
  0 < len -> len <= length pb -> (Z.of_nat len < 2 ^ 24)%Z ->
  Forall notNaN (take len pb) ->
  Float.leb (summarize pb len).1.1 (summarize pb len).1.2 = true
  /\ (summarize pb len).1.1 ∈ take len pb
  /\ (summarize pb len).1.2 ∈ take len pb
  /\ nonnegative (summarize pb len).2.
Proof.
  intros Hpos Hlen Hsmall Hnan.
  destruct (summarize_spec pb len Hpos Hlen Hnan)
    as (mn & mx & -> & [Hmn Hlow] & [Hmx Hhigh]).
  cbn [fst snd]. split; [apply Hlow; exact Hmx|]. split; [exact Hmn|].
  split; [exact Hmx|].
  unfold rootMeanSquare. apply Float_sqrt_nonneg. apply Float_div_nonneg.
  - unfold sumOfSquares. destruct (take len pb) as [|v0 rest]; [inversion Hmn|].
    apply Forall_cons in Hnan as [Hv0 Hrest].
    apply sumOfSquares_nonneg; [apply Float_square_nonneg; exact Hv0|exact Hrest].
  - rewrite length_take. replace (len `min` length pb) with len by lia.
    apply Float_of_nat_finite; assumption.
Qed.

Lemma summary_is_ordered_and_nonnegative_witness :
  Float.leb (summarize Demo.samples3 3).1.1 (summarize Demo.samples3 3).1.2 = true
  /\ (summarize Demo.samples3 3).1.1 ∈ take 3 Demo.samples3
  /\ (summarize Demo.samples3 3).1.2 ∈ take 3 Demo.samples3
  /\ nonnegative (summarize Demo.samples3 3).2.
Proof.
  apply (summary_is_ordered_and_nonnegative Demo.samples3 3);
    [lia|simpl; lia|simpl; lia|].
  vm_compute. repeat (constructor; [discriminate|]). constructor.
Defined.

(** ** Degenerate zoom, ignored arguments, and the cover of the width *)

Lemma Double_of_nat_nonneg (n : nat) : nonnegative (Double.of_nat n).
Proof.
  unfold Double.of_nat, Double.of_Z, binary_normalize.
  destruct (Z.of_nat n) as [|p|p] eqn:Hp; [|apply binary_round_nonneg|lia].
  apply nonnegative_cases. exact I.
Qed.

Lemma infinite_drift_fails (s : bool) (x y z : spec_float) :
  nonnegative y ->
  Double.ltb
    (Double.mul (Double.abs (Double.sub (S754_infinity s) x)) y) z = false.
Proof.
  intros Hy. apply nonnegative_cases in Hy.
  unfold Double.ltb, Double.mul, Double.abs, Double.sub, SFltb.
  destruct x as [sx|sx| |sx mx ex]; destruct y as [sy|sy| |sy my ey];
    try contradiction; subst;
    try destruct s; try destruct sx; simpl;
    destruct z as [sz|[|]| |[|] mz ez]; reflexivity.
Qed.

Section Degenerate.
Context {env : Collaborators}.

(** A request at a zoom of zero pixels per second divides by zero: its
    time per pixel is infinite, the zoom-match test fails against every
    entry, and the request, without caller buffers, is always recomputed
    in full. *)
Theorem zero_zoom_recomputes self clip channel d t0 (s : bool) w :
  mWaveCaches self !! channel = Some w ->
  WaveDisplay.where_ d = nullptr ->
  GetWaveDisplay self clip channel d t0 (S754_zero s)
  = Some (fullRecompute self clip channel d t0 (S754_zero s)).
Proof.
  intros Hw Hd.
  apply (GetWaveDisplay_unmatched self clip channel d t0 _ w Hw Hd).
  unfold match_, ppsMatch. destruct w as [c|]; [|reflexivity].
  assert (Hstep : timePerPixel (S754_zero s) = S754_infinity s)
    by (destruct s; reflexivity).
  rewrite Hstep, infinite_drift_fails by apply Double_of_nat_nonneg.
  reflexivity.
Qed.


(** Every column of the requested width is either in the recompute range
    or in the copy range, and in the latter case the old entry was kept to
    copy from. *)
Theorem columns_are_copied_or_recomputed w matched numPixels t0 rate spp i :
  i < numPixels ->
  let r := reuse w matched numPixels t0 rate spp in
  let p0 := (recomputeRange (copyBegin r) (copyEnd r) numPixels).1 in
  let p1 := (recomputeRange (copyBegin r) (copyEnd r) numPixels).2 in
  p0 <= i < p1
  \/ (copyBegin r <= i < copyEnd r /\ oldCache r = w /\ is_Some w).
Proof.
  intros Hi r p0 p1. subst p0 p1.
  pose proof (reuse_bounds w matched numPixels t0 rate spp) as [Hb He].
  fold r in Hb, He.
  assert (Hold : copyBegin r < copyEnd r -> oldCache r = w /\ is_Some w).
  { unfold r, reuse. destruct w as [old|]; [destruct matched|]; simpl; try lia.
    destruct (findCorrection _ _ _ _ _ _) as [x0 corr]. simpl.
    intros Hlt. rewrite (proj2 (Nat.ltb_lt _ _) Hlt). split; [reflexivity|eauto]. }
  unfold recomputeRange. simpl.
  destruct (0 <? copyBegin r) eqn:H0; destruct (numPixels <=? copyEnd r) eqn:H1;
    [apply Nat.ltb_lt in H0|apply Nat.ltb_lt in H0
    |apply Nat.ltb_ge in H0|apply Nat.ltb_ge in H0];
    [apply Nat.leb_le in H1|apply Nat.leb_gt in H1
    |apply Nat.leb_le in H1|apply Nat.leb_gt in H1];
    try (left; lia);
    destruct (decide (copyBegin r <= i < copyEnd r)) as [Hin|Hout];
    try (left; lia); right; (split; [exact Hin|apply Hold; lia]).
Qed.
End Degenerate.

Lemma zero_zoom_recomputes_witness :
  GetWaveDisplay Demo.filled Demo.clip0 0 (WaveDisplay.fresh 4) Double.zero
    (S754_zero false)
  = Some (fullRecompute Demo.filled Demo.clip0 0 (WaveDisplay.fresh 4)
            Double.zero (S754_zero false)).
Proof.
  apply (zero_zoom_recomputes (env := Demo.collaborators) Demo.filled Demo.clip0 0
           (WaveDisplay.fresh 4) Double.zero false (Some Demo.entry0));
    reflexivity.
Defined.


Lemma columns_are_copied_or_recomputed_witness :
  (recomputeRange
     (copyBegin (requestReuse Demo.filled Demo.louder (WaveDisplay.fresh 4)
                   Demo.twoPixels (Double.of_Z 100) (Some Demo.entry0)))
     (copyEnd (requestReuse Demo.filled Demo.louder (WaveDisplay.fresh 4)
                 Demo.twoPixels (Double.of_Z 100) (Some Demo.entry0))) 4).1
  <= 1
  < (recomputeRange
       (copyBegin (requestReuse Demo.filled Demo.louder (WaveDisplay.fresh 4)
                     Demo.twoPixels (Double.of_Z 100) (Some Demo.entry0)))
       (copyEnd (requestReuse Demo.filled Demo.louder (WaveDisplay.fresh 4)
                   Demo.twoPixels (Double.of_Z 100) (Some Demo.entry0))) 4).2
  \/ (copyBegin (requestReuse Demo.filled Demo.louder (WaveDisplay.fresh 4)
                   Demo.twoPixels (Double.of_Z 100) (Some Demo.entry0)) <= 1
      < copyEnd (requestReuse Demo.filled Demo.louder (WaveDisplay.fresh 4)
                   Demo.twoPixels (Double.of_Z 100) (Some Demo.entry0))
      /\ oldCache (requestReuse Demo.filled Demo.louder (WaveDisplay.fresh 4)
                     Demo.twoPixels (Double.of_Z 100) (Some Demo.entry0))
         = Some Demo.entry0
      /\ is_Some (Some Demo.entry0)).
Proof.
  apply (columns_are_copied_or_recomputed (env := Demo.collaborators)
           (Some Demo.entry0) _ 4 _ _ _ 1). lia.
Defined.
